(** * Reorder buffer and per-port continuity tracker of the flow tester

    A shallow embedding of [src/flow-tester/ReorderBuffer.h] and
    [src/flow-tester/ReorderBuffer.cpp], followed by the properties of the
    specification that concern them.  The callbacks of
    [src/flow-tester/receiver.cpp] and the sending loop of
    [src/flow-tester/sender.cpp] are embedded after the buffer, with
    properties of their own.

    Conventions of the embedding.
    - [uint64_t] values are integers in [[0, 2^64)]; every unsigned
      operation is followed by [u64].  A slot of [m_buffer] is a [uint8_t]
      and is stored through [u8].
    - A narrowing conversion to [int] ([int distance = sn - ...],
      [ret = discontinuity]) is [s32]; the conversion of an unsigned
      difference to [int64_t] is [s64].  Counters of type [int] and
      [int64_t] that are incremented wrap in two's complement (signed
      overflow, which C++ leaves undefined, is given that value), and so
      does [std::abs] on an [int64_t].
    - [m_buffer] is a list indexed by [Z.to_nat]; the port map
      [std::map<int, ErrorInterval*>] is a [gmap Z ErrorInterval], a null
      pointer being an absent key.
    - A failed [assert] aborts the call: [spill] and [addPacket] return
      [None].
    - The out-parameters [int *flow_burst_len], [int *flow_burst_count] are
      values of type [option Z]: [None] is [nullptr], [Some v] is a pointer
      to an [int] that currently holds [v]; the call returns the values the
      pointed-to variables hold afterwards. *)

From Stdlib Require Import ZArith Lia Bool.
From stdpp Require Import base option list gmap.

Local Open Scope Z_scope.

(** ** Fixed-width integers *)

Module Width.

Definition u8 (x : Z) : Z := x mod 2 ^ 8.
Definition u64 (x : Z) : Z := x mod 2 ^ 64.
Definition s32 (x : Z) : Z := (x + 2 ^ 31) mod 2 ^ 32 - 2 ^ 31.
Definition s64 (x : Z) : Z := (x + 2 ^ 63) mod 2 ^ 64 - 2 ^ 63.

End Width.
Import Width.

(** ** Data model *)

(** [struct ErrorInterval] *)
Record ErrorInterval := mkErrorInterval {
  last_known_sn : Z;   (* uint64_t *)
  burst_count : Z;     (* int *)
  reverses : Z;        (* int64_t *)
  duplicates : Z;      (* int64_t *)
  longest_burst : Z;   (* int64_t *)
  seq_breaks : Z       (* int64_t *)
}.

(** The data members of [class ReorderBuffer].  [good_departures] is a
    ghost counter that the class does not have: it counts the iterations
    of the loop of [spill] that found a slot with counter at least 1. *)
Record ReorderBuffer := mkReorderBuffer {
  m_buffer : list Z;
  m_buffer_len : Z;
  m_tail_idx : Z;
  m_head_idx : Z;
  m_tail_sn : Z;
  m_last_spilled_good_sn : Z;
  m_drops : Z;
  m_dups : Z;
  m_port_seq_map : gmap Z ErrorInterval;
  m_smallest_received_sn : Z;
  m_largest_received_sn : Z;
  good_departures : Z
}.

(** Field updates. *)
Definition set_buffer (v : list Z) (b : ReorderBuffer) : ReorderBuffer :=
  mkReorderBuffer v (m_buffer_len b) (m_tail_idx b) (m_head_idx b)
    (m_tail_sn b) (m_last_spilled_good_sn b) (m_drops b) (m_dups b)
    (m_port_seq_map b) (m_smallest_received_sn b) (m_largest_received_sn b)
    (good_departures b).
Definition set_tail_idx (v : Z) (b : ReorderBuffer) : ReorderBuffer :=
  mkReorderBuffer (m_buffer b) (m_buffer_len b) v (m_head_idx b)
    (m_tail_sn b) (m_last_spilled_good_sn b) (m_drops b) (m_dups b)
    (m_port_seq_map b) (m_smallest_received_sn b) (m_largest_received_sn b)
    (good_departures b).
Definition set_head_idx (v : Z) (b : ReorderBuffer) : ReorderBuffer :=
  mkReorderBuffer (m_buffer b) (m_buffer_len b) (m_tail_idx b) v
    (m_tail_sn b) (m_last_spilled_good_sn b) (m_drops b) (m_dups b)
    (m_port_seq_map b) (m_smallest_received_sn b) (m_largest_received_sn b)
    (good_departures b).
Definition set_tail_sn (v : Z) (b : ReorderBuffer) : ReorderBuffer :=
  mkReorderBuffer (m_buffer b) (m_buffer_len b) (m_tail_idx b) (m_head_idx b)
    v (m_last_spilled_good_sn b) (m_drops b) (m_dups b)
    (m_port_seq_map b) (m_smallest_received_sn b) (m_largest_received_sn b)
    (good_departures b).
Definition set_last_spilled_good_sn (v : Z) (b : ReorderBuffer) : ReorderBuffer :=
  mkReorderBuffer (m_buffer b) (m_buffer_len b) (m_tail_idx b) (m_head_idx b)
    (m_tail_sn b) v (m_drops b) (m_dups b)
    (m_port_seq_map b) (m_smallest_received_sn b) (m_largest_received_sn b)
    (good_departures b).
Definition set_drops (v : Z) (b : ReorderBuffer) : ReorderBuffer :=
  mkReorderBuffer (m_buffer b) (m_buffer_len b) (m_tail_idx b) (m_head_idx b)
    (m_tail_sn b) (m_last_spilled_good_sn b) v (m_dups b)
    (m_port_seq_map b) (m_smallest_received_sn b) (m_largest_received_sn b)
    (good_departures b).
Definition set_dups (v : Z) (b : ReorderBuffer) : ReorderBuffer :=
  mkReorderBuffer (m_buffer b) (m_buffer_len b) (m_tail_idx b) (m_head_idx b)
    (m_tail_sn b) (m_last_spilled_good_sn b) (m_drops b) v
    (m_port_seq_map b) (m_smallest_received_sn b) (m_largest_received_sn b)
    (good_departures b).
Definition set_port_seq_map (v : gmap Z ErrorInterval) (b : ReorderBuffer)
  : ReorderBuffer :=
  mkReorderBuffer (m_buffer b) (m_buffer_len b) (m_tail_idx b) (m_head_idx b)
    (m_tail_sn b) (m_last_spilled_good_sn b) (m_drops b) (m_dups b)
    v (m_smallest_received_sn b) (m_largest_received_sn b)
    (good_departures b).
Definition set_received (lo hi : Z) (b : ReorderBuffer) : ReorderBuffer :=
  mkReorderBuffer (m_buffer b) (m_buffer_len b) (m_tail_idx b) (m_head_idx b)
    (m_tail_sn b) (m_last_spilled_good_sn b) (m_drops b) (m_dups b)
    (m_port_seq_map b) lo hi (good_departures b).
Definition set_good_departures (v : Z) (b : ReorderBuffer) : ReorderBuffer :=
  mkReorderBuffer (m_buffer b) (m_buffer_len b) (m_tail_idx b) (m_head_idx b)
    (m_tail_sn b) (m_last_spilled_good_sn b) (m_drops b) (m_dups b)
    (m_port_seq_map b) (m_smallest_received_sn b) (m_largest_received_sn b)
    v.

(** [m_buffer[i]] and [m_buffer[i] = v]. *)
Definition slot (b : ReorderBuffer) (i : Z) : Z := m_buffer b !!! Z.to_nat i.
Definition store (i v : Z) (b : ReorderBuffer) : ReorderBuffer :=
  set_buffer (<[Z.to_nat i := v]> (m_buffer b)) b.

(** ** Operations *)

(** [ReorderBuffer::ReorderBuffer(int len)]: the buffer is zero
    initialised, and so is every member the constructor does not assign
    (default member initialisers of the header). *)
Definition new_buffer (len : Z) : ReorderBuffer :=
  mkReorderBuffer (replicate (Z.to_nat len) 0) len 0 0 0 0 0 0 ∅ 0 0 0.

(** Accessors of the header: [drops()], [duplicates()] (named [dups]
    here, [duplicates] being a field of [ErrorInterval]) and
    [stream_length_in_packets()]. *)
Definition drops (b : ReorderBuffer) : Z := m_drops b.
Definition dups (b : ReorderBuffer) : Z := m_dups b.
Definition stream_length_in_packets (b : ReorderBuffer) : Z :=
  u64 (u64 (1 + m_largest_received_sn b) - m_smallest_received_sn b).

(** [ReorderBuffer::flowInterval] *)
Definition flowInterval (b : ReorderBuffer) (port : Z) : ErrorInterval :=
  match m_port_seq_map b !! port with
  | Some iv => iv
  | None => mkErrorInterval 0 0 0 0 0 0
  end.

(** [ReorderBuffer::occupancy]; [%] on [int] truncates towards zero. *)
Definition occupancy (b : ReorderBuffer) : Z :=
  if m_tail_sn b =? 0 then 0
  else
    let diff := m_head_idx b - m_tail_idx b in
    let ret := 1 + Z.rem diff (m_buffer_len b) in
    if diff <? 0 then m_buffer_len b + diff else ret.

(** [ReorderBuffer::lowest_possible_sn] *)
Definition lowest_possible_sn (b : ReorderBuffer) : Z :=
  let diff := u64 (m_buffer_len b - occupancy b) in
  if m_tail_sn b >? diff then u64 (m_tail_sn b - diff) else 0.

(** [ReorderBuffer::highest_possible_sn] *)
Definition highest_possible_sn (b : ReorderBuffer) : Z :=
  u64 (u64 (m_tail_sn b + u64 (m_buffer_len b)) - 1).

(** [ReorderBuffer::idx_for]: the sum and the remainder are unsigned
    64-bit, the result is converted to [int]. *)
Definition idx_for (b : ReorderBuffer) (sn : Z) : Z :=
  s32 (u64 (u64 (m_tail_idx b) + u64 (sn - m_tail_sn b))
       mod u64 (m_buffer_len b)).

(** [ReorderBuffer::mark] *)
Definition mark (b : ReorderBuffer) (sn : Z) : ReorderBuffer :=
  let largest_sn := u64 (u64 (m_tail_sn b + u64 (occupancy b)) - 1) in
  let idx := idx_for b sn in
  let b := store idx (u8 (slot b idx + 1)) b in
  if sn >? largest_sn then set_head_idx idx b else b.

(** One iteration of the loop of [ReorderBuffer::spill], on the buffer and
    the locals [largest_burst] and [current_burst].  The branch of a
    marked slot also advances the ghost counter [good_departures]. *)
Definition spill_step (st : ReorderBuffer * Z * Z) : ReorderBuffer * Z * Z :=
  let '(b, largest_burst, current_burst) := st in
  let tail := slot b (m_tail_idx b) in
  let dropped := tail =? 0 in
  let b := store (m_tail_idx b) 0 b in
  let '(b, largest_burst, current_burst) :=
    if negb dropped then
      let b := set_dups (u64 (m_dups b + u64 (tail - 1))) b in
      let current_burst := 0 in
      let b := set_last_spilled_good_sn (m_tail_sn b) b in
      let b := set_good_departures (good_departures b + 1) b in
      (b, Z.max largest_burst current_burst, current_burst)
    else
      let b := set_drops (u64 (m_drops b + 1)) b in
      (b, largest_burst,
       if m_tail_sn b >? u64 (m_last_spilled_good_sn b + 2)
       then s32 (current_burst + 1) else current_burst) in
  let b := set_tail_idx (Z.rem (m_tail_idx b + 1) (m_buffer_len b)) b in
  let b := set_tail_sn (u64 (m_tail_sn b + 1)) b in
  (b, largest_burst, current_burst).

(** The loop [for (int i = 0; i < distance; i++)], [n] iterations. *)
Fixpoint spill_loop (n : nat) (st : ReorderBuffer * Z * Z)
  : ReorderBuffer * Z * Z :=
  match n with
  | O => st
  | S n' => spill_loop n' (spill_step st)
  end.

(** [ReorderBuffer::spill]; [None] when [assert(distance > 0)] fails. *)
Definition spill (b : ReorderBuffer) (sn : Z) : option (ReorderBuffer * Z) :=
  let distance := s32 (u64 (sn - highest_possible_sn b)) in
  if distance <=? 0 then None
  else
    let '(patchup_burst, distance, b) :=
      if distance >=? m_buffer_len b then
        let patchup_burst := distance - 1 in
        (patchup_burst, m_buffer_len b,
         set_drops (u64 (m_drops b + u64 patchup_burst)) b)
      else (0, Z.min (occupancy b) distance, b) in
    let '(b, largest_burst, current_burst) :=
      spill_loop (Z.to_nat distance) (b, 0, 0) in
    let b :=
      if negb (patchup_burst =? 0) then
        let b := set_tail_sn sn b in
        let b := set_head_idx (m_tail_idx b) b in
        store (m_tail_idx b) (u8 (slot b (m_tail_idx b) + 1)) b
      else mark b sn in
    let largest_burst :=
      if negb (current_burst =? 0)
      then Z.max largest_burst (s32 (current_burst + patchup_burst))
      else Z.max largest_burst patchup_burst in
    Some (b, largest_burst).

(** [ReorderBuffer::check_for_burst_error]: the record of [port] is
    updated in place through the pointer held by the map.  Returns the
    buffer, the return value and the content of [*burst_count].
    [std::abs] takes and returns an [int64_t]: it is [s64] of the
    absolute value, so that the most negative discontinuity, whose
    absolute value is not an [int64_t], is its own [std::abs]. *)
Definition check_for_burst_error (b : ReorderBuffer) (flow_sn port : Z)
    (burst_count_out : option Z) : ReorderBuffer * Z * option Z :=
  match m_port_seq_map b !! port with
  | None =>
      let v := mkErrorInterval flow_sn 0 0 0 0 0 in
      (set_port_seq_map (<[port := v]> (m_port_seq_map b)) b, 0,
       burst_count_out)
  | Some iv =>
      let put iv := set_port_seq_map (<[port := iv]> (m_port_seq_map b)) b in
      let expected_sn := u64 (last_known_sn iv + 1) in
      let iv := mkErrorInterval flow_sn (burst_count iv) (reverses iv)
                  (duplicates iv) (longest_burst iv) (seq_breaks iv) in
      let discontinuity := s64 (u64 (flow_sn - expected_sn)) in
      let iv :=
        if s64 (Z.abs discontinuity) >? 2 then
          mkErrorInterval (last_known_sn iv) (burst_count iv) (reverses iv)
            (duplicates iv) (longest_burst iv) (s64 (seq_breaks iv + 1))
        else iv in
      if discontinuity <? -1 then
        let iv := mkErrorInterval (last_known_sn iv) (burst_count iv)
                    (s64 (reverses iv + 1)) (duplicates iv)
                    (longest_burst iv) (seq_breaks iv) in
        (put iv, 0, burst_count_out)
      else
        let iv :=
          if discontinuity =? -1 then
            mkErrorInterval (last_known_sn iv) (burst_count iv) (reverses iv)
              (s64 (duplicates iv + 1)) (longest_burst iv) (seq_breaks iv)
          else iv in
        if discontinuity >? 1 then
          let iv := mkErrorInterval (last_known_sn iv)
                      (s32 (burst_count iv + 1)) (reverses iv)
                      (duplicates iv) (longest_burst iv) (seq_breaks iv) in
          let ret := s32 discontinuity in
          let burst_count_out :=
            match burst_count_out with
            | Some _ => Some (burst_count iv)
            | None => None
            end in
          let iv :=
            if discontinuity >? longest_burst iv then
              mkErrorInterval (last_known_sn iv) (burst_count iv)
                (reverses iv) (duplicates iv) discontinuity (seq_breaks iv)
            else iv in
          (put iv, ret, burst_count_out)
        else (put iv, 0, burst_count_out)
  end.

(** What a call of [addPacket] hands back: the return value and the
    contents of the two out-parameters. *)
Record AddResult := mkAddResult {
  stream_burst_len : Z;
  flow_burst_len : option Z;
  flow_burst_count : option Z
}.

(** [ReorderBuffer::addPacket] *)
Definition addPacket (b : ReorderBuffer) (sn flow_sn port : Z)
    (flow_burst_len flow_burst_count : option Z)
    : option (ReorderBuffer * AddResult) :=
  let b := set_received (Z.min sn (m_smallest_received_sn b))
             (Z.max sn (m_largest_received_sn b)) b in
  let '(b, len, flow_burst_count) :=
    check_for_burst_error b flow_sn port flow_burst_count in
  if m_tail_sn b =? 0 then
    let b := set_tail_sn sn b in
    let b := set_head_idx (m_tail_idx b) b in
    let b := store (m_tail_idx b) 1 b in
    Some (b, mkAddResult 0 flow_burst_len flow_burst_count)
  else
    let flow_burst_len :=
      match flow_burst_len with Some _ => Some len | None => None end in
    let lsn := lowest_possible_sn b in
    let hsn := highest_possible_sn b in
    if sn <? lsn then Some (b, mkAddResult 0 flow_burst_len flow_burst_count)
    else if sn <=? hsn then
      let idx := idx_for b sn in
      if (0 <=? idx) && (idx <? m_buffer_len b) then
        Some (mark b sn, mkAddResult 0 flow_burst_len flow_burst_count)
      else None
    else
      match spill b sn with
      | None => None
      | Some (b, stream_burst_len) =>
          Some (b, mkAddResult (Z.max 0 stream_burst_len)
                     flow_burst_len flow_burst_count)
      end.

(** ** Runs *)

(** One arrival: [(stream_sn, flow_sn, port)]. *)
Record Arrival := mkArrival { a_sn : Z; a_flow_sn : Z; a_port : Z }.

(** A caller that keeps two [int] variables and passes their addresses to
    every call, as the tests of the repository do.  The state of a run
    is the buffer and the two variables. *)
Record Caller := mkCaller {
  rb : ReorderBuffer;
  var_flow_burst_len : Z;
  var_flow_burst_count : Z
}.

Definition deliver (c : Caller) (a : Arrival) : option (Caller * Z) :=
  match addPacket (rb c) (a_sn a) (a_flow_sn a) (a_port a)
          (Some (var_flow_burst_len c)) (Some (var_flow_burst_count c)) with
  | None => None
  | Some (b, r) =>
      Some (mkCaller b
              (default (var_flow_burst_len c) (flow_burst_len r))
              (default (var_flow_burst_count c) (flow_burst_count r)),
            stream_burst_len r)
  end.

(** The state after a sequence of arrivals. *)
Fixpoint run (c : Caller) (evs : list Arrival) : option Caller :=
  match evs with
  | [] => Some c
  | a :: evs =>
      match deliver c a with
      | None => None
      | Some (c, _) => run c evs
      end
  end.

(** What a test observes: per arrival, the stream-burst length that the
    call returned, then [drops()] and [duplicates()] read right after
    it. *)
Record Observation := mkObservation {
  o_burst_len : Z; o_drops : Z; o_dups : Z
}.

Fixpoint trace (c : Caller) (evs : list Arrival) : option (list Observation) :=
  match evs with
  | [] => Some []
  | a :: evs =>
      match deliver c a with
      | None => None
      | Some (c, r) =>
          match trace c evs with
          | None => None
          | Some obs => Some (mkObservation r (drops (rb c)) (dups (rb c)) :: obs)
          end
      end
  end.

(** Arrivals [first, first + step, ...] ([n] of them) on one port with
    [flow_sn = stream_sn]. *)
Fixpoint in_order (port first step : Z) (n : nat) : list Arrival :=
  match n with
  | O => []
  | S n => mkArrival first first port :: in_order port (first + step) step n
  end.

Definition start (len : Z) : Caller := mkCaller (new_buffer len) 0 0.

(** ** The window, apart from the tracker *)

(** What [addPacket] does after the call of [check_for_burst_error], with
    the out-parameters left out: the classification of [sn] and the
    stream-burst length returned. *)
Definition window_step (b : ReorderBuffer) (sn : Z)
  : option (ReorderBuffer * Z) :=
  if m_tail_sn b =? 0 then
    Some (store (m_tail_idx b) 1 (set_head_idx (m_tail_idx b) (set_tail_sn sn b)), 0)
  else if sn <? lowest_possible_sn b then Some (b, 0)
  else if sn <=? highest_possible_sn b then
    if (0 <=? idx_for b sn) && (idx_for b sn <? m_buffer_len b)
    then Some (mark b sn, 0) else None
  else
    match spill b sn with
    | None => None
    | Some (b, len) => Some (b, Z.max 0 len)
    end.

(** The buffer on which a call classifies [sn]. *)
Definition received (b : ReorderBuffer) (sn : Z) : ReorderBuffer :=
  set_received (Z.min sn (m_smallest_received_sn b))
    (Z.max sn (m_largest_received_sn b)) b.

(** Two buffers with the same window: they agree on everything but the
    port map. *)
Definition same_window (b1 b2 : ReorderBuffer) : Prop :=
  set_port_seq_map ∅ b1 = set_port_seq_map ∅ b2.

(** The buffer with its port map emptied. *)
Definition erase (b : ReorderBuffer) : ReorderBuffer := set_port_seq_map ∅ b.

(** A state of the loop of [spill] with the port map replaced. *)
Definition with_port_map (m : gmap Z ErrorInterval)
    (st : ReorderBuffer * Z * Z) : ReorderBuffer * Z * Z :=
  (set_port_seq_map m st.1.1, st.1.2, st.2).

(** The observations of a run, computed on the window alone. *)
Fixpoint window_trace (b : ReorderBuffer) (sns : list Z)
  : option (list Observation) :=
  match sns with
  | [] => Some []
  | sn :: sns =>
      match window_step (received b sn) sn with
      | None => None
      | Some (b, r) =>
          match window_trace b sns with
          | None => None
          | Some obs => Some (mkObservation r (drops b) (dups b) :: obs)
          end
      end
  end.

(** The buffer after a run, computed on the window alone. *)
Fixpoint window_run (b : ReorderBuffer) (sns : list Z) : option ReorderBuffer :=
  match sns with
  | [] => Some b
  | sn :: sns =>
      match window_step (received b sn) sn with
      | None => None
      | Some (b, _) => window_run b sns
      end
  end.

(** The newest sequence number of the window, as [mark] computes it. *)
Definition largest_sn (b : ReorderBuffer) : Z :=
  u64 (u64 (m_tail_sn b + u64 (occupancy b)) - 1).

(** ** Notions of the specification *)

(** The logical sequence number that the specification assigns to slot
    [i]: [tail_sn + ((i − tail_idx) mod L)]. *)
Definition logical_sn (b : ReorderBuffer) (i : Z) : Z :=
  m_tail_sn b + (i - m_tail_idx b) mod m_buffer_len b.

(** The invariant of the specification: every marked slot has its
    logical sequence number in [[tail_sn, tail_sn + occupancy)]. *)
Definition marked_slots_in_window (b : ReorderBuffer) : Prop :=
  ∀ i, 0 ≤ i < m_buffer_len b → 0 < slot b i →
       m_tail_sn b ≤ logical_sn b i < m_tail_sn b + occupancy b.

(** The forward gap that an arrival [(flow_sn, port)] shows on a buffer:
    the signed discontinuity against the port's record, when it exceeds
    +1. *)
Definition forward_gap (b : ReorderBuffer) (flow_sn port : Z) : option Z :=
  match m_port_seq_map b !! port with
  | None => None
  | Some iv =>
      let d := s64 (u64 (flow_sn - u64 (last_known_sn iv + 1))) in
      if d >? 1 then Some d else None
  end.

(** The record of a port after one more arrival with [flow_sn]. *)
Definition updated_interval (iv : ErrorInterval) (flow_sn : Z) : ErrorInterval :=
  let d := s64 (u64 (flow_sn - u64 (last_known_sn iv + 1))) in
  mkErrorInterval flow_sn
    (if d >? 1 then s32 (burst_count iv + 1) else burst_count iv)
    (if d <? -1 then s64 (reverses iv + 1) else reverses iv)
    (if d =? -1 then s64 (duplicates iv + 1) else duplicates iv)
    (if (d >? 1) && (d >? longest_burst iv) then d else longest_burst iv)
    (if s64 (Z.abs d) >? 2 then s64 (seq_breaks iv + 1) else seq_breaks iv).

(** The flow sequence numbers that arrived on [port], in order of
    arrival. *)
Definition flow_on (port : Z) (evs : list Arrival) : list Z :=
  a_flow_sn <$> filter (λ a, a_port a = port) evs.

(** The signed discontinuity of an arrival against the one before it on
    the same port, as the tracker computes it. *)
Definition discontinuity (last flow_sn : Z) : Z :=
  s64 (u64 (flow_sn - u64 (last + 1))).

(** The discontinuities of a port's arrivals: each one but the first. *)
Fixpoint discontinuities (flow_sns : list Z) : list Z :=
  match flow_sns with
  | last :: (flow_sn :: _) as rest => discontinuity last flow_sn :: discontinuities rest
  | _ => []
  end.

(** The discontinuities observed on [port] during a run. *)
Definition observed (port : Z) (evs : list Arrival) : list Z :=
  discontinuities (flow_on port evs).

(** Counting the elements of a list that satisfy a test. *)
Definition count (p : Z → bool) (l : list Z) : Z :=
  Z.of_nat (length (List.filter p l)).

(** ** Invariants and relations between runs *)

(** Well-formed buffers: a positive capacity that fits an [int], a slot
    array of that length, both indices inside it. *)
Record wf (b : ReorderBuffer) : Prop := mkWf {
  wf_len : 0 < m_buffer_len b < 2 ^ 31;
  wf_buffer : length (m_buffer b) = Z.to_nat (m_buffer_len b);
  wf_tail : 0 ≤ m_tail_idx b < m_buffer_len b;
  wf_head : 0 ≤ m_head_idx b < m_buffer_len b
}.

(** The accounting invariant, for a run whose first arrival was [first]:
    every sequence number from [first] up to the tail has left the window
    and was counted once, as a drop or as a good departure. *)
Record accounted (first : Z) (b : ReorderBuffer) : Prop := mkAccounted {
  acc_wf : wf b;
  acc_first : 0 < first < 2 ^ 63;
  acc_tail : first ≤ m_tail_sn b ≤ m_largest_received_sn b;
  acc_largest : m_largest_received_sn b < 2 ^ 63 + 2 ^ 31;
  acc_reach : m_largest_received_sn b ≤ m_tail_sn b + 2 * m_buffer_len b - 2;
  acc_smallest : m_smallest_received_sn b ≤ first;
  acc_nonneg : 0 ≤ m_drops b ∧ 0 ≤ good_departures b;
  acc_sum : m_drops b + good_departures b = m_tail_sn b - first
}.

(** No arrival of [sns] is mapped to a slot whose counter holds 255. *)
Fixpoint fits (b : ReorderBuffer) (sns : list Z) : bool :=
  match sns with
  | [] => true
  | sn :: sns =>
      (slot b (idx_for b sn) <? 255)
      && match window_step (received b sn) sn with
         | None => true
         | Some (b, _) => fits b sns
         end
  end.

(** Every arrival of [sns] is less than 2^31 beyond
    [highest_possible_sn] at the time of its call, so that
    [int distance] in [spill] holds the distance; the arrival on an
    empty buffer, which does not reach [spill], is free. *)
Fixpoint in_reach (b : ReorderBuffer) (sns : list Z) : bool :=
  match sns with
  | [] => true
  | sn :: sns =>
      ((m_tail_sn b =? 0) || (sn - highest_possible_sn b <? 2 ^ 31))
      && match window_step (received b sn) sn with
         | None => true
         | Some (b, _) => in_reach b sns
         end
  end.

(** How the run with the extra copies relates to the run without them:
    while the slot is in the window its counter is [k] higher; once it
    has left, [dups] is [k] higher. *)
Inductive extra (i k : Z) : ReorderBuffer → ReorderBuffer → Prop :=
| extra_pending b :
    1 ≤ slot b i → slot b i + k ≤ 255 →
    extra i k b (store i (slot b i + k) b)
| extra_left b :
    extra i k b (set_dups (u64 (m_dups b + k)) b).

(** ** Scenarios *)

(** Arrivals on one port with [flow_sn = stream_sn]. *)
Definition arrivals (port : Z) (sns : list Z) : list Arrival :=
  (λ sn, mkArrival sn sn port) <$> sns.

(** Scenario S1 of the specification: 2, 4, .., 16, then 17..24. *)
Definition S1 (port : Z) : list Arrival :=
  in_order port 2 2 8 ++ in_order port 17 1 8.

(** What [drops()] reads after each call of scenario S1. *)
Definition S1_drops : list Z := [0; 0; 0; 0; 0; 1; 2; 3; 4; 4; 5; 5; 6; 6; 7; 7].

(** Scenario S2 of the specification: 1..1024, then 3025, then 1024
    more in order. *)
Definition S2 (port : Z) : list Arrival :=
  in_order port 1 1 1024 ++ [mkArrival 3025 3025 port]
  ++ in_order port 3026 1 1024.

(** The buffer of capacity 8 after a first arrival [(sn, sn, 0)]. *)
Definition first_packet (sn : Z) : ReorderBuffer :=
  default (new_buffer 8) (fst <$> addPacket (new_buffer 8) sn sn 0 None None).

Definition one_packet : ReorderBuffer := first_packet 1.

(** Two ports; port 0 sees the flow numbers 1, 4, 9. *)
Definition C6_run : list Arrival :=
  [mkArrival 1 1 0; mkArrival 2 1 1; mkArrival 3 4 0; mkArrival 4 2 1;
   mkArrival 5 9 0].

(** Arrivals after a first arrival of 1, for a buffer of capacity 8. *)
Definition C8_run : list Arrival := arrivals 0 [3; 2; 12; 12; 13; 40].

(** Capacity 16 after the arrivals 1..10. *)
Definition ten_packets : Caller :=
  default (start 16) (run (start 16) (in_order 0 1 1 10)).

(** ** Further functions of the buffer *)

(** [ReorderBuffer::slot_sn]; [None] when one of its two assertions
    fails.  [diff] and the remainder are [int], the sums are unsigned
    64-bit. *)
Definition slot_sn (b : ReorderBuffer) (idx : Z) : option Z :=
  if (0 <=? idx) && (idx <? m_buffer_len b) then
    let diff := s32 (idx - m_tail_idx b) in
    let sn := u64 (m_tail_sn b
                   + u64 (Z.rem (s32 (idx - m_tail_idx b)) (m_buffer_len b))) in
    let sn := if diff <? 0
              then u64 (u64 (m_tail_sn b + u64 diff) + u64 (m_buffer_len b))
              else sn in
    Some (if sn >? u64 (m_tail_sn b + u64 (occupancy b)) then 0 else sn)
  else None.

(** ** What the counters count *)

(** How many of the arrivals [sns] carry the number [sn]. *)
Definition times (sns : list Z) (sn : Z) : Z := count (λ x, x =? sn) sns.

(** Among the [n] numbers from [first] on, with [R x] the number of
    arrivals of [x]: the numbers that never arrived, and the copies after
    the first of those that did. *)
Fixpoint absent (R : Z → Z) (first : Z) (n : nat) : Z :=
  match n with
  | O => 0
  | S n => (if R first =? 0 then 1 else 0) + absent R (first + 1) n
  end.

Fixpoint copies (R : Z → Z) (first : Z) (n : nat) : Z :=
  match n with
  | O => 0
  | S n => (if R first =? 0 then 0 else R first - 1) + copies R (first + 1) n
  end.

(** An arrival that the window takes in as the number it is: positive
    and below 2^63, the first of all or not below the tail, and then
    either inside the window on a counter that is not full, or beyond it
    by less than 2^31 and either by the capacity or more, or by no more
    than the occupancy (so that the loop of [spill] is not cut short). *)
Definition orderly_step (b : ReorderBuffer) (sn : Z) : bool :=
  (0 <? sn) && (sn <? 2 ^ 63)
  && ((m_tail_sn b =? 0)
      || ((m_tail_sn b <=? sn)
          && (if sn <=? highest_possible_sn b
              then slot b (idx_for b sn) <? 255
              else
                let d := sn - highest_possible_sn b in
                (d <? 2 ^ 31)
                && ((m_buffer_len b <=? d) || (d <=? occupancy b))))).

Fixpoint orderly (b : ReorderBuffer) (sns : list Z) : bool :=
  match sns with
  | [] => true
  | sn :: sns =>
      orderly_step b sn
      && match window_step (received b sn) sn with
         | Some (b, _) => orderly b sns
         | None => false
         end
  end.

(** The buffer mirrors the arrival counts [R], for a stream that began
    at [first]: the slots hold the counts of the numbers of the window,
    nothing beyond the window has arrived, and the two counters hold what
    has left the window. *)
Record mirrors (R : Z → Z) (first : Z) (b : ReorderBuffer) : Prop := mkMirrors {
  mir_wf : wf b;
  mir_tail : 0 < first ≤ m_tail_sn b ∧ m_tail_sn b < 2 ^ 63;
  mir_slots : ∀ k, 0 ≤ k < m_buffer_len b →
    slot b ((m_tail_idx b + k) mod m_buffer_len b) = R (m_tail_sn b + k)
    ∧ 0 ≤ R (m_tail_sn b + k) ≤ 255;
  mir_beyond : ∀ x, m_tail_sn b + m_buffer_len b ≤ x → R x = 0;
  mir_drops : m_drops b = absent R first (Z.to_nat (m_tail_sn b - first));
  mir_dups : m_dups b = u64 (copies R first (Z.to_nat (m_tail_sn b - first)))
}.

(** The arrival counts of a stream that came in order from [first] to
    [last] and misses the numbers strictly between [A] and [B]. *)
Definition with_gap (first A B last x : Z) : Z :=
  if (first <=? x) && (x <=? last) && negb ((A <? x) && (x <? B)) then 1 else 0.

(** ** The record of a port, from the flow numbers that arrived on it *)

(** The largest forward gap among discontinuities, 0 without one. *)
Definition longest_gap (ds : list Z) : Z :=
  foldr Z.max 0 (List.filter (λ d, d >? 1) ds).

(** The record that the arrivals [flow_sns] on a port leave, counted on
    their discontinuities. *)
Definition record_of (flow_sns : list Z) : ErrorInterval :=
  let ds := discontinuities flow_sns in
  mkErrorInterval (default 0 (last flow_sns))
    (count (λ d, d >? 1) ds)
    (count (λ d, d <? -1) ds)
    (count (λ d, d =? -1) ds)
    (longest_gap ds)
    (count (λ d, s64 (Z.abs d) >? 2) ds).

(** ** The receiver *)

(** [receiver.cpp]: the marker that opens every payload, and the size of
    a receive buffer. *)
Definition MARKER : Z := 305419896.
Definition PACKET_SIZE : Z := 2 ^ 14.

(** What [on_read] can see of a [uv_buf_t]: [base] ([None] for a null
    pointer; otherwise the address and the three 64-bit words that the
    callback reads at it, whatever wrote them) and [len]. *)
Record Memory := mkMemory {
  address : Z; word0 : Z; word1 : Z; word2 : Z
}.
Record uv_buf_t := mkBuf { buf_base : option Memory; buf_len : Z }.

(** The rows that the callbacks queue for the worker threads.  The
    [timestamp] of [DBReportBurst] is left out: [on_read] does not assign
    it. *)
Record DBReportBurst := mkDBReportBurst {
  bu_port : Z; bu_packets_received : Z; bu_bytes_received : Z;
  bu_burst_errors : Z; bu_burst_length : Z
}.
Record DBReportFlowStats := mkDBReportFlowStats {
  fs_port : Z; fs_burst_count : Z; fs_reverses : Z; fs_duplicates : Z;
  fs_longest_burst : Z; fs_seq_breaks : Z; fs_timestamp : Z
}.
Record DBReportStreamBurst := mkDBReportStreamBurst {
  sb_burst_len : Z; sb_timestamp : Z
}.
Inductive Work :=
| BurstWork (r : DBReportBurst)
| StreamBurstWork (r : DBReportStreamBurst)
| FlowsWork (r : DBReportFlowStats).

(** [UDPReceiver]: the members that the callbacks use.  The packet
    storage holds the addresses of the free receive buffers. *)
Record UDPReceiver := mkUDPReceiver {
  m_port : Z;
  m_packet_storage : list Z;
  m_received_packets : Z;
  m_received_bytes : Z
}.

(** [UDPReceiver::getPacket]; [fresh] is what [alloc()] would return. *)
Definition getPacket (rx : UDPReceiver) (fresh : Z) : UDPReceiver * Z :=
  match m_packet_storage rx with
  | [] => (rx, fresh)
  | p :: rest =>
      (mkUDPReceiver (m_port rx) rest (m_received_packets rx)
         (m_received_bytes rx), p)
  end.

(** [UDPReceiver::my_alloc_cb]: the address and the length given to
    libuv. *)
Definition my_alloc_cb (rx : UDPReceiver) (fresh : Z) : UDPReceiver * (Z * Z) :=
  let '(rx, p) := getPacket rx fresh in (rx, (p, PACKET_SIZE)).

(** [UDPReceiver::freePacket] *)
Definition freePacket (rx : UDPReceiver) (packet : option Z) : UDPReceiver :=
  match packet with
  | Some p =>
      mkUDPReceiver (m_port rx) (m_packet_storage rx ++ [p])
        (m_received_packets rx) (m_received_bytes rx)
  | None => rx
  end.

(** [UDPReceiver::on_read] for the receiver [rx] of the handle, on the
    reorder buffer that the receivers share; [now] is what
    [get_system_time_ns()] returns if it is called.  The result is the
    receiver, the buffer and the work queued, in order; [None] when
    [addPacket] fails an assertion. *)
Definition on_read (rx : UDPReceiver) (b : ReorderBuffer) (nread : Z)
    (buf : option uv_buf_t) (now : Z)
  : option (UDPReceiver * ReorderBuffer * list Work) :=
  match buf with
  | None => Some (rx, b, [])
  | Some buf =>
      match buf_base buf with
      | None => Some (rx, b, [])
      | Some mem =>
          let added :=
            if negb (nread =? 0) then
              if buf_len buf =? 0 then Some (b, 0, 0, 0)
              else if negb (word0 mem =? MARKER) then Some (b, 0, 0, 0)
              else
                match addPacket b (word1 mem) (word2 mem) (m_port rx)
                        (Some 0) (Some 0) with
                | None => None
                | Some (b, r) =>
                    Some (b, default 0 (flow_burst_len r),
                          default 0 (flow_burst_count r), stream_burst_len r)
                end
            else Some (b, 0, 0, 0) in
          match added with
          | None => None
          | Some (b, burst_len, burst_count, stream_burst_len) =>
              let rx := freePacket rx (Some (address mem)) in
              if nread >? 0 then
                let rx :=
                  mkUDPReceiver (m_port rx) (m_packet_storage rx)
                    (u64 (m_received_packets rx + 1))
                    (u64 (m_received_bytes rx + nread)) in
                let q1 :=
                  if negb (burst_len =? 0) then
                    [BurstWork (mkDBReportBurst (m_port rx)
                       (m_received_packets rx) (m_received_bytes rx)
                       (u64 burst_count) burst_len)]
                  else [] in
                let q2 :=
                  if stream_burst_len >? 1 then
                    [StreamBurstWork (mkDBReportStreamBurst stream_burst_len now)]
                  else [] in
                Some (rx, b, q1 ++ q2)
              else Some (rx, b, [])
          end
      end
  end.

(** [flows_timer_cb]: the rows queued for the ports
    [starting_port .. starting_port + flow_count - 1]; [clock i] is what
    [get_system_time_ns()] returns in iteration [i]. *)
Definition flows_timer_cb (b : ReorderBuffer) (starting_port flow_count : Z)
    (clock : Z → Z) : list Work :=
  flat_map
    (λ i : nat,
       let port := s32 (starting_port + Z.of_nat i) in
       let iv := flowInterval b port in
       if negb (last_known_sn iv =? 0) then
         [FlowsWork (mkDBReportFlowStats port (burst_count iv) (reverses iv)
            (duplicates iv) (longest_burst iv) (seq_breaks iv)
            (clock (Z.of_nat i)))]
       else [])
    (seq 0 (Z.to_nat flow_count)).

(** The receiving process: the receivers of [main], one for each
    flowlet, the reorder buffer they share, and the work queued so far. *)
Record Site := mkSite {
  receivers : list UDPReceiver;
  reorderBuffer : ReorderBuffer;
  queued : list Work
}.

(** The state that [main] sets up: [pool i] holds the addresses of the 64
    buffers that the constructor of receiver [i] allocates. *)
Definition site_start (listen_port flowlet_count : Z) (pool : nat → list Z)
  : Site :=
  mkSite
    ((λ i : nat, mkUDPReceiver (s32 (listen_port + Z.of_nat i)) (pool i) 0 0)
       <$> seq 0 (Z.to_nat flowlet_count))
    (new_buffer 1024) [].

(** One call of [on_read] by the event loop, on the socket of receiver
    [handle]. *)
Record Read := mkRead {
  rd_handle : nat; rd_nread : Z; rd_buf : option uv_buf_t; rd_time : Z
}.

Definition site_step (s : Site) (e : Read) : option Site :=
  match receivers s !! rd_handle e with
  | None => None
  | Some rx =>
      match on_read rx (reorderBuffer s) (rd_nread e) (rd_buf e) (rd_time e) with
      | None => None
      | Some (rx, b, q) =>
          Some (mkSite (<[rd_handle e := rx]> (receivers s)) b (queued s ++ q))
      end
  end.

Fixpoint site_run (s : Site) (es : list Read) : option Site :=
  match es with
  | [] => Some s
  | e :: es =>
      match site_step s e with
      | None => None
      | Some s => site_run s es
      end
  end.

(** The arrival that a read on the receiver of [port] hands to
    [addPacket], if it hands one. *)
Definition feeds (port n : Z) (buf : option uv_buf_t) : option Arrival :=
  match buf with
  | None => None
  | Some buf =>
      match buf_base buf with
      | None => None
      | Some mem =>
          if negb (n =? 0) && negb (buf_len buf =? 0) && (word0 mem =? MARKER)
          then Some (mkArrival (word1 mem) (word2 mem) port)
          else None
      end
  end.

(** The arrivals that the reads [es] hand to [addPacket], for receivers
    on the ports [ports]. *)
Definition fed (ports : list Z) (es : list Read) : list Arrival :=
  omap (λ e, ports !! rd_handle e ≫= λ port, feeds port (rd_nread e) (rd_buf e))
    es.

(** ** The sender *)

(** The variables of the loop of [main] in [sender.cpp]. *)
Record Sender := mkSender {
  fd_idx : Z; sequence_number : Z; flow_sn : Z; s_bytes_sent : Z
}.

(** What one iteration sends: the index of the socket and the four words
    written to the payload. *)
Record Sent := mkSent {
  sent_idx : Z; sent_marker : Z; sent_sn : Z; sent_flow_sn : Z;
  sent_time : Z
}.

(** One iteration of [while (true)], with [flowlets] sockets; [now] is
    what [get_system_time_ns()] returns and [len] what [send] returns.
    [None] when [fd_idx] is not an index of [sock_fds].  The wait that
    paces the loop changes none of the variables. *)
Definition send_iteration (flowlets : Z) (s : Sender) (now len : Z)
  : option (Sender * Sent) :=
  let idx := fd_idx s in
  if (0 <=? idx) && (idx <? flowlets) then
    let fd_idx := s32 (idx + 1) in
    let '(fd_idx, flow_sn) :=
      if fd_idx >=? flowlets then (0, u64 (flow_sn s + 1))
      else (fd_idx, flow_sn s) in
    Some (mkSender fd_idx (u64 (sequence_number s + 1)) flow_sn
            (u64 (s_bytes_sent s + len)),
          mkSent idx MARKER (sequence_number s) flow_sn now)
  else None.

(** The iterations for the clock readings and [send] results [inputs]. *)
Fixpoint sending (flowlets : Z) (s : Sender) (inputs : list (Z * Z))
  : option (Sender * list Sent) :=
  match inputs with
  | [] => Some (s, [])
  | (now, len) :: inputs =>
      match send_iteration flowlets s now len with
      | None => None
      | Some (s, t) =>
          match sending flowlets s inputs with
          | None => None
          | Some (s, ts) => Some (s, t :: ts)
          end
      end
  end.

(** The variables before the first iteration. *)
Definition sender_start : Sender := mkSender 0 1 1 0.

(** What the sender is expected to send from iteration [i] on: packet
    [k] goes to socket [k mod flowlets] with stream number [k + 1] and
    flow number [1 + (k + 1) / flowlets]. *)
Fixpoint expected (flowlets i : Z) (inputs : list (Z * Z)) : list Sent :=
  match inputs with
  | [] => []
  | (now, _) :: inputs =>
      mkSent (i mod flowlets) MARKER (i + 1) (1 + (i + 1) / flowlets) now
      :: expected flowlets (i + 1) inputs
  end.

(** ** Sender and receiver together *)

(** A network that loses, repeats and reorders nothing: every packet
    sent is read once, in the order of sending, by the receiver of its
    socket, with [n] bytes read into the buffer at [addr]. *)
Definition delivered (n addr : Z) (t : Sent) : Read :=
  mkRead (Z.to_nat (sent_idx t)) n
    (Some (mkBuf (Some (mkMemory addr (sent_marker t) (sent_sn t)
                          (sent_flow_sn t))) PACKET_SIZE))
    (sent_time t).

(** The receiving process is quiet after the first [i] packets of an
    in-order stream that began at 1 and is spread over [K] ports from
    [port] on: nothing is queued, the window mirrors the arrivals
    [1 .. i] and has counted nothing, and each of the last [K] packets
    has left its flow number in a record without errors. *)
Record quiet (port K i : Z) (R : Z → Z) (s : Site) : Prop := mkQuiet {
  q_receivers : ∀ j : nat, Z.of_nat j < K →
    ∃ rx, receivers s !! j = Some rx ∧ m_port rx = port + Z.of_nat j;
  q_queued : queued s = [];
  q_mirror : mirrors R 1 (reorderBuffer s);
  q_arrived : ∀ x, R x = if (1 <=? x) && (x <=? i) then 1 else 0;
  q_window : m_tail_sn (reorderBuffer s) ≤ i
             < m_tail_sn (reorderBuffer s) + m_buffer_len (reorderBuffer s);
  q_clean : m_drops (reorderBuffer s) = 0 ∧ m_dups (reorderBuffer s) = 0;
  q_seen : ∀ k, 0 ≤ k < i → i - K ≤ k →
    m_port_seq_map (reorderBuffer s) !! (port + k mod K)
    = Some (mkErrorInterval (1 + (k + 1) / K) 0 0 0 0 0);
  q_unseen : ∀ j, i ≤ j < K →
    m_port_seq_map (reorderBuffer s) !! (port + j) = None;
  q_zero : ∀ p iv, m_port_seq_map (reorderBuffer s) !! p = Some iv →
    iv = mkErrorInterval (last_known_sn iv) 0 0 0 0 0
}.

(** * Properties *)

Ltac fields :=
  cbn [m_buffer m_buffer_len m_tail_idx m_head_idx m_tail_sn
       m_last_spilled_good_sn m_drops m_dups m_port_seq_map
       m_smallest_received_sn m_largest_received_sn good_departures
       set_buffer set_tail_idx set_head_idx set_tail_sn
       set_last_spilled_good_sn set_drops set_dups set_port_seq_map
       set_received set_good_departures store received] in *.


(** * Structure of a call *)

(** ** The window functions do not read the port map *)

Section PortMapFrame.

Variable m : gmap Z ErrorInterval.

Lemma occupancy_port_map b : occupancy (set_port_seq_map m b) = occupancy b.
Proof. reflexivity. Qed.

Lemma lowest_possible_sn_port_map b :
  lowest_possible_sn (set_port_seq_map m b) = lowest_possible_sn b.
Proof. reflexivity. Qed.

Lemma highest_possible_sn_port_map b :
  highest_possible_sn (set_port_seq_map m b) = highest_possible_sn b.
Proof. reflexivity. Qed.

Lemma idx_for_port_map b sn : idx_for (set_port_seq_map m b) sn = idx_for b sn.
Proof. reflexivity. Qed.

Lemma mark_port_map b sn :
  mark (set_port_seq_map m b) sn = set_port_seq_map m (mark b sn).
Proof.
  unfold mark. rewrite occupancy_port_map, idx_for_port_map.
  change (m_tail_sn (set_port_seq_map m b)) with (m_tail_sn b).
  destruct (sn >? _); reflexivity.
Qed.

Lemma spill_step_port_map st :
  spill_step (with_port_map m st) = with_port_map m (spill_step st).
Proof.
  destruct st as [[b lb] cb]. unfold with_port_map, spill_step; simpl.
  change (slot (set_port_seq_map m b) (m_tail_idx b)) with (slot b (m_tail_idx b)).
  destruct (slot b (m_tail_idx b) =? 0); simpl; reflexivity.
Qed.

Lemma spill_loop_port_map n st :
  spill_loop n (with_port_map m st) = with_port_map m (spill_loop n st).
Proof.
  revert st. induction n as [|n IH]; intros st; cbn [spill_loop]; [reflexivity|].
  rewrite spill_step_port_map. apply IH.
Qed.

Lemma spill_port_map b sn :
  spill (set_port_seq_map m b) sn
  = (λ x, (set_port_seq_map m x.1, x.2)) <$> spill b sn.
Proof.
  unfold spill. rewrite highest_possible_sn_port_map, occupancy_port_map.
  change (m_buffer_len (set_port_seq_map m b)) with (m_buffer_len b).
  destruct (s32 _ <=? 0); [reflexivity|].
  destruct (s32 _ >=? m_buffer_len b).
  - change (set_drops ?v (set_port_seq_map m b), 0, 0)
      with (with_port_map m (set_drops v b, 0, 0)).
    rewrite spill_loop_port_map.
    destruct (spill_loop _ _) as [[b' lb] cb]; simpl.
    destruct (negb (s32 _ - 1 =? 0)); [reflexivity|].
    rewrite mark_port_map. reflexivity.
  - change (set_port_seq_map m b, 0, 0) with (with_port_map m (b, 0, 0)).
    rewrite spill_loop_port_map.
    destruct (spill_loop _ _) as [[b' lb] cb]; simpl.
    rewrite mark_port_map. reflexivity.
Qed.

Lemma window_step_port_map b sn :
  window_step (set_port_seq_map m b) sn
  = (λ x, (set_port_seq_map m x.1, x.2)) <$> window_step b sn.
Proof.
  unfold window_step.
  rewrite lowest_possible_sn_port_map, highest_possible_sn_port_map,
    idx_for_port_map, spill_port_map, mark_port_map.
  change (m_tail_sn (set_port_seq_map m b)) with (m_tail_sn b).
  change (m_buffer_len (set_port_seq_map m b)) with (m_buffer_len b).
  destruct (m_tail_sn b =? 0); [reflexivity|].
  destruct (sn <? _); [reflexivity|].
  destruct (sn <=? _).
  - destruct (_ && _); reflexivity.
  - destruct (spill b sn) as [[b' len]|]; reflexivity.
Qed.

End PortMapFrame.

(** ** The tracker changes nothing but the port map *)

Lemma check_for_burst_error_frame b flow_sn port out :
  ∃ m, (check_for_burst_error b flow_sn port out).1.1 = set_port_seq_map m b.
Proof.
  unfold check_for_burst_error.
  destruct (m_port_seq_map b !! port) as [iv|]; [|eexists; reflexivity].
  cbv zeta.
  repeat match goal with
         | |- context [if ?c then _ else _] => destruct c
         end; eexists; reflexivity.
Qed.

(** A call is the tracker, then [window_step] on the window. *)
Lemma addPacket_window b sn flow_sn port fbl fbc :
  ∃ m, (λ x, (x.1, stream_burst_len x.2)) <$> addPacket b sn flow_sn port fbl fbc
       = (λ x, (set_port_seq_map m x.1, x.2)) <$> window_step (received b sn) sn.
Proof.
  unfold addPacket. fold (received b sn).
  destruct (check_for_burst_error_frame (received b sn) flow_sn port fbc) as [m Hm].
  destruct (check_for_burst_error _ _ _ _) as [[b1 len] fbc'].
  simpl in Hm. subst b1. exists m.
  rewrite <- window_step_port_map. unfold window_step.
  destruct (m_tail_sn _ =? 0); [reflexivity|].
  destruct (sn <? _); [reflexivity|].
  destruct (sn <=? _).
  - destruct (_ && _); reflexivity.
  - destruct (spill _ sn) as [[b' len']|]; reflexivity.
Qed.

(** [window_step] keeps the port map. *)
Lemma window_step_keeps_port_map b sn b' r :
  window_step b sn = Some (b', r) → m_port_seq_map b' = m_port_seq_map b.
Proof.
  intros H.
  assert (Hb : b = set_port_seq_map (m_port_seq_map b) b) by (destruct b; reflexivity).
  rewrite Hb, window_step_port_map in H.
  destruct (window_step b sn) as [[b0 r0]|]; simpl in H; [|discriminate].
  injection H as <- _. reflexivity.
Qed.

(** ** Runs of the window alone *)

Lemma same_window_erase b : same_window b (erase b).
Proof. reflexivity. Qed.

Lemma same_window_received b1 b2 sn :
  same_window b1 b2 → same_window (received b1 sn) (received b2 sn).
Proof.
  unfold same_window. destruct b1, b2; cbn. intros [=]; subst. reflexivity.
Qed.

Lemma same_window_step b1 b2 sn :
  same_window b1 b2 →
  (λ x, (erase x.1, x.2)) <$> window_step b1 sn
  = (λ x, (erase x.1, x.2)) <$> window_step b2 sn.
Proof.
  intros H.
  assert (E : ∀ b, (λ x, (erase x.1, x.2)) <$> window_step b sn
                   = window_step (erase b) sn).
  { intros b. unfold erase at 2. rewrite window_step_port_map. reflexivity. }
  rewrite !E. f_equal. exact H.
Qed.

(** The window part of the result of a call depends on the window and on
    [sn] only. *)
Lemma addPacket_same_window b1 b2 sn f1 p1 l1 c1 :
  same_window b1 b2 →
  (λ x, (erase x.1, stream_burst_len x.2)) <$> addPacket b1 sn f1 p1 l1 c1
  = (λ x, (erase x.1, x.2)) <$> window_step (received b2 sn) sn.
Proof.
  intros H.
  destruct (addPacket_window b1 sn f1 p1 l1 c1) as [m Hm].
  transitivity ((λ x : ReorderBuffer * Z, (erase x.1, x.2))
                <$> ((λ x, (x.1, stream_burst_len x.2))
                     <$> addPacket b1 sn f1 p1 l1 c1)).
  { destruct (addPacket b1 sn f1 p1 l1 c1) as [[? ?]|]; reflexivity. }
  rewrite Hm.
  rewrite <- (same_window_step _ _ sn (same_window_received _ _ sn H)).
  destruct (window_step (received b1 sn) sn) as [[? ?]|]; reflexivity.
Qed.

Lemma trace_window_trace evs : ∀ c b,
  same_window (rb c) b → trace c evs = window_trace b (a_sn <$> evs).
Proof.
  induction evs as [|a evs IH]; intros c b H; [reflexivity|].
  cbn [trace window_trace fmap list_fmap]. unfold deliver.
  pose proof (addPacket_same_window (rb c) b (a_sn a) (a_flow_sn a) (a_port a)
                (Some (var_flow_burst_len c)) (Some (var_flow_burst_count c)) H) as E.
  destruct (addPacket _ _ _ _ _ _) as [[b1 r1]|],
           (window_step (received b (a_sn a)) (a_sn a)) as [[b2 r2]|];
    cbn [fmap option_fmap option_map fst snd] in E; try discriminate;
    [|reflexivity].
  assert (E1 : same_window b1 b2) by (unfold same_window, erase in *; congruence).
  assert (E2 : stream_burst_len r1 = r2) by congruence.
  rewrite (IH (mkCaller b1 _ _) b2 E1), E2. cbn [rb].
  assert (drops b1 = drops b2 ∧ dups b1 = dups b2) as [-> ->]; [|reflexivity].
  unfold same_window in E1. destruct b1, b2; cbn in *.
  injection E1; intros; subst; auto.
Qed.

Lemma in_order_sn port first step n :
  a_sn <$> in_order port first step n
  = (λ k : nat, first + step * Z.of_nat k) <$> seq 0 n.
Proof.
  revert first. induction n as [|n IH]; intros first; [reflexivity|].
  cbn [in_order fmap list_fmap seq]. rewrite IH. f_equal.
  - cbn. lia.
  - rewrite <- seq_shift, <- list_fmap_compose.
    apply list_fmap_ext. intros _ k _. cbn. lia.
Qed.

(** * Scenarios *)

Lemma trace_start_sn len evs1 evs2 :
  a_sn <$> evs1 = a_sn <$> evs2 →
  trace (start len) evs1 = trace (start len) evs2.
Proof.
  intros H.
  rewrite (trace_window_trace evs1 _ (new_buffer len)) by reflexivity.
  rewrite (trace_window_trace evs2 _ (new_buffer len)) by reflexivity.
  now rewrite H.
Qed.

Lemma S2_sn port : a_sn <$> S2 port = a_sn <$> S2 0.
Proof. unfold S2. rewrite !fmap_app, !in_order_sn. reflexivity. Qed.

Lemma S1_sn port : a_sn <$> S1 port = a_sn <$> S1 0.
Proof. unfold S1. rewrite !fmap_app, !in_order_sn. reflexivity. Qed.

(** C1. Capacity 1024, arrivals 1..1024 in order on one port with
    [flow_sn = stream_sn]: the call for 3025 returns stream-burst length
    2000 and leaves [drops() = 2000]; each of the next 1024 in-order
    arrivals returns 0 and leaves [drops() = 2000].  (The first 1024 calls
    return 0 with no drops.) *)
Theorem C1_single_large_gap (port : Z) :
  trace (start 1024) (S2 port)
  = Some (replicate 1024 (mkObservation 0 0 0)
          ++ [mkObservation 2000 2000 0]
          ++ replicate 1024 (mkObservation 0 2000 0)).
Proof.
  rewrite (trace_start_sn _ _ _ (S2_sn port)). vm_compute. reflexivity.
Qed.

(** C5, as stated, fails: in scenario S1 (capacity 8, arrivals 2, 4, ..,
    16, then 17..24) [drops()] does not stay 0. *)
Lemma C5_drops_not_zero :
  ¬ ∃ obs, trace (start 8) (S1 0) = Some obs
           ∧ Forall (λ o, o_burst_len o = 0 ∧ o_drops o = 0 ∧ o_dups o = 0) obs.
Proof.
  intros (obs & H & Hall).
  vm_compute in H. injection H as <-.
  apply Forall_lookup_1 with (i := 5%nat) (x := mkObservation 0 1 0) in Hall;
    [|reflexivity].
  cbn in Hall. lia.
Qed.

(** C5, amended. In scenario S1 every call returns burst length 0 and
    [duplicates()] stays 0; [drops()] is 0 after the first five calls and
    then counts the skipped numbers 3, 5, .., 15 as they leave the window,
    reaching 7. *)
Theorem C5_basic_in_order (port : Z) :
  trace (start 8) (S1 port)
  = Some ((λ d, mkObservation 0 d 0) <$> S1_drops).
Proof.
  rewrite (trace_start_sn _ _ _ (S1_sn port)). vm_compute. reflexivity.
Qed.

(** * Single calls *)

(** C9. On a non-empty buffer ([tail_sn ≠ 0]) an arrival with
    [stream_sn < lowest_possible_sn] makes [addPacket] return 0 and leaves
    [tail_sn], [tail_idx], [head_idx], every slot counter, [drops] and
    [dups] unchanged. *)
Theorem C9_stale_arrival_ignored b sn flow_sn port fbl fbc :
  m_tail_sn b ≠ 0 →
  sn < lowest_possible_sn b →
  ∃ b' r, addPacket b sn flow_sn port fbl fbc = Some (b', r)
          ∧ stream_burst_len r = 0
          ∧ m_tail_sn b' = m_tail_sn b
          ∧ m_tail_idx b' = m_tail_idx b
          ∧ m_head_idx b' = m_head_idx b
          ∧ m_buffer b' = m_buffer b
          ∧ drops b' = drops b
          ∧ dups b' = dups b.
Proof.
  intros Htail Hstale.
  destruct (addPacket_window b sn flow_sn port fbl fbc) as [m Hm].
  assert (Hw : window_step (received b sn) sn = Some (received b sn, 0)).
  { unfold window_step.
    change (m_tail_sn (received b sn)) with (m_tail_sn b).
    change (lowest_possible_sn (received b sn)) with (lowest_possible_sn b).
    destruct (Z.eqb_spec (m_tail_sn b) 0) as [E|_]; [contradiction|].
    destruct (Z.ltb_spec sn (lowest_possible_sn b)) as [_|E]; [reflexivity|lia]. }
  rewrite Hw in Hm.
  destruct (addPacket b sn flow_sn port fbl fbc) as [[b' r]|]; [|discriminate].
  cbn in Hm. injection Hm as Hb Hr. subst b'.
  exists (set_port_seq_map m (received b sn)), r.
  repeat split; first [exact Hr | reflexivity].
Qed.

Lemma C9_stale_arrival_ignored_witness :
  ∃ b' r, addPacket (first_packet 100) 5 5 0 (Some 0) (Some 0) = Some (b', r)
          ∧ stream_burst_len r = 0
          ∧ m_tail_sn b' = m_tail_sn (first_packet 100)
          ∧ m_tail_idx b' = m_tail_idx (first_packet 100)
          ∧ m_head_idx b' = m_head_idx (first_packet 100)
          ∧ m_buffer b' = m_buffer (first_packet 100)
          ∧ drops b' = drops (first_packet 100)
          ∧ dups b' = dups (first_packet 100).
Proof.
  apply (C9_stale_arrival_ignored (first_packet 100) 5 5 0 (Some 0) (Some 0)).
  - vm_compute. discriminate.
  - vm_compute. reflexivity.
Defined.

(** What the tracker returns and writes, by cases on the forward gap. *)
Lemma check_for_burst_error_out b flow_sn port out :
  let '(b', len, out') := check_for_burst_error b flow_sn port out in
  match forward_gap b flow_sn port with
  | Some d =>
      len = s32 d
      ∧ out' = (λ _, burst_count (flowInterval b' port)) <$> out
  | None => len = 0 ∧ out' = out
  end.
Proof.
  unfold check_for_burst_error, forward_gap, flowInterval.
  destruct (m_port_seq_map b !! port) as [iv|]; [|split; reflexivity].
  cbv zeta. cbn [last_known_sn burst_count reverses duplicates longest_burst seq_breaks].
  set (d := s64 (u64 (flow_sn - u64 (last_known_sn iv + 1)))).
  destruct (s64 (Z.abs d) >? 2);
    cbn [last_known_sn burst_count reverses duplicates longest_burst seq_breaks].
  all: destruct (Z.ltb_spec d (-1)) as [Hlt|Hge].
  all: destruct (Z.gtb_spec d 1) as [Hgt|Hle]; try lia.
  all: try (split; reflexivity).
  all: destruct (Z.eqb_spec d (-1)) as [Heq|Hne]; try lia.
  all: cbn [last_known_sn burst_count reverses duplicates longest_burst seq_breaks].
  all: destruct (d >? longest_burst iv); cbn; rewrite lookup_insert_eq;
    (split; [reflexivity|destruct out; reflexivity]).
Qed.

(** C10, as stated, fails.  The first packet of an empty buffer leaves
    both out-parameters as the caller had them (here 7), although the
    tracker returned 0 and the port's burst count is 0.  The next in-order
    packet sets [*flow_burst_len] to 0 and again leaves
    [*flow_burst_count] at 7. *)
Lemma C10_first_packet_not_populated :
  (∃ b' r, addPacket (new_buffer 8) 1 1 0 (Some 7) (Some 7) = Some (b', r)
           ∧ (check_for_burst_error (received (new_buffer 8) 1) 1 0 (Some 7)).1.2 = 0
           ∧ burst_count (flowInterval b' 0) = 0
           ∧ flow_burst_len r = Some 7
           ∧ flow_burst_count r = Some 7
           ∧ flow_burst_len r ≠ Some 0
           ∧ flow_burst_count r ≠ Some (burst_count (flowInterval b' 0)))
  ∧ (∃ b' r, addPacket one_packet 2 2 0 (Some 7) (Some 7) = Some (b', r)
             ∧ burst_count (flowInterval b' 0) = 0
             ∧ flow_burst_len r = Some 0
             ∧ flow_burst_count r = Some 7
             ∧ flow_burst_count r ≠ Some (burst_count (flowInterval b' 0))).
Proof.
  split; eexists _, _; (split; [vm_compute; reflexivity|]);
    vm_compute; repeat split; first [reflexivity | discriminate].
Qed.

(** A call, unfolded: the tracker on the buffer with the new extremes,
    then [window_step]; [*flow_burst_len] is written unless the buffer
    was empty. *)
Lemma addPacket_unfold b sn flow_sn port fbl fbc :
  addPacket b sn flow_sn port fbl fbc
  = let '(b1, len, fbc') := check_for_burst_error (received b sn) flow_sn port fbc in
    (λ x, (x.1, mkAddResult x.2
                  (if m_tail_sn b =? 0 then fbl else (λ _, len) <$> fbl) fbc'))
    <$> window_step b1 sn.
Proof.
  unfold addPacket. fold (received b sn).
  destruct (check_for_burst_error_frame (received b sn) flow_sn port fbc) as [m Hm].
  destruct (check_for_burst_error _ _ _ _) as [[b1 len] fbc'].
  simpl in Hm. subst b1. unfold window_step.
  change (m_tail_sn (set_port_seq_map m (received b sn))) with (m_tail_sn b).
  destruct (m_tail_sn b =? 0); [reflexivity|].
  destruct (sn <? _); [destruct fbl; reflexivity|].
  destruct (sn <=? _).
  - destruct (_ && _); destruct fbl; reflexivity.
  - destruct (spill _ sn) as [[b' len']|]; destruct fbl; reflexivity.
Qed.

(** C10, amended. On a call with non-null out-pointers that returns:
    if the buffer was not empty, [*flow_burst_len] holds the tracker's
    return (the forward-gap length converted to [int], or 0 without a
    gap); [*flow_burst_count] holds the port's burst count when a forward
    gap occurred and is otherwise what the caller had put there. *)
Theorem C10_out_parameters b sn flow_sn port v w b' r :
  addPacket b sn flow_sn port (Some v) (Some w) = Some (b', r) →
  (m_tail_sn b ≠ 0 →
   flow_burst_len r
   = Some (match forward_gap b flow_sn port with Some d => s32 d | None => 0 end))
  ∧ flow_burst_count r
    = Some (match forward_gap b flow_sn port with
            | Some _ => burst_count (flowInterval b' port)
            | None => w
            end).
Proof.
  rewrite addPacket_unfold.
  pose proof (check_for_burst_error_out (received b sn) flow_sn port (Some w)) as Hout.
  destruct (check_for_burst_error _ _ _ _) as [[b1 len] fbc'].
  change (forward_gap (received b sn) flow_sn port)
    with (forward_gap b flow_sn port) in Hout.
  destruct (window_step b1 sn) as [[b2 r2]|] eqn:Hw; [|discriminate].
  cbn. intros [= <- <-]. cbn.
  apply window_step_keeps_port_map in Hw.
  assert (Hiv : flowInterval b2 port = flowInterval b1 port)
    by (unfold flowInterval; now rewrite Hw).
  rewrite Hiv.
  destruct (forward_gap b flow_sn port) as [d|]; destruct Hout as [-> ->];
    (split; [|reflexivity]);
    intros Hne; destruct (Z.eqb_spec (m_tail_sn b) 0); try contradiction;
    reflexivity.
Qed.

Lemma C10_out_parameters_witness :
  ∃ b' r, addPacket one_packet 5 5 0 (Some 0) (Some 0) = Some (b', r)
          ∧ flow_burst_len r = Some 3 ∧ flow_burst_count r = Some 1.
Proof.
  destruct (addPacket one_packet 5 5 0 (Some 0) (Some 0)) as [[b' r]|] eqn:E;
    [|vm_compute in E; discriminate].
  exists b', r. split; [reflexivity|].
  destruct (C10_out_parameters one_packet 5 5 0 0 0 b' r E) as [H1 H2].
  split.
  - rewrite H1 by (vm_compute; discriminate). vm_compute. reflexivity.
  - rewrite H2. vm_compute in E. injection E as <- _. vm_compute. reflexivity.
Defined.

(** * Defects *)

(** C2 on the code: capacity 8, arrivals 10 then 9.  The second arrival
    is inside the admissible range ([lowest_possible_sn = 3 ≤ 9 < 10 =
    tail_sn]) and is recorded at slot 7, whose logical sequence number is
    17, outside [[10, 11)]: the invariant does not hold after the call. *)
Theorem C2_arrival_below_tail :
  ∃ c1 c2, run (start 8) (arrivals 0 [10]) = Some c1
           ∧ lowest_possible_sn (rb c1) = 3 ∧ m_tail_sn (rb c1) = 10
           ∧ deliver c1 (mkArrival 9 9 0) = Some (c2, 0)
           ∧ idx_for (rb c1) 9 = 7
           ∧ slot (rb c2) 7 = 1
           ∧ logical_sn (rb c2) 7 = 17
           ∧ m_tail_sn (rb c2) = 10 ∧ occupancy (rb c2) = 1
           ∧ ¬ marked_slots_in_window (rb c2).
Proof.
  eexists _, _. split; [vm_compute; reflexivity|].
  split; [vm_compute; reflexivity|]. split; [vm_compute; reflexivity|].
  split; [vm_compute; reflexivity|]. split; [vm_compute; reflexivity|].
  split; [vm_compute; reflexivity|]. split; [vm_compute; reflexivity|].
  split; [vm_compute; reflexivity|]. split; [vm_compute; reflexivity|].
  intros H. specialize (H 7).
  assert (E : 10 ≤ 17 < 10 + 1); [|lia].
  apply H; vm_compute; split; congruence.
Qed.

(** The same invariant after an in-order run: capacity 8, arrivals 2, 4,
    6, 8, 10.  The head has wrapped below the tail, [occupancy] is
    [m_buffer_len + diff = 7] for the 8 slots from tail to head, and the
    head slot, marked for 10, has its logical sequence number at
    [tail_sn + occupancy], outside the half-open range. *)
Lemma occupancy_with_wrapped_head :
  ∃ c, run (start 8) (arrivals 0 [2; 4; 6; 8; 10]) = Some c
       ∧ m_tail_idx (rb c) = 1 ∧ m_head_idx (rb c) = 0
       ∧ m_tail_sn (rb c) = 3 ∧ occupancy (rb c) = 7
       ∧ slot (rb c) 0 = 1 ∧ logical_sn (rb c) 0 = 10
       ∧ ¬ marked_slots_in_window (rb c).
Proof.
  eexists. split; [vm_compute; reflexivity|].
  do 6 (split; [vm_compute; reflexivity|]).
  intros H. specialize (H 0).
  assert (E : 3 ≤ 10 < 3 + 7); [|lia].
  apply H; vm_compute; split; congruence.
Qed.

(** C3 on the code: capacity 8, arrivals 1, 7, 8, then 15.  The last call
    spills the slots of 1..7: the burst of dropped 4, 5, 6 (running length
    3) is closed by the marked slot of 7 inside the loop, and the call
    returns 0, not 3.  [drops()] counts the five empty slots. *)
Theorem C3_closed_burst_lost :
  trace (start 8) (arrivals 0 [1; 7; 8; 15])
  = Some [mkObservation 0 0 0; mkObservation 0 0 0; mkObservation 0 0 0;
          mkObservation 0 5 0].
Proof. vm_compute. reflexivity. Qed.

(** In the branch of a marked slot the running burst is reset before the
    maximum is taken: [largest_burst] keeps its value (or becomes 0), for
    any length of the burst just closed. *)
Lemma spill_step_good_slot b largest_burst current_burst :
  slot b (m_tail_idx b) ≠ 0 →
  let '(b', lb', cb') := spill_step (b, largest_burst, current_burst) in
  lb' = Z.max largest_burst 0 ∧ cb' = 0
  ∧ m_dups b' = u64 (m_dups b + u64 (slot b (m_tail_idx b) - 1))
  ∧ m_last_spilled_good_sn b' = m_tail_sn b
  ∧ m_drops b' = m_drops b.
Proof.
  intros H. unfold spill_step. cbv zeta.
  destruct (Z.eqb_spec (slot b (m_tail_idx b)) 0) as [E|_]; [contradiction|].
  cbn. repeat split; reflexivity.
Qed.

(** C4 on the code: after the single arrival of [stream_sn = 5] the
    smallest received number is 0, not 5, and the stream length is 6. *)
Theorem C4_smallest_received_is_zero :
  ∃ c, run (start 8) (arrivals 0 [5]) = Some c
       ∧ m_largest_received_sn (rb c) = 5
       ∧ m_smallest_received_sn (rb c) = 0
       ∧ stream_length_in_packets (rb c) = 6.
Proof.
  eexists. split; [vm_compute; reflexivity|].
  vm_compute. repeat split; reflexivity.
Qed.

(** * The continuity tracker over a run *)

Lemma check_for_burst_error_map b flow_sn port out :
  m_port_seq_map (check_for_burst_error b flow_sn port out).1.1
  = <[port := match m_port_seq_map b !! port with
              | None => mkErrorInterval flow_sn 0 0 0 0 0
              | Some iv => updated_interval iv flow_sn
              end]> (m_port_seq_map b).
Proof.
  unfold check_for_burst_error, updated_interval.
  destruct (m_port_seq_map b !! port) as [iv|]; [|reflexivity].
  cbv zeta. cbn [last_known_sn burst_count reverses duplicates longest_burst seq_breaks].
  set (d := s64 (u64 (flow_sn - u64 (last_known_sn iv + 1)))).
  destruct (s64 (Z.abs d) >? 2);
    cbn [last_known_sn burst_count reverses duplicates longest_burst seq_breaks].
  all: destruct (Z.ltb_spec d (-1)) as [Hlt|Hge].
  all: destruct (Z.gtb_spec d 1) as [Hgt|Hle]; try lia.
  all: destruct (Z.eqb_spec d (-1)) as [Heq|Hne]; try lia.
  all: cbn [last_known_sn burst_count reverses duplicates longest_burst seq_breaks andb].
  all: try reflexivity.
  all: destruct (d >? longest_burst iv); reflexivity.
Qed.

(** The port map after a call. *)
Lemma deliver_port_map c a c' r :
  deliver c a = Some (c', r) →
  m_port_seq_map (rb c')
  = <[a_port a := match m_port_seq_map (rb c) !! a_port a with
                  | None => mkErrorInterval (a_flow_sn a) 0 0 0 0 0
                  | Some iv => updated_interval iv (a_flow_sn a)
                  end]> (m_port_seq_map (rb c)).
Proof.
  unfold deliver. rewrite addPacket_unfold.
  pose proof (check_for_burst_error_map (received (rb c) (a_sn a)) (a_flow_sn a)
                (a_port a) (Some (var_flow_burst_count c))) as Hm.
  destruct (check_for_burst_error _ _ _ _) as [[b1 len] fbc'].
  destruct (window_step b1 (a_sn a)) as [[b2 r2]|] eqn:Hw; [|discriminate].
  cbn. intros [= <- _]. cbn.
  rewrite (window_step_keeps_port_map _ _ _ _ Hw). exact Hm.
Qed.

Lemma run_app c evs1 evs2 :
  run c (evs1 ++ evs2) = run c evs1 ≫= λ c1, run c1 evs2.
Proof.
  revert c. induction evs1 as [|a evs1 IH]; intros c; [reflexivity|].
  cbn [run app]. destruct (deliver c a) as [[c1 r]|]; [apply IH|reflexivity].
Qed.

Lemma run_snoc c evs a c' :
  run c (evs ++ [a]) = Some c' →
  ∃ c1 r, run c evs = Some c1 ∧ deliver c1 a = Some (c', r).
Proof.
  rewrite run_app. destruct (run c evs) as [c1|]; [|discriminate].
  cbn. destruct (deliver c1 a) as [[c2 r]|] eqn:E; [|discriminate].
  intros [= <-]. eauto.
Qed.

Lemma s32_small x : - 2 ^ 31 ≤ x < 2 ^ 31 → s32 x = x.
Proof. intros H. unfold s32. rewrite Z.mod_small; lia. Qed.

Lemma s64_small x : - 2 ^ 63 ≤ x < 2 ^ 63 → s64 x = x.
Proof. intros H. unfold s64. rewrite Z.mod_small; lia. Qed.

Lemma u64_small x : 0 ≤ x < 2 ^ 64 → u64 x = x.
Proof. intros H. unfold u64. rewrite Z.mod_small; lia. Qed.

Lemma discontinuities_snoc fl l f :
  last fl = Some l →
  discontinuities (fl ++ [f]) = discontinuities fl ++ [discontinuity l f].
Proof.
  induction fl as [|x [|y fl] IH]; intros H.
  - discriminate.
  - injection H as ->. reflexivity.
  - rewrite last_cons_cons in H. specialize (IH H).
    change (discontinuities ((x :: y :: fl) ++ [f]))
      with (discontinuity x y :: discontinuities ((y :: fl) ++ [f])).
    rewrite IH. reflexivity.
Qed.

Lemma discontinuities_length fl :
  (length (discontinuities fl) ≤ length fl - 1)%nat.
Proof.
  induction fl as [|x [|y fl] IH]; cbn [discontinuities length] in *; lia.
Qed.

Lemma count_snoc p l x :
  count p (l ++ [x]) = count p l + (if p x then 1 else 0).
Proof.
  unfold count. rewrite List.filter_app, length_app. cbn [List.filter].
  destruct (p x); cbn [length]; lia.
Qed.

Lemma count_bounds p l : 0 ≤ count p l ≤ Z.of_nat (length l).
Proof.
  unfold count. pose proof (List.filter_length_le p l). lia.
Qed.

Lemma flow_on_snoc port evs a :
  flow_on port (evs ++ [a])
  = flow_on port evs ++ (if decide (a_port a = port) then [a_flow_sn a] else []).
Proof.
  unfold flow_on. rewrite filter_app, fmap_app. f_equal.
  rewrite filter_cons, filter_nil. destruct (decide (a_port a = port)); reflexivity.
Qed.

Lemma flow_on_length port evs : (length (flow_on port evs) ≤ length evs)%nat.
Proof. unfold flow_on. rewrite length_fmap. apply length_filter. Qed.

(** C6 on the code: capacity 8, flow numbers 1 then 4 on one port.  Two
    flow numbers are missing (a discontinuity of exactly 2):
    [burst_count] becomes 1 under the guard [discontinuity > 1], and
    [seq_breaks] stays 0 under the guard [abs(discontinuity) > 2], so
    that the port has more bursts than sequence breaks. *)
Lemma C6_gap_of_two :
  ∃ c, run (start 8) (arrivals 0 [1; 4]) = Some c
       ∧ observed 0 (arrivals 0 [1; 4]) = [2]
       ∧ burst_count (flowInterval (rb c) 0) = 1
       ∧ seq_breaks (flowInterval (rb c) 0) = 0
       ∧ ¬ (burst_count (flowInterval (rb c) 0)
            ≤ seq_breaks (flowInterval (rb c) 0)).
Proof.
  eexists. split; [vm_compute; reflexivity|].
  vm_compute. repeat split; try reflexivity. intros H. apply H. reflexivity.
Qed.

(** The most negative discontinuity: capacity 8, flow numbers 0 then
    2^63 + 1 on one port.  The discontinuity is −2^63, whose [std::abs]
    in [int64_t] is −2^63 again: the arrival is a reverse and no
    sequence break. *)
Example most_negative_discontinuity :
  ∃ c, run (start 8) [mkArrival 1 0 0; mkArrival 2 (2 ^ 63 + 1) 0] = Some c
       ∧ observed 0 [mkArrival 1 0 0; mkArrival 2 (2 ^ 63 + 1) 0] = [- 2 ^ 63]
       ∧ reverses (flowInterval (rb c) 0) = 1
       ∧ seq_breaks (flowInterval (rb c) 0) = 0.
Proof.
  eexists. split; [vm_compute; reflexivity|].
  vm_compute. repeat split; reflexivity.
Qed.

(** * Accounting of the sequence numbers that left the window *)

Lemma wf_new_buffer len : 0 < len < 2 ^ 31 → wf (new_buffer len).
Proof.
  intros H. split; cbn; try lia. apply length_replicate.
Qed.

Lemma highest_possible_sn_eq b :
  0 < m_buffer_len b < 2 ^ 31 → 0 ≤ m_tail_sn b < 2 ^ 63 + 2 ^ 31 →
  highest_possible_sn b = m_tail_sn b + m_buffer_len b - 1.
Proof.
  intros HL Ht. unfold highest_possible_sn.
  rewrite (u64_small (m_buffer_len b)) by lia.
  rewrite (u64_small (m_tail_sn b + _)) by lia.
  apply u64_small. lia.
Qed.

Lemma idx_for_range b sn :
  0 < m_buffer_len b < 2 ^ 31 → 0 ≤ idx_for b sn < m_buffer_len b.
Proof.
  intros HL. unfold idx_for.
  rewrite (u64_small (m_buffer_len b)) by lia.
  pose proof (Z.mod_pos_bound (u64 (u64 (m_tail_idx b) + u64 (sn - m_tail_sn b)))
                (m_buffer_len b) ltac:(lia)) as H.
  rewrite s32_small; lia.
Qed.

Lemma s32_le x : 0 ≤ x → s32 x ≤ x.
Proof.
  intros H. unfold s32.
  pose proof (Z.mod_pos_bound (x + 2 ^ 31) (2 ^ 32) ltac:(lia)) as B.
  destruct (Z_lt_ge_dec x (2 ^ 31)) as [Hlt|Hge]; [|lia].
  rewrite Z.mod_small; lia.
Qed.

(** The fields that one iteration of the loop of [spill] changes. *)
Lemma spill_step_fields b lb cb :
  let b' := (spill_step (b, lb, cb)).1.1 in
  m_buffer_len b' = m_buffer_len b
  ∧ m_head_idx b' = m_head_idx b
  ∧ m_tail_sn b' = u64 (m_tail_sn b + 1)
  ∧ m_tail_idx b' = Z.rem (m_tail_idx b + 1) (m_buffer_len b)
  ∧ m_buffer b' = <[Z.to_nat (m_tail_idx b) := 0]> (m_buffer b)
  ∧ m_largest_received_sn b' = m_largest_received_sn b
  ∧ m_smallest_received_sn b' = m_smallest_received_sn b
  ∧ ((slot b (m_tail_idx b) = 0
      ∧ m_drops b' = u64 (m_drops b + 1)
      ∧ good_departures b' = good_departures b
      ∧ m_dups b' = m_dups b)
     ∨ (slot b (m_tail_idx b) ≠ 0
        ∧ m_drops b' = m_drops b
        ∧ good_departures b' = good_departures b + 1
        ∧ m_dups b' = u64 (m_dups b + u64 (slot b (m_tail_idx b) - 1)))).
Proof.
  unfold spill_step. cbv zeta.
  destruct (Z.eqb_spec (slot b (m_tail_idx b)) 0) as [E|E]; cbn;
    repeat split; auto.
Qed.

Lemma spill_loop_S n st : spill_loop (S n) st = spill_loop n (spill_step st).
Proof. reflexivity. Qed.

(** [n] iterations move the tail by [n] and count each slot passed once,
    as a drop or as a good departure. *)
Lemma spill_loop_account n : ∀ b lb cb,
  0 < m_buffer_len b →
  0 ≤ m_tail_idx b < m_buffer_len b →
  0 ≤ m_tail_sn b → m_tail_sn b + Z.of_nat n < 2 ^ 64 →
  0 ≤ m_drops b → m_drops b + Z.of_nat n < 2 ^ 64 →
  let b' := (spill_loop n (b, lb, cb)).1.1 in
  m_buffer_len b' = m_buffer_len b
  ∧ m_head_idx b' = m_head_idx b
  ∧ m_tail_sn b' = m_tail_sn b + Z.of_nat n
  ∧ 0 ≤ m_tail_idx b' < m_buffer_len b
  ∧ length (m_buffer b') = length (m_buffer b)
  ∧ m_largest_received_sn b' = m_largest_received_sn b
  ∧ m_smallest_received_sn b' = m_smallest_received_sn b
  ∧ m_drops b' + good_departures b'
    = m_drops b + good_departures b + Z.of_nat n
  ∧ m_drops b ≤ m_drops b'
  ∧ good_departures b ≤ good_departures b'.
Proof.
  induction n as [|n IH]; intros b lb cb HL Hti Hts Htn Hd Hdn.
  - cbn. repeat split; lia.
  - rewrite spill_loop_S.
    pose proof (spill_step_fields b lb cb) as F. cbv zeta in F.
    destruct (spill_step (b, lb, cb)) as [[b1 lb1] cb1]. cbn [fst] in F.
    destruct F as (F1 & F2 & F3 & F4 & F5 & F6 & F7 & F8).
    rewrite u64_small in F3 by lia.
    assert (Hti1 : 0 ≤ m_tail_idx b1 < m_buffer_len b1).
    { rewrite F4, F1. pose proof (Z.rem_bound_pos (m_tail_idx b + 1) (m_buffer_len b)
                                    ltac:(lia) ltac:(lia)). lia. }
    assert (Hd1 : m_drops b ≤ m_drops b1 ≤ m_drops b + 1
                  ∧ good_departures b ≤ good_departures b1
                  ∧ m_drops b1 + good_departures b1
                    = m_drops b + good_departures b + 1).
    { destruct F8 as [(_ & D & G & _)|(_ & D & G & _)]; rewrite D, G;
        [rewrite u64_small by lia|]; lia. }
    specialize (IH b1 lb1 cb1 ltac:(lia) Hti1 ltac:(lia) ltac:(lia) ltac:(lia) ltac:(lia)).
    cbv zeta in IH.
    destruct IH as (I1 & I2 & I3 & I4 & I5 & I6 & I7 & I8 & I9 & I10).
    cbv zeta.
    rewrite I1, I2, I3, I5, I6, I7, I8, F1, F2, F3, F5, F6, F7, length_insert.
    rewrite F1 in I4. repeat split; lia.
Qed.

(** [spill], with the result of the loop named by projections. *)
Lemma spill_unfold b sn :
  spill b sn
  = let distance := s32 (u64 (sn - highest_possible_sn b)) in
    if distance <=? 0 then None
    else if distance >=? m_buffer_len b then
      let st := spill_loop (Z.to_nat (m_buffer_len b))
                  (set_drops (u64 (m_drops b + u64 (distance - 1))) b, 0, 0) in
      let b2 := st.1.1 in
      Some (if negb (distance - 1 =? 0)
            then store (m_tail_idx b2) (u8 (slot b2 (m_tail_idx b2) + 1))
                   (set_head_idx (m_tail_idx b2) (set_tail_sn sn b2))
            else mark b2 sn,
            if negb (st.2 =? 0)
            then Z.max st.1.2 (s32 (st.2 + (distance - 1)))
            else Z.max st.1.2 (distance - 1))
    else
      let st := spill_loop (Z.to_nat (Z.min (occupancy b) distance)) (b, 0, 0) in
      Some (mark st.1.1 sn,
            if negb (st.2 =? 0)
            then Z.max st.1.2 (s32 (st.2 + 0))
            else Z.max st.1.2 0).
Proof.
  unfold spill. cbv zeta.
  destruct (s32 _ <=? 0); [reflexivity|].
  destruct (s32 _ >=? m_buffer_len b).
  - change (m_buffer_len (set_drops _ b)) with (m_buffer_len b).
    destruct (spill_loop _ _) as [[b2 lb] cb]. reflexivity.
  - destruct (spill_loop _ _) as [[b2 lb] cb]. reflexivity.
Qed.

(** The fields that [mark] changes: one slot and possibly the head. *)
Lemma mark_fields b sn :
  let b' := mark b sn in
  m_buffer_len b' = m_buffer_len b
  ∧ m_tail_idx b' = m_tail_idx b
  ∧ m_tail_sn b' = m_tail_sn b
  ∧ m_drops b' = m_drops b
  ∧ m_dups b' = m_dups b
  ∧ good_departures b' = good_departures b
  ∧ m_largest_received_sn b' = m_largest_received_sn b
  ∧ m_smallest_received_sn b' = m_smallest_received_sn b
  ∧ m_last_spilled_good_sn b' = m_last_spilled_good_sn b
  ∧ m_buffer b'
    = <[Z.to_nat (idx_for b sn) := u8 (slot b (idx_for b sn) + 1)]> (m_buffer b)
  ∧ (m_head_idx b' = m_head_idx b ∨ m_head_idx b' = idx_for b sn).
Proof.
  unfold mark. cbv zeta. destruct (sn >? _); cbn; repeat split; auto.
Qed.

Lemma wf_mark b sn : wf b → wf (mark b sn).
Proof.
  intros [H1 H2 H3 H4].
  destruct (mark_fields b sn) as (F1 & F2 & F3 & _ & _ & _ & _ & _ & _ & F4 & F5).
  pose proof (idx_for_range b sn H1).
  split; rewrite ?F1, ?F2, ?F4, ?length_insert; auto.
  destruct F5 as [-> | ->]; auto.
Qed.

Lemma lowest_possible_sn_le b :
  0 ≤ m_tail_sn b < 2 ^ 64 → lowest_possible_sn b ≤ m_tail_sn b.
Proof.
  intros H. unfold lowest_possible_sn.
  pose proof (Z.mod_pos_bound (m_buffer_len b - occupancy b) (2 ^ 64) ltac:(lia)) as B.
  fold (u64 (m_buffer_len b - occupancy b)) in B.
  destruct (Z.gtb_spec (m_tail_sn b) (u64 (m_buffer_len b - occupancy b))); [|lia].
  rewrite u64_small; lia.
Qed.

Lemma received_fields b sn :
  let b' := received b sn in
  m_buffer b' = m_buffer b
  ∧ m_buffer_len b' = m_buffer_len b
  ∧ m_tail_idx b' = m_tail_idx b
  ∧ m_head_idx b' = m_head_idx b
  ∧ m_tail_sn b' = m_tail_sn b
  ∧ m_drops b' = m_drops b
  ∧ m_dups b' = m_dups b
  ∧ good_departures b' = good_departures b
  ∧ m_largest_received_sn b' = Z.max sn (m_largest_received_sn b)
  ∧ m_smallest_received_sn b' = Z.min sn (m_smallest_received_sn b).
Proof. repeat split. Qed.

(** One arrival keeps the accounting; an arrival at least a whole window
    beyond the highest admissible number becomes the tail. *)
Lemma window_step_reach first b sn :
  accounted first b → 0 ≤ sn < 2 ^ 63 + 2 ^ 31 →
  sn - highest_possible_sn b < 2 ^ 31 →
  ∃ b' r, window_step (received b sn) sn = Some (b', r)
          ∧ accounted first b'
          ∧ (highest_possible_sn b + m_buffer_len b ≤ sn →
             m_tail_sn b' = sn ∧ m_largest_received_sn b' = sn).
Proof.
  intros [[HL Hbuf Hti Hhi] Hf Ht Hlg Hre Hsm [Hd Hg] Hsum] Hsn Hreach.
  pose proof (highest_possible_sn_eq b HL ltac:(lia)) as Hhsn.
  pose proof (lowest_possible_sn_le b ltac:(lia)) as Hlsn.
  unfold window_step.
  change (m_tail_sn (received b sn)) with (m_tail_sn b).
  change (lowest_possible_sn (received b sn)) with (lowest_possible_sn b).
  change (highest_possible_sn (received b sn)) with (highest_possible_sn b).
  change (idx_for (received b sn) sn) with (idx_for b sn).
  change (m_buffer_len (received b sn)) with (m_buffer_len b).
  destruct (Z.eqb_spec (m_tail_sn b) 0) as [E|_]; [lia|].
  destruct (Z.ltb_spec sn (lowest_possible_sn b)) as [Hstale|Hnot].
  { (* stale *)
    eexists _, _. split; [reflexivity|]. split; [|lia].
    split; [split|..]; fields; auto; lia. }
  destruct (Z.leb_spec sn (highest_possible_sn b)) as [Hin|Hbeyond].
  { (* in the window *)
    pose proof (idx_for_range b sn HL) as Hidx.
    destruct (Z.leb_spec 0 (idx_for b sn)); [|lia].
    destruct (Z.ltb_spec (idx_for b sn) (m_buffer_len b)); [|lia].
    cbn [andb]. eexists _, _. split; [reflexivity|]. split; [|lia].
    destruct (mark_fields (received b sn) sn)
      as (F1 & F2 & F3 & F4 & _ & F6 & F7 & F8 & _ & _ & _).
    split; [apply wf_mark; split; auto|..];
      rewrite ?F1, ?F2, ?F3, ?F4, ?F6, ?F7, ?F8; fields; auto; lia. }
  (* beyond the window *)
  rewrite spill_unfold. cbv zeta.
  change (highest_possible_sn (received b sn)) with (highest_possible_sn b).
  change (m_buffer_len (received b sn)) with (m_buffer_len b).
  change (occupancy (received b sn)) with (occupancy b).
  change (m_drops (received b sn)) with (m_drops b).
  assert (Hdist : s32 (u64 (sn - highest_possible_sn b)) = sn - highest_possible_sn b).
  { rewrite u64_small by lia. apply s32_small. lia. }
  rewrite Hdist. set (distance := sn - highest_possible_sn b) in *.
  destruct (Z.leb_spec distance 0) as [|_]; [lia|].
  destruct (Z.geb_spec distance (m_buffer_len b)) as [Hfar|Hnear].
  - (* patch-up *)
    rewrite (u64_small (distance - 1)) by lia.
    rewrite (u64_small (m_drops b + _)) by lia.
    pose proof (spill_loop_account (Z.to_nat (m_buffer_len b))
                  (set_drops (m_drops b + (distance - 1)) (received b sn)) 0 0) as L1.
    rewrite Z2Nat.id in L1 by lia. cbv zeta in L1. fields.
    specialize (L1 ltac:(lia) Hti ltac:(lia) ltac:(lia) ltac:(lia) ltac:(lia)).
    set (st := spill_loop _ _) in *.
    destruct L1 as (I1 & I2 & I3 & I4 & I5 & I6 & I7 & I8 & I9 & I10).
    eexists _, _. split; [reflexivity|].
    destruct (Z.eqb_spec (distance - 1) 0) as [Hone|Hmore]; cbn [negb].
    + (* capacity 1, distance 1: the arrival is marked *)
      destruct (mark_fields st.1.1 sn)
        as (F1 & F2 & F3 & F4 & _ & F6 & F7 & F8 & _ & _ & _).
      split; [split; [apply wf_mark; split; rewrite ?I1, ?I2, ?I5; auto|..]|];
        rewrite ?F1, ?F3, ?F4, ?F6, ?F7, ?F8, ?I1, ?I3, ?I6, ?I7; try lia.
    + split; [split; [split|..]|]; fields;
        rewrite ?length_insert, ?I1, ?I5, ?I6, ?I7; auto; try lia.
  - (* the tail advances, then the arrival is marked *)
    set (n := Z.to_nat (Z.min (occupancy b) distance)).
    assert (Hn : 0 ≤ Z.of_nat n ≤ distance) by lia.
    pose proof (spill_loop_account n (received b sn) 0 0) as L1.
    cbv zeta in L1. fields.
    specialize (L1 ltac:(lia) Hti ltac:(lia) ltac:(lia) ltac:(lia) ltac:(lia)).
    set (st := spill_loop _ _) in *.
    destruct L1 as (I1 & I2 & I3 & I4 & I5 & I6 & I7 & I8 & I9 & I10).
    eexists _, _. split; [reflexivity|].
    destruct (mark_fields st.1.1 sn)
      as (F1 & F2 & F3 & F4 & _ & F6 & F7 & F8 & _ & _ & _).
    split; [split; [apply wf_mark; split; rewrite ?I1, ?I2, ?I5; auto|..]|];
      rewrite ?F1, ?F3, ?F4, ?F6, ?F7, ?F8, ?I1, ?I3, ?I6, ?I7; try lia.
Qed.

Lemma window_step_account first b sn :
  accounted first b → 0 ≤ sn < first + 2 ^ 31 →
  ∃ b' r, window_step (received b sn) sn = Some (b', r)
          ∧ accounted first b'
          ∧ (highest_possible_sn b + m_buffer_len b ≤ sn →
             m_tail_sn b' = sn ∧ m_largest_received_sn b' = sn).
Proof.
  intros A Hsn. pose proof A as [[HL _ _ _] Hf Ht Hlg _ _ _ _].
  pose proof (highest_possible_sn_eq b HL ltac:(lia)) as Hh.
  apply (window_step_reach first b sn A); lia.
Qed.

Lemma accounted_port_map first m b :
  accounted first b → accounted first (set_port_seq_map m b).
Proof.
  intros [[H1 H2 H3 H4] H5 H6 H7 H8 H9 H10 H11]. split; [split|..]; auto.
Qed.

(** A call of the caller, seen from the window. *)
Lemma deliver_window c a :
  match window_step (received (rb c) (a_sn a)) (a_sn a) with
  | Some (b2, r) =>
      ∃ c' m, deliver c a = Some (c', r) ∧ rb c' = set_port_seq_map m b2
  | None => deliver c a = None
  end.
Proof.
  unfold deliver.
  destruct (addPacket_window (rb c) (a_sn a) (a_flow_sn a) (a_port a)
              (Some (var_flow_burst_len c)) (Some (var_flow_burst_count c)))
    as [m Hm].
  destruct (window_step _ _) as [[b2 r]|],
           (addPacket _ _ _ _ _ _) as [[b' r']|];
    cbn in Hm; try discriminate; [|reflexivity].
  injection Hm as -> ->. eexists _, m. split; reflexivity.
Qed.

Lemma run_accounted first evs : ∀ c,
  accounted first (rb c) →
  Forall (λ e, 0 ≤ a_sn e < first + 2 ^ 31) evs →
  ∃ c', run c evs = Some c' ∧ accounted first (rb c').
Proof.
  induction evs as [|a evs IH]; intros c A Hall.
  - exists c. split; [reflexivity|exact A].
  - apply Forall_cons in Hall as [Ha Hall].
    destruct (window_step_account first (rb c) (a_sn a) A Ha)
      as (b2 & r & Hw & A2 & _).
    pose proof (deliver_window c a) as Hd. rewrite Hw in Hd.
    destruct Hd as (c1 & m & Hd & Hrb).
    cbn [run]. rewrite Hd. apply IH; [|exact Hall].
    rewrite Hrb. apply accounted_port_map, A2.
Qed.

Lemma first_arrival_accounted len a :
  0 < len < 2 ^ 31 → 0 < a_sn a < 2 ^ 63 →
  ∃ c, deliver (start len) a = Some (c, 0) ∧ accounted (a_sn a) (rb c).
Proof.
  intros HL Ha.
  pose proof (deliver_window (start len) a) as Hd.
  unfold window_step in Hd.
  change (m_tail_sn (received (rb (start len)) (a_sn a)) =? 0) with true in Hd.
  cbv iota in Hd. destruct Hd as (c & m & Hd & Hrb).
  exists c. split; [exact Hd|]. rewrite Hrb. apply accounted_port_map.
  split; [split|..]; fields; unfold start, new_buffer; cbn [rb]; fields;
    rewrite ?length_insert, ?length_replicate; lia.
Qed.

Lemma in_reach_port_map m sns : ∀ b,
  in_reach (set_port_seq_map m b) sns = in_reach b sns.
Proof.
  induction sns as [|sn sns IH]; intros b; [reflexivity|].
  cbn [in_reach].
  change (m_tail_sn (set_port_seq_map m b)) with (m_tail_sn b).
  change (highest_possible_sn (set_port_seq_map m b))
    with (highest_possible_sn b).
  change (received (set_port_seq_map m b) sn)
    with (set_port_seq_map m (received b sn)).
  rewrite window_step_port_map.
  destruct (window_step (received b sn) sn) as [[b1 r]|]; [|reflexivity].
  cbn [fmap option_fmap option_map fst snd]. rewrite IH. reflexivity.
Qed.

Lemma run_reach first evs : ∀ c,
  accounted first (rb c) →
  Forall (λ e, 0 ≤ a_sn e < 2 ^ 63) evs →
  in_reach (rb c) (a_sn <$> evs) = true →
  ∃ c', run c evs = Some c' ∧ accounted first (rb c').
Proof.
  induction evs as [|a evs IH]; intros c A Hall Hin.
  - exists c. split; [reflexivity|exact A].
  - apply Forall_cons in Hall as [Ha Hall].
    cbn [fmap list_fmap in_reach] in Hin.
    apply andb_true_iff in Hin as [Hr Hin].
    pose proof (acc_first _ _ A) as Hf. pose proof (acc_tail _ _ A) as Ht.
    apply orb_true_iff in Hr as [Hr|Hr]; [apply Z.eqb_eq in Hr; lia|].
    apply Z.ltb_lt in Hr.
    destruct (window_step_reach first (rb c) (a_sn a) A ltac:(lia) Hr)
      as (b2 & r & Hw & A2 & _).
    rewrite Hw in Hin.
    pose proof (deliver_window c a) as Hd. rewrite Hw in Hd.
    destruct Hd as (c1 & m & Hd & Hrb).
    cbn [run]. rewrite Hd. apply IH; [|exact Hall|].
    + rewrite Hrb. apply accounted_port_map, A2.
    + rewrite Hrb, in_reach_port_map. exact Hin.
Qed.

(** C8, as stated, fails.  Capacity 8: after 1 (four times) and 100 the
    sum [drops + dups + good departures] is 102, above
    [largest − smallest + 1 = 101]; after 1 and the drain arrival 100 the
    sum is 99, not 101. *)
Lemma C8_duplicates_break_the_bound :
  (∃ c, run (start 8) (arrivals 0 [1; 1; 1; 1; 100]) = Some c
        ∧ ¬ (drops (rb c) + dups (rb c) + good_departures (rb c)
             ≤ m_largest_received_sn (rb c) - m_smallest_received_sn (rb c) + 1))
  ∧ (∃ c, run (start 8) (arrivals 0 [1; 100]) = Some c
          ∧ highest_possible_sn (rb (start 8)) + 8 ≤ 100
          ∧ drops (rb c) + dups (rb c) + good_departures (rb c)
            ≠ m_largest_received_sn (rb c) - m_smallest_received_sn (rb c) + 1).
Proof.
  split; eexists; (split; [vm_compute; reflexivity|]).
  - vm_compute. intros H. apply H. reflexivity.
  - vm_compute. split; intros; discriminate.
Qed.

(** C8, amended.  For a buffer of capacity below 2^31 and arrivals
    below 2^63, the first of them positive and each later one less than
    2^31 beyond [highest_possible_sn] at the time of its call: the run
    never aborts and at all times
    [drops + good departures = tail_sn − first ≤ largest − first], which
    is below [largest − smallest + 1]; [dups] is not part of the count.
    After a drain arrival, a whole window or more (and less than 2^31)
    beyond the highest admissible number, the count equals
    [largest − first]. *)
Theorem C8_accounting len a evs :
  0 < len < 2 ^ 31 →
  0 < a_sn a < 2 ^ 63 →
  Forall (λ e, 0 ≤ a_sn e < 2 ^ 63) evs →
  in_reach (new_buffer len) (a_sn <$> a :: evs) = true →
  ∃ c, run (start len) (a :: evs) = Some c
       ∧ drops (rb c) + good_departures (rb c) = m_tail_sn (rb c) - a_sn a
       ∧ m_tail_sn (rb c) ≤ m_largest_received_sn (rb c)
       ∧ drops (rb c) + good_departures (rb c)
         ≤ m_largest_received_sn (rb c) - m_smallest_received_sn (rb c) + 1
       ∧ ∀ d, 0 ≤ a_sn d < 2 ^ 63 →
              highest_possible_sn (rb c) + m_buffer_len (rb c) ≤ a_sn d →
              a_sn d - highest_possible_sn (rb c) < 2 ^ 31 →
              ∃ c' r, deliver c d = Some (c', r)
                      ∧ m_largest_received_sn (rb c') = a_sn d
                      ∧ drops (rb c') + good_departures (rb c')
                        = m_largest_received_sn (rb c') - a_sn a.
Proof.
  intros HL Ha Hall Hin.
  destruct (first_arrival_accounted len a HL Ha) as (c1 & Hd1 & A1).
  cbn [fmap list_fmap in_reach] in Hin.
  apply andb_true_iff in Hin as [_ Hin].
  pose proof (deliver_window (start len) a) as Hdw.
  destruct (window_step (received (new_buffer len) (a_sn a)) (a_sn a))
    as [[b1 r1]|] eqn:Hw1.
  2:{ change (rb (start len)) with (new_buffer len) in Hdw.
      rewrite Hw1 in Hdw. congruence. }
  change (rb (start len)) with (new_buffer len) in Hdw. rewrite Hw1 in Hdw.
  destruct Hdw as (c1' & m & Hd1' & Hrb1). rewrite Hd1 in Hd1'.
  injection Hd1' as <- _.
  assert (Hin1 : in_reach (rb c1) (a_sn <$> evs) = true)
    by (rewrite Hrb1, in_reach_port_map; exact Hin).
  destruct (run_reach (a_sn a) evs c1 A1 Hall Hin1) as (c & Hrun & A).
  exists c. cbn [run]. rewrite Hd1. split; [exact Hrun|].
  pose proof A as [Hwf Hf Ht Hlg Hre Hsm [Hd Hg] Hsum].
  unfold drops. repeat split; try lia.
  intros d Hdsn Hdrain Hreach.
  destruct (window_step_reach (a_sn a) (rb c) (a_sn d) A ltac:(lia) Hreach)
    as (b2 & r & Hw & A2 & Hfar).
  specialize (Hfar Hdrain) as [Htl Hlar].
  pose proof (deliver_window c d) as Hdl. rewrite Hw in Hdl.
  destruct Hdl as (c' & m' & Hdl & Hrb).
  exists c', r. split; [exact Hdl|]. rewrite Hrb.
  destruct A2 as [_ _ _ _ _ _ _ Hsum2]. fields. split; [exact Hlar|]. lia.
Qed.

Lemma C8_accounting_witness :
  ∃ c, run (start 8)
         (mkArrival 1 1 0
          :: arrivals 0 [2 ^ 31 - 10; 2 ^ 31 + 100; 2 ^ 31 + 101; 2 ^ 31 + 300])
       = Some c
       ∧ drops (rb c) + good_departures (rb c) = m_tail_sn (rb c) - 1
       ∧ m_tail_sn (rb c) ≤ m_largest_received_sn (rb c)
       ∧ drops (rb c) + good_departures (rb c)
         ≤ m_largest_received_sn (rb c) - m_smallest_received_sn (rb c) + 1
       ∧ ∀ d, 0 ≤ a_sn d < 2 ^ 63 →
              highest_possible_sn (rb c) + m_buffer_len (rb c) ≤ a_sn d →
              a_sn d - highest_possible_sn (rb c) < 2 ^ 31 →
              ∃ c' r, deliver c d = Some (c', r)
                      ∧ m_largest_received_sn (rb c') = a_sn d
                      ∧ drops (rb c') + good_departures (rb c')
                        = m_largest_received_sn (rb c') - 1.
Proof.
  apply (C8_accounting 8 (mkArrival 1 1 0)
           (arrivals 0 [2 ^ 31 - 10; 2 ^ 31 + 100; 2 ^ 31 + 101; 2 ^ 31 + 300])).
  - lia.
  - cbn. lia.
  - repeat constructor; cbn; lia.
  - vm_compute. reflexivity.
Defined.

(** * The extremes of the received numbers *)

(** The extremes after any run: the maximum and the minimum of the
    offered numbers and of the initial value 0 of both members. *)
Lemma spill_loop_received n : ∀ b lb cb,
  m_smallest_received_sn (spill_loop n (b, lb, cb)).1.1 = m_smallest_received_sn b
  ∧ m_largest_received_sn (spill_loop n (b, lb, cb)).1.1 = m_largest_received_sn b.
Proof.
  induction n as [|n IH]; intros b lb cb; [split; reflexivity|].
  cbn [spill_loop].
  destruct (spill_step_fields b lb cb) as (_ & _ & _ & _ & _ & F6 & F7 & _).
  destruct (spill_step (b, lb, cb)) as [[b1 lb1] cb1]. cbn [fst] in *.
  destruct (IH b1 lb1 cb1) as [-> ->]. auto.
Qed.

Lemma window_step_received b sn b1 r :
  window_step b sn = Some (b1, r) →
  m_smallest_received_sn b1 = m_smallest_received_sn b
  ∧ m_largest_received_sn b1 = m_largest_received_sn b.
Proof.
  unfold window_step.
  destruct (m_tail_sn b =? 0); [intros [= <- _]; split; reflexivity|].
  destruct (sn <? _); [intros [= <- _]; split; reflexivity|].
  destruct (sn <=? _).
  { destruct (_ && _); [|discriminate]. intros [= <- _].
    destruct (mark_fields b sn) as (_ & _ & _ & _ & _ & _ & F7 & F8 & _). auto. }
  rewrite spill_unfold. cbv zeta.
  destruct (_ <=? 0); [discriminate|].
  destruct (_ >=? m_buffer_len b).
  - destruct (spill_loop_received (Z.to_nat (m_buffer_len b))
                (set_drops (u64 (m_drops b
                    + u64 (s32 (u64 (sn - highest_possible_sn b)) - 1))) b) 0 0)
      as [E1 E2].
    destruct (negb _); intros [= <- _].
    + split; [exact E1|exact E2].
    + destruct (mark_fields (spill_loop (Z.to_nat (m_buffer_len b))
                  (set_drops (u64 (m_drops b
                      + u64 (s32 (u64 (sn - highest_possible_sn b)) - 1))) b, 0, 0)).1.1 sn)
        as (_ & _ & _ & _ & _ & _ & F7 & F8 & _).
      rewrite F7, F8. split; [exact E1|exact E2].
  - intros [= <- _].
    destruct (spill_loop_received
                (Z.to_nat (Z.min (occupancy b) (s32 (u64 (sn - highest_possible_sn b)))))
                b 0 0) as [E1 E2].
    destruct (mark_fields (spill_loop
                (Z.to_nat (Z.min (occupancy b) (s32 (u64 (sn - highest_possible_sn b)))))
                (b, 0, 0)).1.1 sn)
      as (_ & _ & _ & _ & _ & _ & F7 & F8 & _).
    rewrite F7, F8. split; [exact E1|exact E2].
Qed.

Lemma run_received_extremes evs : ∀ c c',
  run c evs = Some c' →
  m_smallest_received_sn (rb c')
  = foldl Z.min (m_smallest_received_sn (rb c)) (a_sn <$> evs)
  ∧ m_largest_received_sn (rb c')
    = foldl Z.max (m_largest_received_sn (rb c)) (a_sn <$> evs).
Proof.
  induction evs as [|a evs IH]; intros c c' Hrun.
  - injection Hrun as <-. split; reflexivity.
  - cbn [run] in Hrun. pose proof (deliver_window c a) as Hd.
    destruct (window_step (received (rb c) (a_sn a)) (a_sn a)) as [[b2 r]|] eqn:Hw.
    + destruct Hd as (c1 & m & Hd & Hrb). rewrite Hd in Hrun.
      destruct (IH c1 c' Hrun) as [-> ->]. rewrite Hrb.
      destruct (window_step_received _ _ _ _ Hw) as [E1 E2].
      cbn [fmap list_fmap foldl]. fields. rewrite E1, E2. fields.
      rewrite (Z.min_comm (a_sn a)), (Z.max_comm (a_sn a)). split; reflexivity.
    + rewrite Hd in Hrun. discriminate.
Qed.

(** On a fresh buffer the smallest received number is 0 after every run
    of non-negative numbers. *)
Lemma smallest_received_sn_zero len evs c :
  Forall (λ a, 0 ≤ a_sn a) evs →
  run (start len) evs = Some c →
  m_smallest_received_sn (rb c) = 0.
Proof.
  intros Hall Hrun. destruct (run_received_extremes evs _ _ Hrun) as [-> _].
  change (m_smallest_received_sn (rb (start len))) with 0. clear Hrun.
  induction Hall as [|a l Ha _ IH]; [reflexivity|].
  cbn [fmap list_fmap foldl]. rewrite Z.min_l by lia. exact IH.
Qed.

(** * Extra copies of a delivered packet *)

Lemma slot_store_eq b i v :
  0 ≤ i < m_buffer_len b →
  length (m_buffer b) = Z.to_nat (m_buffer_len b) →
  slot (store i v b) i = v.
Proof.
  intros Hi Hlen. unfold slot, store. cbn.
  apply list_lookup_total_insert_eq. lia.
Qed.

Lemma slot_store_ne b i j v :
  0 ≤ i → 0 ≤ j → i ≠ j → slot (store i v b) j = slot b j.
Proof.
  intros Hi Hj Hne. unfold slot, store. cbn.
  apply list_lookup_total_insert_ne. lia.
Qed.

Lemma store_store_eq b i v w : store i v (store i w b) = store i v b.
Proof. unfold store. cbn. now rewrite list_insert_insert_eq. Qed.

Lemma store_store_ne b i j v w :
  0 ≤ i → 0 ≤ j → i ≠ j →
  store i v (store j w b) = store j w (store i v b).
Proof.
  intros Hi Hj Hne. unfold store. cbn.
  rewrite list_insert_insert_ne by lia. reflexivity.
Qed.

Lemma u64_add_l x y : u64 (u64 x + y) = u64 (x + y).
Proof. unfold u64. apply Zplus_mod_idemp_l. Qed.

Lemma u8_small x : 0 ≤ x < 2 ^ 8 → u8 x = x.
Proof. intros H. unfold u8. apply Z.mod_small. lia. Qed.

Lemma mod_dist L i t :
  0 ≤ i < L → 0 ≤ t < L →
  (i - t) mod L = if i <? t then i - t + L else i - t.
Proof.
  intros Hi Ht. destruct (Z.ltb_spec i t); symmetry.
  - apply Z.mod_unique with (q := -1); lia.
  - apply Z.mod_unique with (q := 0); lia.
Qed.

Lemma rem_succ L t :
  0 ≤ t < L → Z.rem (t + 1) L = if t + 1 =? L then 0 else t + 1.
Proof.
  intros Ht. destruct (Z.eqb_spec (t + 1) L) as [->|Hne].
  - apply Z.rem_same. lia.
  - apply Z.rem_small. lia.
Qed.

Lemma wf_spill_step b lb cb : wf b → wf (spill_step (b, lb, cb)).1.1.
Proof.
  intros [HL Hbuf Hti Hhi].
  destruct (spill_step_fields b lb cb) as (F1 & F2 & _ & F4 & F5 & _).
  split; rewrite ?F1, ?F2, ?F4, ?F5, ?length_insert; auto.
  rewrite (rem_succ _ _ Hti). destruct (Z.eqb_spec (m_tail_idx b + 1) (m_buffer_len b)); lia.
Qed.

(** ** [mark] on buffers that differ in one slot or in [dups] *)

Lemma slot_mark_eq b sn :
  wf b → slot (mark b sn) (idx_for b sn) = u8 (slot b (idx_for b sn) + 1).
Proof.
  intros Hwf. pose proof (idx_for_range b sn (wf_len b Hwf)) as Hidx.
  destruct (mark_fields b sn) as (_ & _ & _ & _ & _ & _ & _ & _ & _ & F & _).
  unfold slot at 1. rewrite F. apply list_lookup_total_insert_eq.
  rewrite (wf_buffer b Hwf). lia.
Qed.

Lemma slot_mark_ne b sn j :
  0 ≤ j → 0 ≤ idx_for b sn → j ≠ idx_for b sn → slot (mark b sn) j = slot b j.
Proof.
  intros Hj Hidx Hne.
  destruct (mark_fields b sn) as (_ & _ & _ & _ & _ & _ & _ & _ & _ & F & _).
  unfold slot. rewrite F. apply list_lookup_total_insert_ne. lia.
Qed.

Lemma mark_store_eq b sn v :
  wf b → mark (store (idx_for b sn) v b) sn
         = store (idx_for b sn) (u8 (v + 1)) (mark b sn).
Proof.
  intros Hwf. pose proof (idx_for_range b sn (wf_len b Hwf)) as Hidx.
  unfold mark. cbv zeta.
  change (idx_for (store _ v b) sn) with (idx_for b sn).
  change (occupancy (store _ v b)) with (occupancy b).
  change (m_tail_sn (store _ v b)) with (m_tail_sn b).
  rewrite slot_store_eq by (auto using wf_buffer). rewrite store_store_eq.
  destruct (sn >? _).
  - change (store ?a ?x (set_head_idx ?h ?c)) with (set_head_idx h (store a x c)).
    now rewrite store_store_eq.
  - now rewrite store_store_eq.
Qed.

Lemma mark_store_ne b sn j v :
  0 ≤ j → 0 ≤ idx_for b sn → j ≠ idx_for b sn →
  mark (store j v b) sn = store j v (mark b sn).
Proof.
  intros Hj Hidx Hne. unfold mark. cbv zeta.
  change (idx_for (store _ v b) sn) with (idx_for b sn).
  change (occupancy (store _ v b)) with (occupancy b).
  change (m_tail_sn (store _ v b)) with (m_tail_sn b).
  rewrite slot_store_ne by lia.
  rewrite (store_store_ne b (idx_for b sn) j) by lia.
  destruct (sn >? _); reflexivity.
Qed.

Lemma mark_set_dups b sn d : mark (set_dups d b) sn = set_dups d (mark b sn).
Proof.
  unfold mark. cbv zeta.
  change (idx_for (set_dups d b) sn) with (idx_for b sn).
  change (occupancy (set_dups d b)) with (occupancy b).
  change (m_tail_sn (set_dups d b)) with (m_tail_sn b).
  change (slot (set_dups d b)) with (slot b).
  destruct (sn >? _); reflexivity.
Qed.

Lemma mark_dups b sn : m_dups (mark b sn) = m_dups b.
Proof. apply mark_fields. Qed.

(** ** The tail after the loop *)

Lemma spill_loop_shape n : ∀ b lb cb,
  wf b → 0 ≤ m_tail_sn b → m_tail_sn b + Z.of_nat n < 2 ^ 64 →
  let b' := (spill_loop n (b, lb, cb)).1.1 in
  wf b'
  ∧ m_buffer_len b' = m_buffer_len b
  ∧ m_head_idx b' = m_head_idx b
  ∧ m_tail_sn b' = m_tail_sn b + Z.of_nat n
  ∧ m_tail_idx b' = (m_tail_idx b + Z.of_nat n) mod m_buffer_len b.
Proof.
  induction n as [|n IH]; intros b lb cb Hwf Hts Htn; cbv zeta.
  - cbn [spill_loop fst]. change (Z.of_nat 0) with 0.
    rewrite !Z.add_0_r, Z.mod_small by apply (wf_tail b Hwf).
    repeat split; auto; apply Hwf.
  - rewrite spill_loop_S.
    pose proof (wf_spill_step b lb cb Hwf) as Hwf1.
    pose proof (wf_tail b Hwf) as Hti. pose proof (wf_len b Hwf) as HL.
    destruct (spill_step_fields b lb cb) as (F1 & F2 & F3 & F4 & _).
    destruct (spill_step (b, lb, cb)) as [[b1 lb1] cb1]. cbn [fst] in *.
    rewrite u64_small in F3 by lia.
    destruct (IH b1 lb1 cb1 Hwf1 ltac:(lia) ltac:(lia)) as (I1 & I2 & I3 & I4 & I5).
    split; [exact I1|].
    rewrite I2, I3, I4, I5, F1, F2, F3, F4.
    split; [reflexivity|]. split; [reflexivity|]. split; [lia|].
    rewrite Z.rem_mod_nonneg by lia. rewrite Zplus_mod_idemp_l. f_equal. lia.
Qed.

Lemma idx_for_eq b sn :
  wf b → 0 ≤ m_tail_sn b ≤ sn → sn < 2 ^ 63 →
  idx_for b sn = (m_tail_idx b + (sn - m_tail_sn b)) mod m_buffer_len b.
Proof.
  intros Hwf Hts Hsn.
  pose proof (wf_tail b Hwf) as Hti. pose proof (wf_len b Hwf) as HL.
  unfold idx_for.
  rewrite (u64_small (m_buffer_len b)), (u64_small (m_tail_idx b)),
    (u64_small (sn - m_tail_sn b)), (u64_small (_ + _)) by lia.
  apply s32_small.
  pose proof (Z.mod_pos_bound (m_tail_idx b + (sn - m_tail_sn b))
                (m_buffer_len b) ltac:(lia)). lia.
Qed.

(** The loop does not change the slot that a number at or above the new
    tail maps to. *)
Lemma idx_for_spill_loop n b lb cb sn :
  wf b → 0 ≤ m_tail_sn b → m_tail_sn b + Z.of_nat n ≤ sn → sn < 2 ^ 63 →
  idx_for (spill_loop n (b, lb, cb)).1.1 sn = idx_for b sn.
Proof.
  intros Hwf Hts Hn Hsn.
  destruct (spill_loop_shape n b lb cb Hwf Hts ltac:(lia))
    as (Hwf2 & I2 & I3 & I4 & I5).
  rewrite !idx_for_eq by (auto; lia).
  rewrite I2, I4, I5, Zplus_mod_idemp_l. f_equal. lia.
Qed.

(** ** Well-formedness along a run of the window *)

Lemma window_step_wf b sn b1 r :
  wf b → 0 < m_tail_sn b < 2 ^ 63 → 0 ≤ sn < 2 ^ 63 →
  window_step b sn = Some (b1, r) →
  wf b1 ∧ 0 < m_tail_sn b1 < 2 ^ 63 ∧ m_buffer_len b1 = m_buffer_len b.
Proof.
  intros Hwf Hts Hsn.
  pose proof (wf_len b Hwf) as HL.
  pose proof (highest_possible_sn_eq b HL ltac:(lia)) as Hhsn.
  unfold window_step.
  destruct (Z.eqb_spec (m_tail_sn b) 0) as [|_]; [lia|].
  destruct (sn <? _); [intros [= <- _]; auto|].
  destruct (Z.leb_spec sn (highest_possible_sn b)) as [Hin|Hbeyond].
  { destruct (_ && _); [|discriminate]. intros [= <- _].
    destruct (mark_fields b sn) as (F1 & _ & F3 & _).
    rewrite F1, F3. auto using wf_mark. }
  rewrite spill_unfold. cbv zeta.
  pose proof (s32_le (u64 (sn - highest_possible_sn b))) as Hle.
  rewrite (u64_small (sn - _)) in Hle by lia. specialize (Hle ltac:(lia)).
  set (distance := s32 (u64 (sn - highest_possible_sn b))) in *.
  destruct (Z.leb_spec distance 0) as [|Hpos]; [discriminate|].
  destruct (Z.geb_spec distance (m_buffer_len b)) as [Hfar|Hnear].
  - set (b0 := set_drops _ b).
    assert (Hwf0 : wf b0) by (destruct Hwf; split; auto).
    destruct (spill_loop_shape (Z.to_nat (m_buffer_len b)) b0 0 0 Hwf0)
      as (Hwf2 & I2 & I3 & I4 & I5).
    { change (m_tail_sn b0) with (m_tail_sn b). lia. }
    { change (m_tail_sn b0) with (m_tail_sn b). lia. }
    set (st := spill_loop _ (b0, 0, 0)) in *.
    change (m_buffer_len b0) with (m_buffer_len b) in *.
    change (m_tail_sn b0) with (m_tail_sn b) in *.
    destruct (Z.eqb_spec (distance - 1) 0) as [Hone|Hmore]; cbn [negb];
      intros [= <- _].
    + destruct (mark_fields st.1.1 sn) as (F1 & _ & F3 & _).
      rewrite F1, F3, I2, I4. split; [now apply wf_mark|]. lia.
    + destruct Hwf2 as [W1 W2 W3 W4].
      split; [split|]; fields; rewrite ?length_insert; auto; lia.
  - set (n := Z.to_nat (Z.min (occupancy b) distance)).
    destruct (spill_loop_shape n b 0 0 Hwf ltac:(lia) ltac:(lia))
      as (Hwf2 & I2 & I3 & I4 & I5).
    set (st := spill_loop _ (b, 0, 0)) in *. intros [= <- _].
    destruct (mark_fields st.1.1 sn) as (F1 & _ & F3 & _).
    rewrite F1, F3, I2, I4. split; [now apply wf_mark|]. lia.
Qed.

(** ** Runs of the window *)

Lemma same_window_sym b1 b2 : same_window b1 b2 → same_window b2 b1.
Proof. unfold same_window. congruence. Qed.

Lemma same_window_trans b1 b2 b3 :
  same_window b1 b2 → same_window b2 b3 → same_window b1 b3.
Proof. unfold same_window. congruence. Qed.

Lemma same_window_fields b1 b2 :
  same_window b1 b2 →
  m_buffer b1 = m_buffer b2 ∧ m_buffer_len b1 = m_buffer_len b2
  ∧ m_tail_idx b1 = m_tail_idx b2 ∧ m_drops b1 = m_drops b2
  ∧ m_dups b1 = m_dups b2.
Proof.
  unfold same_window. destruct b1, b2; cbn. intros [=]; subst. repeat split.
Qed.

Lemma same_window_step_cases b1 b2 sn :
  same_window b1 b2 →
  match window_step b1 sn, window_step b2 sn with
  | Some (b1', r1), Some (b2', r2) => r1 = r2 ∧ same_window b1' b2'
  | None, None => True
  | _, _ => False
  end.
Proof.
  intros H. pose proof (same_window_step b1 b2 sn H) as E.
  destruct (window_step b1 sn) as [[b1' r1]|],
           (window_step b2 sn) as [[b2' r2]|];
    cbn [fmap option_fmap option_map fst snd] in E; try discriminate; auto.
  split; [congruence|]. unfold same_window, erase in *. congruence.
Qed.

(** A run of the caller and the run of a buffer with the same window. *)
Lemma run_window_run evs : ∀ c b,
  same_window (rb c) b →
  match window_run b (a_sn <$> evs) with
  | Some b1 => ∃ c1, run c evs = Some c1 ∧ same_window (rb c1) b1
  | None => run c evs = None
  end.
Proof.
  induction evs as [|a evs IH]; intros c b H.
  - cbn. eauto.
  - cbn [fmap list_fmap window_run run].
    pose proof (deliver_window c a) as Hd.
    pose proof (same_window_step_cases _ _ (a_sn a)
                  (same_window_received _ _ (a_sn a) H)) as Hs.
    destruct (window_step (received (rb c) (a_sn a)) (a_sn a)) as [[b1 r1]|],
             (window_step (received b (a_sn a)) (a_sn a)) as [[b2 r2]|];
      try contradiction.
    + destruct Hd as (c1 & m & -> & Hrb). destruct Hs as [_ Hs].
      apply IH. rewrite Hrb. exact Hs.
    + now rewrite Hd.
Qed.

Lemma fits_same_window sns : ∀ b1 b2,
  same_window b1 b2 → fits b1 sns = fits b2 sns.
Proof.
  induction sns as [|sn sns IH]; intros b1 b2 H; [reflexivity|].
  cbn [fits].
  pose proof (same_window_step_cases _ _ sn (same_window_received _ _ sn H)) as Hs.
  destruct (same_window_fields _ _ H) as (F1 & _).
  assert (E : slot b1 (idx_for b1 sn) = slot b2 (idx_for b2 sn)).
  { unfold same_window in H. destruct b1, b2; cbn in *.
    injection H; intros; subst. reflexivity. }
  rewrite E. f_equal.
  destruct (window_step (received b1 sn) sn) as [[b1' r1]|],
           (window_step (received b2 sn) sn) as [[b2' r2]|];
    try contradiction; [|reflexivity].
  apply IH, Hs.
Qed.
Section ExtraCopies.

(** The slot that received the extra copies and their number. *)
Variables i k : Z.
Hypothesis Hk : 0 ≤ k.

(** One iteration of the loop on a buffer that differs in a slot other
    than the tail. *)
Lemma spill_step_store_ne b v lb cb :
  0 ≤ i → 0 ≤ m_tail_idx b → m_tail_idx b ≠ i →
  spill_step (store i v b, lb, cb)
  = let st := spill_step (b, lb, cb) in (store i v st.1.1, st.1.2, st.2).
Proof.
  intros Hi Hti Hne. cbv zeta. unfold spill_step.
  change (m_tail_idx (store i v b)) with (m_tail_idx b).
  rewrite slot_store_ne by lia.
  rewrite (store_store_ne b) by lia.
  destruct (slot b (m_tail_idx b) =? 0); reflexivity.
Qed.

Lemma spill_step_slot_ne b lb cb :
  0 ≤ i → 0 ≤ m_tail_idx b → m_tail_idx b ≠ i →
  slot (spill_step (b, lb, cb)).1.1 i = slot b i.
Proof.
  intros Hi Hti Hne.
  destruct (spill_step_fields b lb cb) as (_ & _ & _ & _ & F & _).
  unfold slot. rewrite F. apply list_lookup_total_insert_ne. lia.
Qed.

(** One iteration of the loop when the tail is the slot with the extra
    copies. *)
Lemma spill_step_store_eq b lb cb :
  wf b → m_tail_idx b = i →
  1 ≤ slot b i → slot b i + k ≤ 255 →
  spill_step (store i (slot b i + k) b, lb, cb)
  = let st := spill_step (b, lb, cb) in
    (set_dups (u64 (m_dups st.1.1 + k)) st.1.1, st.1.2, st.2).
Proof.
  intros [HL Hbuf Hti Hhi] <- Hx Hxk. cbv zeta. unfold spill_step.
  change (m_tail_idx (store _ _ b)) with (m_tail_idx b).
  rewrite slot_store_eq by assumption. rewrite store_store_eq.
  destruct (Z.eqb_spec (slot b (m_tail_idx b) + k) 0) as [|_]; [lia|].
  destruct (Z.eqb_spec (slot b (m_tail_idx b)) 0) as [|_]; [lia|].
  cbn [negb fst snd].
  rewrite (u64_small (slot b (m_tail_idx b) + k - 1)) by lia.
  rewrite (u64_small (slot b (m_tail_idx b) - 1)) by lia.
  change (m_dups (store ?a ?c b)) with (m_dups b).
  replace (u64 (m_dups b + (slot b (m_tail_idx b) + k - 1)))
    with (u64 (u64 (m_dups b + (slot b (m_tail_idx b) - 1)) + k))
    by (rewrite u64_add_l; f_equal; lia).
  reflexivity.
Qed.

(** One iteration of the loop once the slot has left. *)
Lemma spill_step_left b lb cb :
  spill_step (set_dups (u64 (m_dups b + k)) b, lb, cb)
  = let st := spill_step (b, lb, cb) in
    (set_dups (u64 (m_dups st.1.1 + k)) st.1.1, st.1.2, st.2).
Proof.
  cbv zeta. unfold spill_step.
  change (slot (set_dups _ b)) with (slot b).
  change (m_tail_idx (set_dups _ b)) with (m_tail_idx b).
  destruct (slot b (m_tail_idx b) =? 0); cbn [negb fst snd]; [reflexivity|].
  change (m_dups (store ?a ?c (set_dups ?d b))) with d.
  change (m_dups (store ?a ?c b)) with (m_dups b).
  replace (u64 (u64 (m_dups b + k) + u64 (slot b (m_tail_idx b) - 1)))
    with (u64 (u64 (m_dups b + u64 (slot b (m_tail_idx b) - 1)) + k))
    by (rewrite !u64_add_l; f_equal; lia).
  reflexivity.
Qed.

Lemma spill_loop_left n : ∀ b lb cb,
  spill_loop n (set_dups (u64 (m_dups b + k)) b, lb, cb)
  = let st := spill_loop n (b, lb, cb) in
    (set_dups (u64 (m_dups st.1.1 + k)) st.1.1, st.1.2, st.2).
Proof.
  induction n as [|n IH]; intros b lb cb; [reflexivity|].
  rewrite !spill_loop_S, spill_step_left. cbv zeta.
  destruct (spill_step (b, lb, cb)) as [[b1 lb1] cb1]. apply IH.
Qed.

(** Until the tail reaches the slot the two loops differ in that slot
    only; from then on they differ in [dups], by [k]. *)
Lemma spill_loop_pending n : ∀ b lb cb,
  wf b → 0 ≤ i < m_buffer_len b →
  1 ≤ slot b i → slot b i + k ≤ 255 →
  let st := spill_loop n (b, lb, cb) in
  let st' := spill_loop n (store i (slot b i + k) b, lb, cb) in
  st'.1.2 = st.1.2 ∧ st'.2 = st.2
  ∧ ((Z.of_nat n ≤ (i - m_tail_idx b) mod m_buffer_len b
      ∧ slot st.1.1 i = slot b i
      ∧ st'.1.1 = store i (slot b i + k) st.1.1)
     ∨ ((i - m_tail_idx b) mod m_buffer_len b < Z.of_nat n
        ∧ st'.1.1 = set_dups (u64 (m_dups st.1.1 + k)) st.1.1)).
Proof.
  induction n as [|n IH]; intros b lb cb Hwf Hi Hx Hxk; cbv zeta.
  - cbn [spill_loop fst snd]. repeat split. left.
    pose proof (Z.mod_pos_bound (i - m_tail_idx b) (m_buffer_len b) ltac:(lia)).
    repeat split; lia.
  - rewrite !spill_loop_S.
    pose proof (wf_tail b Hwf) as Hti. pose proof (wf_len b Hwf) as HL.
    pose proof (mod_dist (m_buffer_len b) i (m_tail_idx b) Hi Hti) as Hd.
    destruct (decide (m_tail_idx b = i)) as [E|Hne].
    + rewrite (spill_step_store_eq b lb cb Hwf E Hx Hxk). cbv zeta.
      destruct (spill_step (b, lb, cb)) as [[b1 lb1] cb1]. cbn [fst snd].
      rewrite spill_loop_left. cbv zeta. cbn [fst snd]. repeat split.
      right. split; [|reflexivity].
      rewrite E, Z.sub_diag, Z.mod_0_l; lia.
    + rewrite (spill_step_store_ne b _ lb cb) by lia. cbv zeta.
      pose proof (spill_step_slot_ne b lb cb ltac:(lia) ltac:(lia) Hne) as Hs.
      pose proof (wf_spill_step b lb cb Hwf) as Hwf1.
      destruct (spill_step_fields b lb cb) as (F1 & _ & _ & F4 & _).
      destruct (spill_step (b, lb, cb)) as [[b1 lb1] cb1]. cbn [fst snd] in *.
      rewrite <- Hs in Hx, Hxk |- *.
      specialize (IH b1 lb1 cb1 Hwf1 ltac:(lia) Hx Hxk). cbv zeta in IH.
      destruct IH as (I1 & I2 & I3). split; [exact I1|]. split; [exact I2|].
      rewrite F1, F4 in I3. rewrite (rem_succ _ _ Hti) in I3.
      assert (Hd1 : (i - (if m_tail_idx b + 1 =? m_buffer_len b then 0
                          else m_tail_idx b + 1)) mod m_buffer_len b
                    = (i - m_tail_idx b) mod m_buffer_len b - 1).
      { rewrite Hd. destruct (Z.eqb_spec (m_tail_idx b + 1) (m_buffer_len b)).
        - rewrite Z.sub_0_r, Z.mod_small by lia.
          destruct (Z.ltb_spec i (m_tail_idx b)); lia.
        - rewrite mod_dist by lia.
          destruct (Z.ltb_spec i (m_tail_idx b)),
                   (Z.ltb_spec i (m_tail_idx b + 1)); lia. }
      rewrite Hd1 in I3.
      destruct I3 as [(J1 & J2 & J3)|(J1 & J2)]; [left|right];
        repeat split; try lia; assumption.
Qed.

(** ** One arrival *)

Lemma window_step_left b sn :
  window_step (set_dups (u64 (m_dups b + k)) b) sn
  = (λ x, (set_dups (u64 (m_dups x.1 + k)) x.1, x.2)) <$> window_step b sn.
Proof.
  unfold window_step.
  change (m_tail_sn (set_dups _ b)) with (m_tail_sn b).
  change (lowest_possible_sn (set_dups _ b)) with (lowest_possible_sn b).
  change (highest_possible_sn (set_dups _ b)) with (highest_possible_sn b).
  change (idx_for (set_dups _ b) sn) with (idx_for b sn).
  change (m_buffer_len (set_dups _ b)) with (m_buffer_len b).
  destruct (m_tail_sn b =? 0); [reflexivity|].
  destruct (sn <? _); [reflexivity|].
  destruct (sn <=? _).
  { destruct (_ && _); [|reflexivity].
    cbn [fmap option_fmap option_map fst snd].
    rewrite mark_set_dups, mark_dups. reflexivity. }
  rewrite !spill_unfold. cbv zeta.
  change (highest_possible_sn (set_dups _ b)) with (highest_possible_sn b).
  change (m_buffer_len (set_dups _ b)) with (m_buffer_len b).
  change (occupancy (set_dups _ b)) with (occupancy b).
  change (m_drops (set_dups _ b)) with (m_drops b).
  destruct (s32 _ <=? 0); [reflexivity|].
  destruct (s32 _ >=? m_buffer_len b).
  - change (set_drops ?d (set_dups ?e b)) with (set_dups e (set_drops d b)).
    change (u64 (m_dups b + k))
      with (u64 (m_dups (set_drops
                           (u64 (m_drops b
                                 + u64 (s32 (u64 (sn - highest_possible_sn b)) - 1)))
                           b) + k)).
    rewrite spill_loop_left. cbv zeta.
    destruct (spill_loop _ _) as [[b2 lb] cb]. cbn [fst snd].
    destruct (negb (_ - 1 =? 0)); cbn [fmap option_fmap option_map fst snd].
    + reflexivity.
    + rewrite mark_set_dups, mark_dups. reflexivity.
  - rewrite spill_loop_left. cbv zeta.
    destruct (spill_loop _ _) as [[b2 lb] cb].
    cbn [fmap option_fmap option_map fst snd].
    rewrite mark_set_dups, mark_dups. reflexivity.
Qed.

Lemma extra_pending_at b v :
  1 ≤ slot b i → slot b i + k ≤ 255 → v = slot b i + k →
  extra i k b (store i v b).
Proof. intros H1 H2 ->. now apply extra_pending. Qed.

(** [mark] keeps the relation, provided the counter of the slot does not
    wrap in the run with the extra copies. *)
Lemma mark_pending b sn :
  wf b → 0 ≤ i < m_buffer_len b →
  1 ≤ slot b i → slot b i + k ≤ 255 →
  (idx_for b sn = i → slot b i + k < 255) →
  extra i k (mark b sn) (mark (store i (slot b i + k) b) sn).
Proof.
  intros Hwf Hi Hx Hxk Hfit.
  pose proof (idx_for_range b sn (wf_len b Hwf)) as Hidx.
  destruct (decide (idx_for b sn = i)) as [E|Hne].
  - specialize (Hfit E). pose proof (slot_mark_eq b sn Hwf) as Hs.
    rewrite E in Hs. rewrite u8_small in Hs by lia.
    replace (store i (slot b i + k) b) with (store (idx_for b sn) (slot b i + k) b)
      by now rewrite E.
    rewrite mark_store_eq by assumption. rewrite E.
    apply extra_pending_at; rewrite ?Hs; try lia.
    rewrite u8_small; lia.
  - rewrite mark_store_ne by (try lia; congruence).
    pose proof (slot_mark_ne b sn i ltac:(lia) ltac:(lia) ltac:(congruence)) as Hs.
    apply extra_pending_at; rewrite ?Hs; lia.
Qed.

Lemma window_step_pending b sn :
  wf b → 0 ≤ i < m_buffer_len b →
  0 < m_tail_sn b < 2 ^ 63 → 0 ≤ sn < 2 ^ 63 →
  1 ≤ slot b i → slot b i + k ≤ 255 →
  (idx_for b sn = i → slot b i + k < 255) →
  match window_step b sn, window_step (store i (slot b i + k) b) sn with
  | Some (b1, r), Some (b1', r') => r' = r ∧ extra i k b1 b1'
  | None, None => True
  | _, _ => False
  end.
Proof.
  intros Hwf Hi Hts Hsn Hx Hxk Hfit.
  pose proof (wf_len b Hwf) as HL.
  pose proof (highest_possible_sn_eq b HL ltac:(lia)) as Hhsn.
  unfold window_step.
  change (m_tail_sn (store _ _ b)) with (m_tail_sn b).
  change (lowest_possible_sn (store _ _ b)) with (lowest_possible_sn b).
  change (highest_possible_sn (store _ _ b)) with (highest_possible_sn b).
  change (idx_for (store _ _ b) sn) with (idx_for b sn).
  change (m_buffer_len (store _ _ b)) with (m_buffer_len b).
  destruct (Z.eqb_spec (m_tail_sn b) 0) as [|_]; [lia|].
  destruct (sn <? _).
  { split; [reflexivity|now apply extra_pending]. }
  destruct (Z.leb_spec sn (highest_possible_sn b)) as [Hin|Hbeyond].
  { destruct (_ && _); [|exact I].
    split; [reflexivity|now apply mark_pending]. }
  rewrite !spill_unfold. cbv zeta.
  change (highest_possible_sn (store _ _ b)) with (highest_possible_sn b).
  change (m_buffer_len (store _ _ b)) with (m_buffer_len b).
  change (occupancy (store _ _ b)) with (occupancy b).
  change (m_drops (store _ _ b)) with (m_drops b).
  pose proof (s32_le (u64 (sn - highest_possible_sn b))) as Hle.
  rewrite (u64_small (sn - _)) in Hle by lia. specialize (Hle ltac:(lia)).
  set (distance := s32 (u64 (sn - highest_possible_sn b))) in *.
  destruct (Z.leb_spec distance 0) as [|Hpos]; [exact I|].
  destruct (Z.geb_spec distance (m_buffer_len b)) as [Hfar|Hnear].
  - (* patch-up: the loop passes every slot *)
    set (b0 := set_drops (u64 (m_drops b + u64 (distance - 1))) b).
    change (set_drops ?d (store i ?v b)) with (store i (slot b0 i + k) b0).
    destruct (spill_loop_pending (Z.to_nat (m_buffer_len b)) b0 0 0)
      as (E1 & E2 & [(Habs & _)|(_ & E3)]); auto.
    { destruct Hwf; split; auto. }
    { change (m_tail_idx b0) with (m_tail_idx b) in Habs.
      change (m_buffer_len b0) with (m_buffer_len b) in Habs.
      pose proof (Z.mod_pos_bound (i - m_tail_idx b) (m_buffer_len b) ltac:(lia)).
      lia. }
    rewrite E1, E2, E3. set (st := spill_loop _ (b0, 0, 0)).
    split; [reflexivity|].
    destruct (negb (distance - 1 =? 0)).
    + change (m_tail_idx (set_dups _ st.1.1)) with (m_tail_idx st.1.1).
      change (slot (set_dups _ st.1.1)) with (slot st.1.1).
      set (b3 := store _ _ (set_head_idx _ (set_tail_sn sn st.1.1))).
      change (extra i k b3 (set_dups (u64 (m_dups b3 + k)) b3)). apply extra_left.
    + rewrite mark_set_dups. rewrite <- (mark_dups st.1.1 sn). apply extra_left.
  - (* the tail advances, then the arrival is marked *)
    set (n := Z.to_nat (Z.min (occupancy b) distance)).
    assert (Hn : Z.of_nat n ≤ distance) by lia.
    pose proof (idx_for_spill_loop n b 0 0 sn Hwf ltac:(lia) ltac:(lia) ltac:(lia)) as Hidx.
    destruct (spill_loop_shape n b 0 0 Hwf ltac:(lia) ltac:(lia)) as (Hwf2 & L2 & _).
    destruct (spill_loop_pending n b 0 0 Hwf Hi Hx Hxk)
      as (E1 & E2 & [(_ & E3 & E4)|(_ & E3)]);
      rewrite E1, E2; set (st := spill_loop n (b, 0, 0)) in *;
      (split; [reflexivity|]).
    + rewrite E4, <- E3.
      apply mark_pending; rewrite ?E3, ?Hidx, ?L2; auto.
    + rewrite E3, mark_set_dups. rewrite <- (mark_dups st.1.1 sn). apply extra_left.
Qed.

(** The relation is kept by an arrival, whatever the state of the
    slot. *)
Lemma window_step_extra b b' sn :
  wf b → 0 ≤ i < m_buffer_len b →
  0 < m_tail_sn b < 2 ^ 63 → 0 ≤ sn < 2 ^ 63 →
  extra i k b b' →
  slot b' (idx_for b' sn) < 255 →
  match window_step b sn, window_step b' sn with
  | Some (b1, r), Some (b1', r') => r' = r ∧ extra i k b1 b1'
  | None, None => True
  | _, _ => False
  end.
Proof.
  intros Hwf Hi Hts Hsn Hex Hfit. destruct Hex as [b Hx Hxk|b].
  - apply window_step_pending; auto.
    change (idx_for (store _ _ b) sn) with (idx_for b sn) in Hfit.
    intros E. rewrite E, slot_store_eq in Hfit; auto using wf_buffer.
  - rewrite window_step_left.
    destruct (window_step b sn) as [[b1 r]|]; [|exact I].
    split; [reflexivity|apply extra_left].
Qed.

(** A call beyond the window does not abort when the distance fits an
    [int]. *)
Lemma window_step_beyond b sn :
  wf b → 0 < m_tail_sn b < 2 ^ 63 →
  highest_possible_sn b < sn → sn - highest_possible_sn b < 2 ^ 31 →
  is_Some (window_step b sn).
Proof.
  intros Hwf Hts Hbeyond Hnear. pose proof (wf_len b Hwf) as HL.
  pose proof (highest_possible_sn_eq b HL ltac:(lia)) as Hhsn.
  pose proof (lowest_possible_sn_le b ltac:(lia)) as Hlsn.
  unfold window_step.
  destruct (Z.eqb_spec (m_tail_sn b) 0) as [|_]; [lia|].
  destruct (Z.ltb_spec sn (lowest_possible_sn b)); [lia|].
  destruct (Z.leb_spec sn (highest_possible_sn b)); [lia|].
  rewrite spill_unfold. cbv zeta.
  rewrite (u64_small (sn - _)), s32_small by lia.
  destruct (Z.leb_spec (sn - highest_possible_sn b) 0); [lia|].
  destruct (_ >=? _); eexists; reflexivity.
Qed.

(** A drain arrival, a whole window or more beyond the highest admissible
    number, spills every slot: afterwards the two runs differ in [dups]
    only, by [k]. *)
Lemma window_step_drain b b' sn :
  wf b → 0 ≤ i < m_buffer_len b → 0 < m_tail_sn b < 2 ^ 63 →
  highest_possible_sn b + m_buffer_len b ≤ sn →
  sn - highest_possible_sn b < 2 ^ 31 →
  extra i k b b' →
  ∃ b1 r, window_step b sn = Some (b1, r)
          ∧ window_step b' sn = Some (set_dups (u64 (m_dups b1 + k)) b1, r).
Proof.
  intros Hwf Hi Hts Hfar Hnear Hex.
  pose proof (wf_len b Hwf) as HL.
  destruct (window_step_beyond b sn Hwf Hts ltac:(lia) Hnear) as [[b1 r] Hb].
  exists b1, r. split; [exact Hb|].
  destruct Hex as [b Hx Hxk|b]; [|now rewrite window_step_left, Hb].
  pose proof (highest_possible_sn_eq b HL ltac:(lia)) as Hhsn.
  pose proof (lowest_possible_sn_le b ltac:(lia)) as Hlsn.
  revert Hb. unfold window_step.
  change (m_tail_sn (store _ _ b)) with (m_tail_sn b).
  change (lowest_possible_sn (store _ _ b)) with (lowest_possible_sn b).
  change (highest_possible_sn (store _ _ b)) with (highest_possible_sn b).
  destruct (Z.eqb_spec (m_tail_sn b) 0) as [|_]; [lia|].
  destruct (Z.ltb_spec sn (lowest_possible_sn b)); [lia|].
  destruct (Z.leb_spec sn (highest_possible_sn b)); [lia|].
  rewrite !spill_unfold. cbv zeta.
  change (highest_possible_sn (store _ _ b)) with (highest_possible_sn b).
  change (m_buffer_len (store _ _ b)) with (m_buffer_len b).
  change (m_drops (store _ _ b)) with (m_drops b).
  rewrite (u64_small (sn - _)), s32_small by lia.
  set (distance := sn - highest_possible_sn b) in *.
  destruct (Z.leb_spec distance 0); [lia|].
  destruct (Z.geb_spec distance (m_buffer_len b)); [|lia].
  set (b0 := set_drops (u64 (m_drops b + u64 (distance - 1))) b).
  change (set_drops ?d (store i ?v b)) with (store i (slot b0 i + k) b0).
  destruct (spill_loop_pending (Z.to_nat (m_buffer_len b)) b0 0 0)
    as (E1 & E2 & [(Habs & _)|(_ & E3)]); auto.
  { destruct Hwf; split; auto. }
  { change (m_tail_idx b0) with (m_tail_idx b) in Habs.
    change (m_buffer_len b0) with (m_buffer_len b) in Habs.
    pose proof (Z.mod_pos_bound (i - m_tail_idx b) (m_buffer_len b) ltac:(lia)).
    lia. }
  rewrite E1, E2, E3. set (st := spill_loop _ (b0, 0, 0)).
  destruct (negb (distance - 1 =? 0)); intros [= <- <-].
  - reflexivity.
  - rewrite mark_set_dups, mark_dups. reflexivity.
Qed.

(** ** Runs *)

Lemma extra_received b b' sn :
  extra i k b b' → extra i k (received b sn) (received b' sn).
Proof.
  intros [b0 H1 H2|b0].
  - change (received (store i ?v b0) sn) with (store i v (received b0 sn)).
    change (slot b0 i) with (slot (received b0 sn) i). now apply extra_pending.
  - change (received (set_dups ?d b0) sn) with (set_dups d (received b0 sn)).
    change (m_dups b0) with (m_dups (received b0 sn)). apply extra_left.
Qed.

Lemma window_run_extra sns : ∀ b b',
  wf b → 0 ≤ i < m_buffer_len b → 0 < m_tail_sn b < 2 ^ 63 →
  Forall (λ sn, 0 ≤ sn < 2 ^ 63) sns →
  extra i k b b' → fits b' sns = true →
  match window_run b sns, window_run b' sns with
  | Some b1, Some b1' =>
      extra i k b1 b1' ∧ wf b1 ∧ m_buffer_len b1 = m_buffer_len b
      ∧ 0 < m_tail_sn b1 < 2 ^ 63
  | None, None => True
  | _, _ => False
  end.
Proof.
  induction sns as [|sn sns IH]; intros b b' Hwf Hi Hts Hall Hex Hfit.
  - cbn. auto.
  - apply Forall_cons in Hall as [Hsn Hall].
    cbn [fits] in Hfit. apply andb_prop in Hfit as [Hf1 Hf2].
    apply Z.ltb_lt in Hf1. cbn [window_run].
    assert (Hwfr : wf (received b sn)) by (destruct Hwf; split; auto).
    pose proof (window_step_extra (received b sn) (received b' sn) sn Hwfr Hi Hts Hsn
                  (extra_received _ _ sn Hex) Hf1) as Hstep.
    pose proof (window_step_wf (received b sn) sn) as Hw.
    destruct (window_step (received b sn) sn) as [[b1 r]|],
             (window_step (received b' sn) sn) as [[b1' r']|];
      try contradiction; [|exact I].
    destruct Hstep as [_ Hex1].
    destruct (Hw b1 r Hwfr Hts Hsn eq_refl) as (Hwf1 & Hts1 & HL1).
    change (m_buffer_len (received b sn)) with (m_buffer_len b) in HL1.
    specialize (IH b1 b1' Hwf1 ltac:(lia) Hts1 Hall Hex1 Hf2).
    destruct (window_run b1 sns), (window_run b1' sns); try contradiction; auto.
    destruct IH as (I1 & I2 & I3 & I4).
    split; [exact I1|]. split; [exact I2|]. split; [congruence|exact I4].
Qed.

(** What the relation says about the counters. *)
Lemma extra_counters b b' :
  wf b → 0 ≤ i < m_buffer_len b → extra i k b b' →
  m_drops b' = m_drops b
  ∧ ((m_dups b' = m_dups b ∧ 1 ≤ slot b i ∧ slot b' i = slot b i + k)
     ∨ (m_dups b' = u64 (m_dups b + k) ∧ m_buffer b' = m_buffer b)).
Proof.
  intros Hwf Hi Hex. destruct Hex as [b H1 H2|b]; (split; [reflexivity|]).
  - left. rewrite slot_store_eq; [|exact Hi|exact (wf_buffer _ Hwf)].
    repeat split; auto.
  - right. split; reflexivity.
Qed.

End ExtraCopies.

Lemma received_known b sn :
  m_smallest_received_sn b ≤ sn ≤ m_largest_received_sn b → received b sn = b.
Proof.
  intros H. unfold received, set_received.
  rewrite Z.min_r, Z.max_r by lia. destruct b; reflexivity.
Qed.

(** [n] further copies of a number that the window already holds raise
    the counter of its slot by [n] and change nothing else. *)
Lemma window_run_copies sn n : ∀ b,
  wf b → m_tail_sn b ≠ 0 →
  lowest_possible_sn b ≤ sn ≤ highest_possible_sn b →
  m_smallest_received_sn b ≤ sn ≤ m_largest_received_sn b →
  (sn ≤ largest_sn b ∨ idx_for b sn = m_head_idx b) →
  0 ≤ slot b (idx_for b sn) →
  slot b (idx_for b sn) + Z.of_nat n ≤ 255 →
  window_run b (replicate n sn)
  = Some (store (idx_for b sn) (slot b (idx_for b sn) + Z.of_nat n) b).
Proof.
  induction n as [|n IH]; intros b Hwf Hts Hwin Hknown Hhead Hx Hxn.
  - cbn [replicate window_run]. f_equal. change (Z.of_nat 0) with 0.
    rewrite Z.add_0_r. unfold store, slot, set_buffer.
    rewrite list_insert_id; [destruct b; reflexivity|].
    apply list_lookup_lookup_total_lt.
    pose proof (idx_for_range b sn (wf_len b Hwf)).
    rewrite (wf_buffer b Hwf). lia.
  - cbn [replicate window_run]. rewrite (received_known b sn Hknown).
    pose proof (idx_for_range b sn (wf_len b Hwf)) as Hidx.
    assert (Hstep : window_step b sn
                    = Some (store (idx_for b sn) (slot b (idx_for b sn) + 1) b, 0)).
    { unfold window_step.
      destruct (Z.eqb_spec (m_tail_sn b) 0); [contradiction|].
      destruct (Z.ltb_spec sn (lowest_possible_sn b)); [lia|].
      destruct (Z.leb_spec sn (highest_possible_sn b)); [|lia].
      destruct (Z.leb_spec 0 (idx_for b sn)); [|lia].
      destruct (Z.ltb_spec (idx_for b sn) (m_buffer_len b)); [|lia].
      cbn [andb]. do 2 f_equal. unfold mark. cbv zeta. fold (largest_sn b).
      rewrite u8_small by lia.
      destruct (Z.gtb_spec sn (largest_sn b)) as [Hgt|]; [|reflexivity].
      destruct Hhead as [Hle|Hhd]; [lia|]. rewrite Hhd. destruct b; reflexivity. }
    rewrite Hstep.
    set (b1 := store (idx_for b sn) (slot b (idx_for b sn) + 1) b).
    assert (Hs1 : slot b1 (idx_for b sn) = slot b (idx_for b sn) + 1)
      by (apply slot_store_eq; auto using wf_buffer).
    specialize (IH b1). change (idx_for b1 sn) with (idx_for b sn) in IH.
    rewrite Hs1 in IH. rewrite IH.
    + unfold b1. rewrite store_store_eq. do 2 f_equal. lia.
    + destruct Hwf. split; unfold b1; fields; rewrite ?length_insert; auto.
    + exact Hts.
    + exact Hwin.
    + exact Hknown.
    + exact Hhead.
    + lia.
    + lia.
Qed.

Lemma same_window_highest b1 b2 :
  same_window b1 b2 →
  highest_possible_sn b1 = highest_possible_sn b2
  ∧ m_buffer_len b1 = m_buffer_len b2.
Proof.
  unfold same_window. destruct b1, b2; cbn. intros [=]; subst.
  split; reflexivity.
Qed.

(** One call of the caller and the step of a buffer with the same
    window. *)
Lemma deliver_same_window c b a :
  same_window (rb c) b →
  match window_step (received b (a_sn a)) (a_sn a) with
  | Some (b', r) => ∃ c', deliver c a = Some (c', r) ∧ same_window (rb c') b'
  | None => deliver c a = None
  end.
Proof.
  intros H. pose proof (deliver_window c a) as Hd.
  pose proof (same_window_step_cases _ _ (a_sn a)
                (same_window_received _ _ (a_sn a) H)) as Hs.
  destruct (window_step (received (rb c) (a_sn a)) (a_sn a)) as [[b1 r1]|],
           (window_step (received b (a_sn a)) (a_sn a)) as [[b2 r2]|];
    try contradiction; [|exact Hd].
  destruct Hd as (c1 & m & Hd & Hrb). destruct Hs as [<- Hs].
  exists c1. split; [exact Hd|]. rewrite Hrb. exact Hs.
Qed.

Lemma copies_sn sn (copies : list Arrival) :
  Forall (λ a, a_sn a = sn) copies →
  a_sn <$> copies = replicate (length copies) sn.
Proof.
  induction 1 as [|a l Ha _ IH]; [reflexivity|].
  cbn [fmap list_fmap length replicate]. now rewrite Ha, <- IH.
Qed.

(** C7, as stated, fails for [k = 255]: capacity 8, arrival 1, then 255
    further copies of 1 while it is in the window, then 100.  The 8-bit
    counter of the slot wraps to 0: [duplicates()] is not raised at all,
    and [drops()] is one more than in the run without the copies. *)
Lemma C7_counter_wraps :
  ∃ c1 c2,
    run (start 8) (arrivals 0 ([1] ++ [100])) = Some c1
    ∧ run (start 8) (arrivals 0 ([1] ++ replicate 255 1 ++ [100])) = Some c2
    ∧ dups (rb c1) = 0 ∧ dups (rb c2) = 0
    ∧ drops (rb c1) = 98 ∧ drops (rb c2) = 99
    ∧ dups (rb c2) ≠ dups (rb c1) + 255
    ∧ drops (rb c2) ≠ drops (rb c1).
Proof.
  eexists _, _. split; [vm_compute; reflexivity|].
  split; [vm_compute; reflexivity|].
  vm_compute. repeat split; first [reflexivity | discriminate].
Qed.

(** C7, amended.  Let [sn] be inside the window of a well-formed buffer,
    already received and marked (counter [x ≥ 1] in its slot, not beyond
    the head), and let [k ≥ 1] extra copies of [sn] arrive, with
    [x + k ≤ 255].  Compare the runs with and without the copies over any
    later arrivals (below 2^63, none of them mapped to a slot whose
    counter holds 255 in the run with the copies).  Both runs abort or
    both return; [drops()] is the same; [duplicates()] is the same while
    the slot still carries the [k] extra counts, and exactly [k] more
    (modulo 2^64) once the slot has left the window.  It has left at the
    latest after a drain arrival, one that is a whole window or more and
    less than 2^31 beyond [highest_possible_sn]: such an arrival spills
    every slot.  (From 2^31 on, [int distance] of [spill] does not hold
    the distance, and the slot can stay.) *)
Theorem C7_extra_copies c sn k copies rest :
  wf (rb c) →
  0 < m_tail_sn (rb c) < 2 ^ 63 →
  lowest_possible_sn (rb c) ≤ sn ≤ highest_possible_sn (rb c) →
  m_smallest_received_sn (rb c) ≤ sn ≤ m_largest_received_sn (rb c) →
  1 ≤ slot (rb c) (idx_for (rb c) sn) →
  (sn ≤ largest_sn (rb c) ∨ idx_for (rb c) sn = m_head_idx (rb c)) →
  1 ≤ k → Z.of_nat (length copies) = k →
  Forall (λ a, a_sn a = sn) copies →
  slot (rb c) (idx_for (rb c) sn) + k ≤ 255 →
  Forall (λ a, 0 ≤ a_sn a < 2 ^ 63) rest →
  fits (store (idx_for (rb c) sn) (slot (rb c) (idx_for (rb c) sn) + k) (rb c))
    (a_sn <$> rest) = true →
  match run c rest, run c (copies ++ rest) with
  | Some c1, Some c2 =>
      drops (rb c2) = drops (rb c1)
      ∧ ((dups (rb c2) = dups (rb c1)
          ∧ 1 ≤ slot (rb c1) (idx_for (rb c) sn)
          ∧ slot (rb c2) (idx_for (rb c) sn)
            = slot (rb c1) (idx_for (rb c) sn) + k)
         ∨ (dups (rb c2) = u64 (dups (rb c1) + k)
            ∧ m_buffer (rb c2) = m_buffer (rb c1)))
      ∧ ∀ d, highest_possible_sn (rb c1) + m_buffer_len (rb c1) ≤ a_sn d →
             a_sn d - highest_possible_sn (rb c1) < 2 ^ 31 →
             ∃ c1' c2' r,
               deliver c1 d = Some (c1', r) ∧ deliver c2 d = Some (c2', r)
               ∧ drops (rb c2') = drops (rb c1')
               ∧ dups (rb c2') = u64 (dups (rb c1') + k)
  | None, None => True
  | _, _ => False
  end.
Proof.
  intros Hwf Hts Hwin Hknown Hx Hhead Hk Hlen Hcopies Hxk Hrest Hfit.
  (* the copies *)
  pose proof (window_run_copies sn (length copies) (rb c) Hwf ltac:(lia) Hwin
                Hknown Hhead ltac:(lia) ltac:(lia)) as Hc.
  rewrite Hlen, <- (copies_sn sn copies Hcopies) in Hc.
  set (b := rb c) in *. set (i := idx_for b sn) in *.
  pose proof (idx_for_range b sn (wf_len b Hwf)) as Hi. fold i in Hi.
  pose proof (run_window_run copies c b ltac:(reflexivity)) as Hrc.
  rewrite Hc in Hrc. destruct Hrc as (ck & Hrunk & Hsame).
  rewrite run_app, Hrunk. cbn [mbind option_bind].
  (* the later arrivals *)
  pose proof (window_run_extra i k ltac:(lia) (a_sn <$> rest) b
                (store i (slot b i + k) b) Hwf Hi Hts) as Hex.
  rewrite Forall_fmap in Hex.
  specialize (Hex Hrest (extra_pending i k b Hx Hxk) Hfit).
  pose proof (run_window_run rest c b ltac:(reflexivity)) as H1.
  pose proof (run_window_run rest ck _ Hsame) as H2.
  destruct (window_run b (a_sn <$> rest)) as [b1|],
           (window_run (store i (slot b i + k) b) (a_sn <$> rest)) as [b2|];
    try contradiction.
  - destruct H1 as (c1 & -> & S1). destruct H2 as (c2 & -> & S2).
    destruct Hex as (Hex & Hwf1 & HL1 & Hts1).
    destruct (extra_counters i k b1 b2 Hwf1 ltac:(lia) Hex) as (D & A).
    destruct (same_window_fields _ _ S1) as (B1 & _ & _ & D1 & U1).
    destruct (same_window_fields _ _ S2) as (B2 & _ & _ & D2 & U2).
    split; [|split].
    + unfold drops. rewrite D1, D2. exact D.
    + unfold dups, slot in *. rewrite B1, B2, U1, U2. exact A.
    + (* a drain arrival *)
      intros d Hfar Hnear.
      destruct (same_window_highest _ _ S1) as [Eh El]. rewrite Eh, El in *.
      assert (Hwfr : wf (received b1 (a_sn d))) by (destruct Hwf1; split; auto).
      assert (Hir : 0 ≤ i < m_buffer_len (received b1 (a_sn d))).
      { change (m_buffer_len (received b1 (a_sn d))) with (m_buffer_len b1). lia. }
      destruct (window_step_drain i k ltac:(lia) (received b1 (a_sn d))
                  (received b2 (a_sn d)) (a_sn d) Hwfr Hir Hts1 Hfar Hnear
                  (extra_received i k _ _ _ Hex)) as (b1' & r & W1 & W2).
      pose proof (deliver_same_window c1 b1 d S1) as E1. rewrite W1 in E1.
      pose proof (deliver_same_window c2 b2 d S2) as E2. rewrite W2 in E2.
      destruct E1 as (c1' & E1 & T1). destruct E2 as (c2' & E2 & T2).
      exists c1', c2', r. split; [exact E1|]. split; [exact E2|].
      destruct (same_window_fields _ _ T1) as (_ & _ & _ & D1' & U1').
      destruct (same_window_fields _ _ T2) as (_ & _ & _ & D2' & U2').
      unfold drops, dups. rewrite D1', D2', U1', U2'. split; reflexivity.
  - rewrite H1, H2. exact I.
Qed.

Lemma C7_extra_copies_witness :
  match run ten_packets (arrivals 0 [11; 3]),
        run ten_packets (arrivals 1 [5; 5] ++ arrivals 0 [11; 3]) with
  | Some c1, Some c2 =>
      drops (rb c2) = drops (rb c1)
      ∧ ((dups (rb c2) = dups (rb c1)
          ∧ 1 ≤ slot (rb c1) (idx_for (rb ten_packets) 5)
          ∧ slot (rb c2) (idx_for (rb ten_packets) 5)
            = slot (rb c1) (idx_for (rb ten_packets) 5) + 2)
         ∨ (dups (rb c2) = u64 (dups (rb c1) + 2)
            ∧ m_buffer (rb c2) = m_buffer (rb c1)))
      ∧ ∀ d, highest_possible_sn (rb c1) + m_buffer_len (rb c1) ≤ a_sn d →
             a_sn d - highest_possible_sn (rb c1) < 2 ^ 31 →
             ∃ c1' c2' r,
               deliver c1 d = Some (c1', r) ∧ deliver c2 d = Some (c2', r)
               ∧ drops (rb c2') = drops (rb c1')
               ∧ dups (rb c2') = u64 (dups (rb c1') + 2)
  | None, None => True
  | _, _ => False
  end.
Proof.
  apply (C7_extra_copies ten_packets 5 2 (arrivals 1 [5; 5]) (arrivals 0 [11; 3])).
  - split; vm_compute; first [reflexivity | split; first [reflexivity | discriminate]].
  - vm_compute. split; reflexivity.
  - vm_compute. split; discriminate.
  - vm_compute. split; discriminate.
  - vm_compute. discriminate.
  - left. vm_compute. discriminate.
  - lia.
  - reflexivity.
  - repeat constructor.
  - vm_compute. discriminate.
  - repeat constructor; cbn; lia.
  - vm_compute. reflexivity.
Defined.

(** * More on the window *)

(** ** Occupancy and the admissible range *)

Lemma occupancy_value b :
  wf b →
  (m_tail_sn b = 0 → occupancy b = 0)
  ∧ (m_tail_sn b ≠ 0 →
     1 ≤ occupancy b ≤ m_buffer_len b
     ∧ occupancy b
       = (m_head_idx b - m_tail_idx b) mod m_buffer_len b
         + (if m_head_idx b <? m_tail_idx b then 0 else 1)).
Proof.
  intros [Hlen _ Ht Hh]. unfold occupancy. split.
  - intros ->. reflexivity.
  - intros Hne. apply Z.eqb_neq in Hne. rewrite Hne. cbv zeta.
    rewrite (mod_dist _ _ _ Hh Ht).
    destruct (Z.ltb_spec (m_head_idx b - m_tail_idx b) 0),
             (Z.ltb_spec (m_head_idx b) (m_tail_idx b)); try lia.
    rewrite Z.rem_small by lia. lia.
Qed.

(** X1. The occupancy of a buffer whose indices are in range is 0 when it
    is empty and between 1 and the capacity otherwise: the number of
    slots from tail to head when the head has not wrapped, one less when
    it has. *)
Theorem occupancy_bounds b :
  wf b →
  (m_tail_sn b = 0 → occupancy b = 0)
  ∧ (m_tail_sn b ≠ 0 →
     1 ≤ occupancy b ≤ m_buffer_len b
     ∧ occupancy b
       = (m_head_idx b - m_tail_idx b) mod m_buffer_len b
         + (if m_head_idx b <? m_tail_idx b then 0 else 1)).
Proof. exact (occupancy_value b). Qed.

Lemma occupancy_bounds_witness :
  1 ≤ occupancy (default (new_buffer 8) (window_run (new_buffer 8) [2; 4; 6; 8; 10])) ≤ 8.
Proof.
  refine (proj1 (proj2 (occupancy_bounds _ _) _)).
  - split; vm_compute; try reflexivity; split; congruence.
  - vm_compute. discriminate.
Defined.

(** X2. On a buffer whose indices are in range, [lowest_possible_sn] is
    the tail number less the free capacity, cut off at 0, and
    [highest_possible_sn] is the tail number plus the capacity less one;
    the tail number lies between them. *)
Theorem admissible_range b :
  wf b → 0 ≤ m_tail_sn b < 2 ^ 63 →
  lowest_possible_sn b
  = Z.max 0 (m_tail_sn b - (m_buffer_len b - occupancy b))
  ∧ highest_possible_sn b = m_tail_sn b + m_buffer_len b - 1
  ∧ lowest_possible_sn b ≤ m_tail_sn b ≤ highest_possible_sn b.
Proof.
  intros Hwf Ht.
  pose proof (occupancy_value b Hwf) as [O0 O1].
  pose proof (wf_len b Hwf) as Hlen.
  assert (Hh : highest_possible_sn b = m_tail_sn b + m_buffer_len b - 1)
    by (apply highest_possible_sn_eq; lia).
  assert (Ho : 0 ≤ occupancy b ≤ m_buffer_len b).
  { destruct (decide (m_tail_sn b = 0)) as [E|E]; [rewrite (O0 E); lia|].
    destruct (O1 E); lia. }
  assert (Hl : lowest_possible_sn b
               = Z.max 0 (m_tail_sn b - (m_buffer_len b - occupancy b))).
  { unfold lowest_possible_sn. cbv zeta.
    rewrite (u64_small (m_buffer_len b - occupancy b)) by lia.
    destruct (Z.gtb_spec (m_tail_sn b) (m_buffer_len b - occupancy b)).
    - rewrite u64_small by lia. lia.
    - lia. }
  rewrite Hl, Hh. repeat split; lia.
Qed.

Lemma admissible_range_witness :
  let b := default (new_buffer 8) (window_run (new_buffer 8) [20; 22]) in
  lowest_possible_sn b = Z.max 0 (m_tail_sn b - (m_buffer_len b - occupancy b))
  ∧ highest_possible_sn b = m_tail_sn b + m_buffer_len b - 1
  ∧ lowest_possible_sn b ≤ m_tail_sn b ≤ highest_possible_sn b.
Proof.
  apply admissible_range.
  - split; vm_compute; try reflexivity; split; congruence.
  - vm_compute. split; congruence.
Defined.

(** ** When a call returns, and what it keeps *)

Lemma wf_port_map m b : wf (set_port_seq_map m b) ↔ wf b.
Proof. split; intros [H1 H2 H3 H4]; split; assumption. Qed.

Lemma spill_loop_wf n : ∀ b lb cb,
  wf b →
  wf (spill_loop n (b, lb, cb)).1.1
  ∧ m_buffer_len (spill_loop n (b, lb, cb)).1.1 = m_buffer_len b.
Proof.
  induction n as [|n IH]; intros b lb cb Hwf; [split; [exact Hwf|reflexivity]|].
  rewrite spill_loop_S.
  pose proof (wf_spill_step b lb cb Hwf) as Hwf1.
  pose proof (spill_step_fields b lb cb) as F. cbv zeta in F.
  destruct F as (Fl & _).
  destruct (spill_step (b, lb, cb)) as [[b1 lb1] cb1]. cbn [fst] in *.
  destruct (IH b1 lb1 cb1 Hwf1) as [W L]. split; [exact W|congruence].
Qed.

Lemma wf_restart b sn v :
  wf b → wf (store (m_tail_idx b) v (set_head_idx (m_tail_idx b) (set_tail_sn sn b))).
Proof.
  intros [H1 H2 H3 H4]. split; fields; try assumption.
  rewrite length_insert. exact H2.
Qed.

Lemma window_step_keeps_wf b sn b1 r :
  wf b → window_step b sn = Some (b1, r) →
  wf b1 ∧ m_buffer_len b1 = m_buffer_len b.
Proof.
  intros Hwf. unfold window_step.
  destruct (m_tail_sn b =? 0).
  { intros [= <- <-]. split; [apply wf_restart; exact Hwf|reflexivity]. }
  destruct (sn <? lowest_possible_sn b).
  { intros [= <- <-]. split; [exact Hwf|reflexivity]. }
  destruct (sn <=? highest_possible_sn b).
  { destruct (_ && _); [|discriminate]. intros [= <- <-].
    split; [apply wf_mark; exact Hwf|apply mark_fields]. }
  rewrite spill_unfold. cbv zeta.
  destruct (_ <=? 0); [discriminate|].
  destruct (_ >=? m_buffer_len b).
  - set (b0 := set_drops _ b).
    assert (Hwf0 : wf b0) by (destruct Hwf; split; assumption).
    destruct (spill_loop_wf (Z.to_nat (m_buffer_len b)) b0 0 0 Hwf0) as [W L].
    set (st := spill_loop _ _) in *.
    intros [= <- <-].
    destruct (negb _).
    + split; [apply (wf_restart st.1.1 sn _ W)|exact L].
    + split; [apply wf_mark; exact W|].
      transitivity (m_buffer_len st.1.1); [apply mark_fields|exact L].
  - destruct (spill_loop_wf (Z.to_nat (Z.min (occupancy b) (s32 (u64 (sn - highest_possible_sn b))))) b 0 0 Hwf) as [W L].
    set (st := spill_loop _ _) in *.
    intros [= <- <-]. split; [apply wf_mark; exact W|].
    transitivity (m_buffer_len st.1.1); [apply mark_fields|exact L].
Qed.

Lemma addPacket_keeps_wf b sn flow_sn port fbl fbc b' r :
  wf b → addPacket b sn flow_sn port fbl fbc = Some (b', r) →
  wf b' ∧ m_buffer_len b' = m_buffer_len b.
Proof.
  intros Hwf H.
  destruct (addPacket_window b sn flow_sn port fbl fbc) as [m E].
  rewrite H in E. cbn [fmap option_fmap option_map fst snd] in E.
  destruct (window_step (received b sn) sn) as [[b1 r1]|] eqn:Hs; [|discriminate].
  cbn [fmap option_fmap option_map fst snd] in E. injection E as -> _.
  assert (Hwf' : wf (received b sn)) by (destruct Hwf; split; assumption).
  destruct (window_step_keeps_wf _ _ _ _ Hwf' Hs) as [W L].
  split; [apply wf_port_map; exact W|exact L].
Qed.

(** X3. Every call that returns leaves the tail and head indices inside
    the array and the array at its length; so does every run, whatever
    the sequence numbers are. *)
Theorem run_keeps_indices_in_range evs : ∀ c c',
  wf (rb c) → run c evs = Some c' →
  wf (rb c') ∧ m_buffer_len (rb c') = m_buffer_len (rb c).
Proof.
  induction evs as [|a evs IH]; intros c c' Hwf Hrun.
  - injection Hrun as <-. split; [exact Hwf|reflexivity].
  - cbn [run] in Hrun. unfold deliver in Hrun.
    destruct (addPacket _ _ _ _ _ _) as [[b r]|] eqn:Ha; [|discriminate].
    destruct (addPacket_keeps_wf _ _ _ _ _ _ _ _ Hwf Ha) as [W L].
    destruct (IH _ c' (W : wf (rb (mkCaller b _ _))) Hrun) as [W' L'].
    split; [exact W'|]. rewrite L'. exact L.
Qed.

Lemma run_keeps_indices_in_range_witness :
  wf (rb (default (start 8) (run (start 8) C8_run)))
  ∧ m_buffer_len (rb (default (start 8) (run (start 8) C8_run))) = m_buffer_len (rb (start 8)).
Proof.
  apply (run_keeps_indices_in_range C8_run (start 8)).
  - apply wf_new_buffer. lia.
  - vm_compute. reflexivity.
Defined.

(** X4. A call on a buffer whose indices are in range fails an assertion
    in one case only: the buffer is not empty, the arrival is beyond the
    window, and the distance beyond it, cut to [int], is not positive.
    The two assertions on the index of an arrival inside the window never
    fail. *)
Theorem addPacket_aborts_iff b sn flow_sn port fbl fbc :
  wf b →
  addPacket b sn flow_sn port fbl fbc = None
  ↔ m_tail_sn b ≠ 0 ∧ lowest_possible_sn b ≤ sn ∧ highest_possible_sn b < sn
    ∧ s32 (u64 (sn - highest_possible_sn b)) ≤ 0.
Proof.
  intros Hwf.
  destruct (addPacket_window b sn flow_sn port fbl fbc) as [m E].
  assert (H : addPacket b sn flow_sn port fbl fbc = None
              ↔ window_step (received b sn) sn = None).
  { destruct (addPacket _ _ _ _ _ _), (window_step _ _); cbn in E;
      split; intros; congruence. }
  rewrite H. clear E H. unfold window_step.
  change (m_tail_sn (received b sn)) with (m_tail_sn b).
  change (lowest_possible_sn (received b sn)) with (lowest_possible_sn b).
  change (highest_possible_sn (received b sn)) with (highest_possible_sn b).
  change (idx_for (received b sn) sn) with (idx_for b sn).
  change (m_buffer_len (received b sn)) with (m_buffer_len b).
  pose proof (idx_for_range b sn (wf_len b Hwf)) as Hi.
  destruct (Z.eqb_spec (m_tail_sn b) 0); [split; [discriminate|tauto]|].
  destruct (Z.ltb_spec sn (lowest_possible_sn b)); [split; [discriminate|lia]|].
  destruct (Z.leb_spec sn (highest_possible_sn b)).
  { replace (_ && _) with true by (symmetry; apply andb_true_iff; split; lia).
    split; [discriminate|lia]. }
  unfold spill.
  change (highest_possible_sn (received b sn)) with (highest_possible_sn b).
  destruct (Z.leb_spec (s32 (u64 (sn - highest_possible_sn b))) 0).
  { split; [intros _; repeat split; assumption|reflexivity]. }
  split; [|lia].
  destruct (_ >=? _); destruct (spill_loop _ _) as [[? ?] ?]; discriminate.
Qed.

Lemma addPacket_aborts_iff_witness :
  addPacket (default (new_buffer 8) (window_run (new_buffer 8) [1]))
    (2 ^ 31 + 8) 2 0 None None = None.
Proof.
  apply addPacket_aborts_iff.
  - split; vm_compute; try reflexivity; split; congruence.
  - vm_compute. repeat split; congruence.
Defined.

(** ** Arrivals inside the window of the first packet *)

Lemma window_trace_within b : ∀ sns,
  wf b → 0 < m_tail_sn b < 2 ^ 63 → m_drops b = 0 → m_dups b = 0 →
  Forall (λ sn, sn ≤ m_tail_sn b + m_buffer_len b - 1) sns →
  window_trace b sns = Some (replicate (length sns) (mkObservation 0 0 0)).
Proof.
  intros sns. revert b.
  induction sns as [|sn sns IH]; intros b Hwf Ht Hd Hu Hall; [reflexivity|].
  apply Forall_cons in Hall as [Hsn Hall].
  cbn [window_trace length replicate].
  assert (Hw : ∃ b1, window_step (received b sn) sn = Some (b1, 0)
                ∧ wf b1 ∧ m_tail_sn b1 = m_tail_sn b
                ∧ m_buffer_len b1 = m_buffer_len b
                ∧ m_drops b1 = 0 ∧ m_dups b1 = 0).
  { unfold window_step.
    change (m_tail_sn (received b sn)) with (m_tail_sn b).
    change (lowest_possible_sn (received b sn)) with (lowest_possible_sn b).
    change (highest_possible_sn (received b sn)) with (highest_possible_sn b).
    change (idx_for (received b sn) sn) with (idx_for b sn).
    change (m_buffer_len (received b sn)) with (m_buffer_len b).
    assert (Hwf' : wf (received b sn)) by (destruct Hwf; split; assumption).
    pose proof (idx_for_range b sn (wf_len b Hwf)) as Hi.
    pose proof (highest_possible_sn_eq b (wf_len b Hwf) ltac:(lia)) as Hh.
    destruct (Z.eqb_spec (m_tail_sn b) 0); [lia|].
    destruct (sn <? lowest_possible_sn b).
    { exists (received b sn). repeat split; try assumption; apply Hwf'. }
    destruct (Z.leb_spec sn (highest_possible_sn b)); [|lia].
    replace (_ && _) with true by (symmetry; apply andb_true_iff; split; lia).
    exists (mark (received b sn) sn).
    pose proof (mark_fields (received b sn) sn) as F. cbv zeta in F.
    destruct F as (F1 & _ & F3 & F4 & F5 & _).
    split; [reflexivity|]. split; [apply wf_mark; exact Hwf'|].
    rewrite F1, F3, F4, F5. repeat split; assumption. }
  destruct Hw as (b1 & -> & W1 & T1 & L1 & D1 & U1).
  rewrite (IH b1 W1) by (rewrite ?T1, ?L1; assumption).
  unfold drops, dups. rewrite D1, U1. reflexivity.
Qed.

(** X5. After the first packet, arrivals that do not exceed its number by
    the capacity or more never move the window: in any order, and with
    any repetitions, every call returns 0 and [drops()] and
    [duplicates()] stay 0. *)
Theorem arrivals_within_first_window len a evs :
  0 < len < 2 ^ 31 → 0 < a_sn a < 2 ^ 63 →
  Forall (λ e, a_sn e ≤ a_sn a + len - 1) evs →
  trace (start len) (a :: evs)
  = Some (replicate (S (length evs)) (mkObservation 0 0 0)).
Proof.
  intros Hlen Ha Hall.
  rewrite (trace_window_trace (a :: evs) (start len) (new_buffer len))
    by reflexivity.
  cbn [fmap list_fmap window_trace].
  change (window_step (received (new_buffer len) (a_sn a)) (a_sn a))
    with (Some (store 0 1 (set_head_idx 0 (set_tail_sn (a_sn a)
                 (received (new_buffer len) (a_sn a)))), 0)).
  set (b1 := store 0 1 _). cbv iota beta.
  rewrite (window_trace_within b1).
  - rewrite length_fmap. reflexivity.
  - pose proof (wf_new_buffer len Hlen) as [H1 H2 H3 H4].
    split; subst b1; fields; try assumption; try lia.
    rewrite length_insert. exact H2.
  - exact Ha.
  - reflexivity.
  - reflexivity.
  - apply Forall_fmap. exact Hall.
Qed.

Lemma arrivals_within_first_window_witness :
  trace (start 8) (mkArrival 3 1 0 :: arrivals 0 [10; 4; 4; 1; 9; 3])
  = Some (replicate 7 (mkObservation 0 0 0)).
Proof.
  apply (arrivals_within_first_window 8 (mkArrival 3 1 0)
           (arrivals 0 [10; 4; 4; 1; 9; 3])).
  - lia.
  - cbn. lia.
  - repeat constructor; cbn; lia.
Defined.

(** ** The sequence number of a slot *)

Lemma u64_add_r x y : u64 (x + u64 y) = u64 (x + y).
Proof. unfold u64. apply Zplus_mod_idemp_r. Qed.

(** X6. [slot_sn] inverts [idx_for] on the window: for a sequence number
    of the window, the slot that [idx_for] gives it reads back as that
    number, or as 0 when the number is more than the occupancy beyond the
    tail. *)
Theorem slot_sn_idx_for b sn :
  wf b → 0 < m_tail_sn b < 2 ^ 63 →
  m_tail_sn b ≤ sn < m_tail_sn b + m_buffer_len b → sn < 2 ^ 63 →
  slot_sn b (idx_for b sn)
  = Some (if sn >? m_tail_sn b + occupancy b then 0 else sn).
Proof.
  intros Hwf Ht Hsn Hsn'.
  pose proof (wf_len b Hwf) as Hlen. pose proof (wf_tail b Hwf) as Hti.
  pose proof (idx_for_range b sn Hlen) as Hi.
  pose proof (idx_for_eq b sn Hwf ltac:(lia) ltac:(lia)) as He.
  destruct (occupancy_value b Hwf) as [_ Ho]. specialize (Ho ltac:(lia)).
  destruct Ho as [Ho _].
  unfold slot_sn.
  replace (_ && _) with true by (symmetry; apply andb_true_iff; split; lia).
  cbv zeta. rewrite (u64_add_r (m_tail_sn b) (occupancy b)).
  rewrite (u64_small (m_tail_sn b + occupancy b)) by lia.
  set (i := idx_for b sn) in *.
  assert (Hk : i - m_tail_idx b = sn - m_tail_sn b
               ∨ i - m_tail_idx b = sn - m_tail_sn b - m_buffer_len b).
  { rewrite He.
    destruct (Z.lt_ge_cases (m_tail_idx b + (sn - m_tail_sn b)) (m_buffer_len b)).
    - left. rewrite Z.mod_small; lia.
    - right.
      replace (m_tail_idx b + (sn - m_tail_sn b))
        with (m_tail_idx b + (sn - m_tail_sn b) - m_buffer_len b
              + 1 * m_buffer_len b) by lia.
      rewrite Z.mod_add, Z.mod_small; lia. }
  rewrite (s32_small (i - m_tail_idx b)) by lia.
  destruct (Z.ltb_spec (i - m_tail_idx b) 0) as [Hneg|Hpos].
  - destruct Hk as [Hk|Hk]; [lia|].
    rewrite (u64_add_r (m_tail_sn b) (i - m_tail_idx b)), u64_add_l, u64_add_r, Hk.
    replace (m_tail_sn b + (sn - m_tail_sn b - m_buffer_len b) + m_buffer_len b)
      with sn by lia.
    rewrite u64_small by lia. reflexivity.
  - destruct Hk as [Hk|Hk]; [|lia].
    rewrite Z.rem_small by lia. rewrite u64_add_r, Hk.
    replace (m_tail_sn b + (sn - m_tail_sn b)) with sn by lia.
    rewrite u64_small by lia. reflexivity.
Qed.

Lemma slot_sn_idx_for_witness :
  slot_sn (default (new_buffer 8) (window_run (new_buffer 8) [5; 6; 7; 8; 9; 10; 11; 12; 13; 14])) 
    (idx_for (default (new_buffer 8) (window_run (new_buffer 8) [5; 6; 7; 8; 9; 10; 11; 12; 13; 14])) 9)
  = Some 9.
Proof.
  apply (slot_sn_idx_for (default (new_buffer 8) (window_run (new_buffer 8) [5; 6; 7; 8; 9; 10; 11; 12; 13; 14])) 9).
  - split; vm_compute; try reflexivity; split; congruence.
  - vm_compute. split; congruence.
  - vm_compute. split; congruence.
  - lia.
Defined.

(** * What the counters count *)

Lemma absent_app R m : ∀ first n,
  absent R first (n + m) = absent R first n + absent R (first + Z.of_nat n) m.
Proof.
  intros first n. revert first.
  induction n as [|n IH]; intros first; cbn [absent Nat.add].
  - now rewrite Z.add_0_r.
  - rewrite IH. replace (first + 1 + Z.of_nat n) with (first + Z.of_nat (S n)) by lia.
    lia.
Qed.

Lemma copies_app R m : ∀ first n,
  copies R first (n + m) = copies R first n + copies R (first + Z.of_nat n) m.
Proof.
  intros first n. revert first.
  induction n as [|n IH]; intros first; cbn [copies Nat.add].
  - now rewrite Z.add_0_r.
  - rewrite IH. replace (first + 1 + Z.of_nat n) with (first + Z.of_nat (S n)) by lia.
    lia.
Qed.

Lemma absent_ext R R' n : ∀ first,
  (∀ x, first ≤ x < first + Z.of_nat n → R x = R' x) →
  absent R first n = absent R' first n.
Proof.
  induction n as [|n IH]; intros first H; [reflexivity|]. cbn [absent].
  rewrite (H first) by lia. rewrite (IH (first + 1)); [reflexivity|].
  intros x Hx. apply H. lia.
Qed.

Lemma copies_ext R R' n : ∀ first,
  (∀ x, first ≤ x < first + Z.of_nat n → R x = R' x) →
  copies R first n = copies R' first n.
Proof.
  induction n as [|n IH]; intros first H; [reflexivity|]. cbn [copies].
  rewrite (H first) by lia. rewrite (IH (first + 1)); [reflexivity|].
  intros x Hx. apply H. lia.
Qed.

Lemma absent_bounds R n : ∀ first, 0 ≤ absent R first n ≤ Z.of_nat n.
Proof.
  induction n as [|n IH]; intros first; cbn [absent]; [lia|].
  specialize (IH (first + 1)). destruct (R first =? 0); lia.
Qed.

Lemma absent_none R n : ∀ first,
  (∀ x, first ≤ x < first + Z.of_nat n → R x = 0) →
  absent R first n = Z.of_nat n ∧ copies R first n = 0.
Proof.
  induction n as [|n IH]; intros first H; [split; reflexivity|].
  cbn [absent copies]. rewrite (H first) by lia.
  destruct (IH (first + 1)) as [-> ->]; [intros x Hx; apply H; lia|].
  cbn. lia.
Qed.

Lemma absent_all R n : ∀ first,
  (∀ x, first ≤ x < first + Z.of_nat n → R x = 1) →
  absent R first n = 0 ∧ copies R first n = 0.
Proof.
  induction n as [|n IH]; intros first H; [split; reflexivity|].
  cbn [absent copies]. rewrite (H first) by lia.
  destruct (IH (first + 1)) as [-> ->]; [intros x Hx; apply H; lia|].
  split; reflexivity.
Qed.

Lemma mod_wrap L t k :
  0 ≤ t < L → 0 ≤ k ≤ L →
  (t + k) mod L = if t + k <? L then t + k else t + k - L.
Proof.
  intros Ht Hk. destruct (Z.ltb_spec (t + k) L).
  - apply Z.mod_small. lia.
  - transitivity ((t + k - L + 1 * L) mod L); [f_equal; lia|].
    rewrite Z.mod_add by lia. apply Z.mod_small. lia.
Qed.

(** One iteration of the loop: the tail number leaves the window and is
    counted by what its slot held. *)
Lemma spill_step_mirrors R b lb cb D U :
  wf b → 0 ≤ m_tail_sn b → m_tail_sn b + 1 < 2 ^ 64 →
  (∀ k, 0 ≤ k < m_buffer_len b →
     slot b ((m_tail_idx b + k) mod m_buffer_len b) = R (m_tail_sn b + k)
     ∧ 0 ≤ R (m_tail_sn b + k) ≤ 255) →
  (∀ x, m_tail_sn b + m_buffer_len b ≤ x → R x = 0) →
  m_drops b = u64 D → m_dups b = u64 U →
  let b1 := (spill_step (b, lb, cb)).1.1 in
  m_tail_sn b1 = m_tail_sn b + 1
  ∧ (∀ k, 0 ≤ k < m_buffer_len b1 →
       slot b1 ((m_tail_idx b1 + k) mod m_buffer_len b1) = R (m_tail_sn b1 + k)
       ∧ 0 ≤ R (m_tail_sn b1 + k) ≤ 255)
  ∧ m_drops b1 = u64 (D + absent R (m_tail_sn b) 1)
  ∧ m_dups b1 = u64 (U + copies R (m_tail_sn b) 1).
Proof.
  intros Hwf Ht0 Ht1 Hs Hb HD HU.
  pose proof (wf_len b Hwf) as HL. pose proof (wf_tail b Hwf) as Hti.
  pose proof (wf_buffer b Hwf) as Hbuf.
  pose proof (spill_step_fields b lb cb) as F. cbv zeta in F.
  destruct F as (FL & _ & Fsn & Fti & Fbuf & _ & _ & Fc).
  set (b1 := (spill_step (b, lb, cb)).1.1) in *. cbv zeta.
  rewrite u64_small in Fsn by lia. rewrite rem_succ in Fti by lia.
  destruct (Hs 0 ltac:(lia)) as [Hs0 Hr0].
  rewrite Z.add_0_r, Z.mod_small in Hs0 by lia. rewrite Z.add_0_r in Hs0, Hr0.
  split; [exact Fsn|]. split.
  - intros k Hk. rewrite FL in Hk |- *. rewrite Fsn.
    assert (Hp : (m_tail_idx b1 + k) mod m_buffer_len b
                 = (m_tail_idx b + (k + 1)) mod m_buffer_len b).
    { rewrite Fti. destruct (Z.eqb_spec (m_tail_idx b + 1) (m_buffer_len b)) as [E|E].
      - replace (m_tail_idx b + (k + 1)) with (0 + k + 1 * m_buffer_len b) by lia.
        now rewrite Z.mod_add by lia.
      - f_equal. lia. }
    rewrite Hp. unfold slot. rewrite Fbuf.
    replace (m_tail_sn b + 1 + k) with (m_tail_sn b + (k + 1)) by lia.
    destruct (Z.eq_dec (k + 1) (m_buffer_len b)) as [E|E].
    + rewrite E, (mod_wrap _ _ _ Hti) by lia.
      destruct (Z.ltb_spec (m_tail_idx b + m_buffer_len b) (m_buffer_len b)); [lia|].
      replace (m_tail_idx b + m_buffer_len b - m_buffer_len b)
        with (m_tail_idx b) by lia.
      rewrite list_lookup_total_insert_eq by lia.
      rewrite (Hb (m_tail_sn b + m_buffer_len b)) by lia. lia.
    + rewrite list_lookup_total_insert_ne.
      * apply (Hs (k + 1)). lia.
      * rewrite (mod_wrap _ _ _ Hti) by lia.
        destruct (Z.ltb_spec (m_tail_idx b + (k + 1)) (m_buffer_len b)); lia.
  - cbn [absent copies]. rewrite !Z.add_0_r.
    destruct Fc as [(S0 & Fd & _ & Fu)|(S0 & Fd & _ & Fu)].
    + rewrite Hs0 in S0. rewrite S0. cbn [Z.eqb].
      rewrite Fd, Fu, HD, HU, u64_add_l, Z.add_0_r. split; reflexivity.
    + rewrite Hs0 in S0. apply Z.eqb_neq in S0. rewrite S0.
      rewrite Fd, Fu, HD, HU, Hs0, u64_add_l, u64_add_r, Z.add_0_r.
      split; reflexivity.
Qed.

Lemma spill_loop_mirrors R n : ∀ b lb cb D U,
  wf b → 0 ≤ m_tail_sn b → m_tail_sn b + Z.of_nat n < 2 ^ 64 →
  (∀ k, 0 ≤ k < m_buffer_len b →
     slot b ((m_tail_idx b + k) mod m_buffer_len b) = R (m_tail_sn b + k)
     ∧ 0 ≤ R (m_tail_sn b + k) ≤ 255) →
  (∀ x, m_tail_sn b + m_buffer_len b ≤ x → R x = 0) →
  m_drops b = u64 D → m_dups b = u64 U →
  let b1 := (spill_loop n (b, lb, cb)).1.1 in
  wf b1 ∧ m_buffer_len b1 = m_buffer_len b
  ∧ m_tail_sn b1 = m_tail_sn b + Z.of_nat n
  ∧ (∀ k, 0 ≤ k < m_buffer_len b1 →
       slot b1 ((m_tail_idx b1 + k) mod m_buffer_len b1) = R (m_tail_sn b1 + k)
       ∧ 0 ≤ R (m_tail_sn b1 + k) ≤ 255)
  ∧ m_drops b1 = u64 (D + absent R (m_tail_sn b) n)
  ∧ m_dups b1 = u64 (U + copies R (m_tail_sn b) n).
Proof.
  induction n as [|n IH]; intros b lb cb D U Hwf Ht0 Ht1 Hs Hb HD HU.
  - cbn [spill_loop absent copies fst]. rewrite !Z.add_0_r.
    split; [exact Hwf|]. split; [reflexivity|]. split; [cbn; lia|].
    split; [exact Hs|]. split; assumption.
  - rewrite spill_loop_S.
    pose proof (spill_step_mirrors R b lb cb D U Hwf Ht0 ltac:(lia) Hs Hb HD HU) as S1.
    cbv zeta in S1. destruct S1 as (T1 & S1 & D1 & U1).
    pose proof (wf_spill_step b lb cb Hwf) as W1.
    pose proof (spill_step_fields b lb cb) as F. cbv zeta in F.
    destruct F as (FL & _).
    destruct (spill_step (b, lb, cb)) as [[b1 lb1] cb1]. cbn [fst] in *.
    specialize (IH b1 lb1 cb1 _ _ W1 ltac:(lia) ltac:(lia) S1
                  ltac:(intros x Hx; apply Hb; lia) D1 U1).
    cbv zeta in IH. destruct IH as (W2 & L2 & T2 & S2 & D2 & U2).
    cbv zeta. split; [exact W2|]. split; [lia|]. split; [lia|].
    split; [exact S2|]. split.
    + rewrite D2, T1. cbn [absent]. f_equal. lia.
    + rewrite U2, T1. cbn [copies]. f_equal. lia.
Qed.

(** An arrival inside the window adds one to the count of its slot. *)
Lemma bump_mirrors R R' first b b' sn :
  mirrors R first b → wf b' →
  m_tail_sn b' = m_tail_sn b → m_tail_idx b' = m_tail_idx b →
  m_buffer_len b' = m_buffer_len b →
  m_drops b' = m_drops b → m_dups b' = m_dups b →
  m_tail_sn b ≤ sn < m_tail_sn b + m_buffer_len b → R sn < 255 →
  slot b' ((m_tail_idx b + (sn - m_tail_sn b)) mod m_buffer_len b)
  = u8 (slot b ((m_tail_idx b + (sn - m_tail_sn b)) mod m_buffer_len b) + 1) →
  (∀ j, 0 ≤ j < m_buffer_len b →
     j ≠ (m_tail_idx b + (sn - m_tail_sn b)) mod m_buffer_len b →
     slot b' j = slot b j) →
  (∀ x, R' x = if x =? sn then R x + 1 else R x) →
  mirrors R' first b'.
Proof.
  intros [Hwf Ht Hs Hb Hd Hu] Hwf' Et Ei El Ed Eu Hsn Hfull Hp Hj HR.
  pose proof (wf_len b Hwf) as HL. pose proof (wf_tail b Hwf) as Hti.
  split.
  - exact Hwf'.
  - rewrite Et. exact Ht.
  - rewrite Et, Ei, El. intros k Hk. rewrite HR.
    destruct (Hs k Hk) as [Hsk Hrk].
    destruct (Z.eqb_spec (m_tail_sn b + k) sn) as [E|E].
    + replace k with (sn - m_tail_sn b) in * by lia.
      replace (m_tail_sn b + (sn - m_tail_sn b)) with sn in * by lia.
      rewrite Hp, Hsk, u8_small by lia. lia.
    + rewrite Hj; [split; assumption| |].
      * apply Z.mod_pos_bound. lia.
      * rewrite !(mod_wrap _ _ _ Hti) by lia.
        destruct (Z.ltb_spec (m_tail_idx b + k) (m_buffer_len b)),
                 (Z.ltb_spec (m_tail_idx b + (sn - m_tail_sn b)) (m_buffer_len b)); lia.
  - rewrite Et, El. intros x Hx. rewrite HR.
    destruct (Z.eqb_spec x sn); [lia|]. apply Hb. exact Hx.
  - rewrite Ed, Et, Hd. apply absent_ext. intros x Hx. rewrite HR.
    destruct (Z.eqb_spec x sn); [lia|reflexivity].
  - rewrite Eu, Et, Hu. f_equal. apply copies_ext. intros x Hx. rewrite HR.
    destruct (Z.eqb_spec x sn); [lia|reflexivity].
Qed.

Lemma mark_mirrors R R' first b sn :
  mirrors R first b →
  m_tail_sn b ≤ sn < m_tail_sn b + m_buffer_len b → sn < 2 ^ 63 →
  R sn < 255 →
  (∀ x, R' x = if x =? sn then R x + 1 else R x) →
  mirrors R' first (mark b sn).
Proof.
  intros M Hsn Hsn' Hfull HR.
  pose proof (mir_wf _ _ _ M) as Hwf. pose proof (mir_tail _ _ _ M) as Ht.
  pose proof (idx_for_eq b sn Hwf ltac:(lia) Hsn') as Hi.
  pose proof (idx_for_range b sn (wf_len b Hwf)) as Hir.
  pose proof (mark_fields b sn) as F. cbv zeta in F.
  destruct F as (F1 & F2 & F3 & F4 & F5 & _).
  apply (bump_mirrors R R' first b (mark b sn) sn M); try assumption.
  - apply wf_mark. exact Hwf.
  - rewrite <- Hi. apply slot_mark_eq. exact Hwf.
  - intros j Hj Hne. rewrite <- Hi in Hne. apply slot_mark_ne; lia.
Qed.

(** The loop of [spill] on a mirror: what left the window is counted. *)
Lemma spill_loop_keeps_mirror R first n b lb cb :
  mirrors R first b → m_tail_sn b + Z.of_nat n < 2 ^ 63 →
  mirrors R first (spill_loop n (b, lb, cb)).1.1
  ∧ m_tail_sn (spill_loop n (b, lb, cb)).1.1 = m_tail_sn b + Z.of_nat n
  ∧ m_buffer_len (spill_loop n (b, lb, cb)).1.1 = m_buffer_len b.
Proof.
  intros [Hwf Ht Hs Hb Hd Hu] Hn.
  pose proof (absent_bounds R (Z.to_nat (m_tail_sn b - first)) first) as B.
  pose proof (spill_loop_mirrors R n b lb cb _ _ Hwf ltac:(lia) ltac:(lia) Hs Hb
                ltac:(rewrite Hd; symmetry; apply u64_small; lia) Hu) as H.
  cbv zeta in H. destruct H as (W & L & T & S & D & U).
  set (b1 := (spill_loop n (b, lb, cb)).1.1) in *.
  assert (En : Z.to_nat (m_tail_sn b1 - first)
               = (Z.to_nat (m_tail_sn b - first) + n)%nat) by lia.
  assert (Ef : first + Z.of_nat (Z.to_nat (m_tail_sn b - first)) = m_tail_sn b) by lia.
  split; [|split; assumption]. split.
  - exact W.
  - lia.
  - exact S.
  - intros x Hx. apply Hb. lia.
  - rewrite D, En, absent_app, Ef. apply u64_small.
    pose proof (absent_bounds R n (m_tail_sn b)). lia.
  - rewrite U, En, copies_app, Ef. reflexivity.
Qed.

(** The window jumps to an arrival that is the capacity or more beyond
    it: the numbers in between are counted as drops. *)
Lemma jump_mirrors R first b sn :
  mirrors R first b → m_tail_sn b + m_buffer_len b ≤ sn < 2 ^ 63 →
  let st := spill_loop (Z.to_nat (m_buffer_len b))
              (set_drops (u64 (m_drops b
                 + u64 (sn - (m_tail_sn b + m_buffer_len b - 1) - 1))) b, 0, 0) in
  mirrors R first (set_head_idx (m_tail_idx st.1.1) (set_tail_sn sn st.1.1))
  ∧ m_buffer_len st.1.1 = m_buffer_len b
  ∧ m_tail_sn st.1.1 = m_tail_sn b + m_buffer_len b.
Proof.
  intros [Hwf Ht Hs Hb Hd Hu] Hsn.
  pose proof (wf_len b Hwf) as HL.
  pose proof (absent_bounds R (Z.to_nat (m_tail_sn b - first)) first) as B.
  set (g := sn - (m_tail_sn b + m_buffer_len b - 1) - 1).
  set (b0 := set_drops _ b).
  assert (Hwf0 : wf b0) by (destruct Hwf; split; assumption).
  pose proof (spill_loop_mirrors R (Z.to_nat (m_buffer_len b)) b0 0 0
                (absent R first (Z.to_nat (m_tail_sn b - first)) + g) _ Hwf0
                ltac:(subst b0; fields; lia) ltac:(subst b0; fields; lia) Hs Hb
                ltac:(subst b0; fields; rewrite Hd, u64_add_r; reflexivity) Hu) as H.
  cbv zeta in H. destruct H as (W & L & T & S & D & U).
  change (m_tail_sn b0) with (m_tail_sn b) in *.
  change (m_buffer_len b0) with (m_buffer_len b) in *.
  cbv zeta. set (b1 := (spill_loop _ (b0, 0, 0)).1.1) in *.
  rewrite Z2Nat.id in T by lia.
  split; [|split; assumption].
  assert (Ef : first + Z.of_nat (Z.to_nat (m_tail_sn b - first)) = m_tail_sn b) by lia.
  assert (En : Z.to_nat (sn - first)
               = (Z.to_nat (m_tail_sn b - first) + (Z.to_nat (m_buffer_len b)
                  + Z.to_nat g))%nat) by lia.
  destruct (absent_none R (Z.to_nat g) (m_tail_sn b + m_buffer_len b)) as [A0 C0].
  { intros x Hx. apply Hb. lia. }
  split; fields.
  - destruct W; split; fields; assumption.
  - lia.
  - rewrite L. intros k Hk. destruct (S k ltac:(lia)) as [Sk _].
    rewrite L in Sk. unfold slot in *. fields. rewrite Sk, T, !Hb by lia. lia.
  - rewrite L. intros x Hx. apply Hb. lia.
  - rewrite D, En, !absent_app, Ef, Z2Nat.id, A0 by lia.
    pose proof (absent_bounds R (Z.to_nat (m_buffer_len b)) (m_tail_sn b)).
    rewrite u64_small by lia. lia.
  - rewrite U, En, !copies_app, Ef, Z2Nat.id, C0 by lia. f_equal. lia.
Qed.

Lemma mirrors_same_fields R first b b' :
  mirrors R first b → wf b' →
  m_buffer b' = m_buffer b → m_buffer_len b' = m_buffer_len b →
  m_tail_idx b' = m_tail_idx b → m_tail_sn b' = m_tail_sn b →
  m_drops b' = m_drops b → m_dups b' = m_dups b →
  mirrors R first b'.
Proof.
  intros [Hwf Ht Hs Hb Hd Hu] Hwf' Eb El Ei Et Ed Eu.
  split; unfold slot in *; rewrite ?Eb, ?El, ?Ei, ?Et, ?Ed, ?Eu; assumption.
Qed.

(** One arrival on a mirror. *)
Lemma window_step_mirrors R R' first b sn :
  mirrors R first b → orderly_step b sn = true →
  (∀ x, R' x = if x =? sn then R x + 1 else R x) →
  ∃ b' r, window_step b sn = Some (b', r) ∧ mirrors R' first b'
          ∧ m_buffer_len b' = m_buffer_len b
          ∧ m_tail_sn b ≤ m_tail_sn b' ≤ sn
          ∧ sn < m_tail_sn b' + m_buffer_len b.
Proof.
  intros M Ho HR.
  pose proof (mir_wf _ _ _ M) as Hwf. pose proof (mir_tail _ _ _ M) as Ht.
  pose proof (wf_len b Hwf) as HL. pose proof (wf_tail b Hwf) as Hti.
  pose proof (highest_possible_sn_eq b HL ltac:(lia)) as Hh.
  pose proof (lowest_possible_sn_le b ltac:(lia)) as Hl.
  pose proof (idx_for_range b sn HL) as Hir.
  unfold orderly_step in Ho. rewrite Hh in Ho.
  apply andb_true_iff in Ho as [Ho Ho2].
  apply andb_true_iff in Ho as [Ho0 Ho1].
  apply Z.ltb_lt in Ho0, Ho1.
  apply orb_true_iff in Ho2 as [Ho2|Ho2]; [apply Z.eqb_eq in Ho2; lia|].
  apply andb_true_iff in Ho2 as [Ho2 Ho3]. apply Z.leb_le in Ho2.
  pose proof (idx_for_eq b sn Hwf ltac:(lia) Ho1) as Hi.
  unfold window_step.
  destruct (Z.eqb_spec (m_tail_sn b) 0); [lia|].
  destruct (Z.ltb_spec sn (lowest_possible_sn b)); [lia|].
  rewrite Hh.
  destruct (Z.leb_spec sn (m_tail_sn b + m_buffer_len b - 1)) as [Hin|Hout].
  - (* inside the window *)
    apply Z.ltb_lt in Ho3.
    replace (_ && _) with true by (symmetry; apply andb_true_iff; split; lia).
    exists (mark b sn), 0. split; [reflexivity|].
    pose proof (mark_fields b sn) as F. cbv zeta in F.
    destruct F as (F1 & _ & F3 & _).
    split; [|rewrite F1, F3; lia].
    apply (mark_mirrors R R' first b sn M); try assumption; try lia.
    clear HR. destruct (mir_slots _ _ _ M (sn - m_tail_sn b) ltac:(lia)) as [Hs _].
    rewrite <- Hi in Hs.
    replace (m_tail_sn b + (sn - m_tail_sn b)) with sn in Hs by lia. lia.
  - (* beyond the window *)
    cbv zeta in Ho3. apply andb_true_iff in Ho3 as [Ho3 Ho4].
    apply Z.ltb_lt in Ho3.
    rewrite spill_unfold. cbv zeta. rewrite Hh.
    rewrite (u64_small (sn - _)), (s32_small (sn - _)) by lia.
    destruct (Z.leb_spec (sn - (m_tail_sn b + m_buffer_len b - 1)) 0); [lia|].
    destruct (Z.geb_spec (sn - (m_tail_sn b + m_buffer_len b - 1)) (m_buffer_len b))
      as [Hfar|Hnear].
    + (* the capacity or more beyond it *)
      pose proof (jump_mirrors R first b sn M ltac:(lia)) as J. cbv zeta in J.
      destruct J as (M2 & L2 & T2).
      set (st := spill_loop _ _) in *.
      pose proof (mir_wf _ _ _ M2) as Hwf2.
      assert (Hwf3 : wf st.1.1)
        by (apply spill_loop_wf; destruct Hwf; split; assumption).
      pose proof (wf_tail _ Hwf3) as Hti2.
      destruct (negb _) eqn:Hg; eexists _, _; (split; [reflexivity|]);
        (split; [|try (pose proof (mark_fields st.1.1 sn) as F; cbv zeta in F;
                       destruct F as (F1 & _ & F3 & _); rewrite F1, F3);
                  try apply negb_false_iff, Z.eqb_eq in Hg; fields; lia]).
      * eapply (bump_mirrors R R' first _ _ sn M2); fields; try reflexivity;
          try lia.
        -- destruct Hwf2 as [W1 W2 W3 W4]. split; fields; try assumption.
           rewrite length_insert. exact W2.
        -- rewrite (mir_beyond _ _ _ M) by lia. lia.
        -- rewrite L2, Z.sub_diag, Z.add_0_r, Z.mod_small by lia.
           rewrite slot_store_eq; [reflexivity|fields; lia|].
           fields. apply (wf_buffer _ Hwf3).
        -- rewrite L2, Z.sub_diag, Z.add_0_r, Z.mod_small by lia.
           intros j Hj Hne. apply slot_store_ne; lia.
        -- exact HR.
      * apply negb_false_iff, Z.eqb_eq in Hg.
        assert (M3 : mirrors R first st.1.1).
        { apply (mirrors_same_fields R first _ _ M2 Hwf3); fields;
            try reflexivity. lia. }
        apply (mark_mirrors R R' first _ sn M3); try lia; try exact HR.
        rewrite (mir_beyond _ _ _ M) by lia. lia.
    + (* nearer: the loop runs once for each number of the distance *)
      apply orb_true_iff in Ho4 as [Ho4|Ho4]; apply Z.leb_le in Ho4; [lia|].
      rewrite Z.min_r by lia.
      destruct (spill_loop_keeps_mirror R first
                  (Z.to_nat (sn - (m_tail_sn b + m_buffer_len b - 1))) b 0 0 M
                  ltac:(lia)) as (M2 & T2 & L2).
      set (st := spill_loop _ _) in *.
      eexists _, _. split; [reflexivity|].
      pose proof (mark_fields st.1.1 sn) as F. cbv zeta in F.
      destruct F as (F1 & _ & F3 & _).
      split; [|rewrite F1, F3; lia].
      apply (mark_mirrors R R' first _ sn M2); try lia; try exact HR.
      rewrite (mir_beyond _ _ _ M) by lia. lia.
Qed.

Lemma times_snoc pre sn x :
  times (pre ++ [sn]) x = if x =? sn then times pre x + 1 else times pre x.
Proof.
  unfold times. rewrite count_snoc. cbv beta. rewrite (Z.eqb_sym sn x).
  destruct (x =? sn); lia.
Qed.

Lemma window_run_mirrors first rest : ∀ pre b,
  mirrors (times pre) first b → orderly b rest = true →
  ∃ b', window_run b rest = Some b' ∧ mirrors (times (pre ++ rest)) first b'.
Proof.
  induction rest as [|sn rest IH]; intros pre b M Ho.
  - exists b. rewrite app_nil_r. split; [reflexivity|exact M].
  - cbn [orderly] in Ho. apply andb_true_iff in Ho as [Ho1 Ho2].
    assert (M' : mirrors (times pre) first (received b sn)).
    { apply (mirrors_same_fields _ _ _ _ M); try reflexivity.
      destruct (mir_wf _ _ _ M); split; assumption. }
    destruct (window_step_mirrors _ (times (pre ++ [sn])) first
                (received b sn) sn M' Ho1 (times_snoc pre sn))
      as (b1 & r & Hs & M1 & _).
    rewrite Hs in Ho2. cbn [window_run]. rewrite Hs.
    destruct (IH _ _ M1 Ho2) as (b' & Hr & M2).
    exists b'. split; [exact Hr|]. rewrite <- app_assoc in M2. exact M2.
Qed.

Lemma first_mirrors len first :
  0 < len < 2 ^ 31 → 0 < first < 2 ^ 63 →
  mirrors (times [first]) first
    (store 0 1 (set_head_idx 0 (set_tail_sn first
       (received (new_buffer len) first)))).
Proof.
  intros Hlen Hf.
  pose proof (wf_new_buffer len Hlen) as [W1 W2 W3 W4].
  unfold new_buffer in *.
  split; fields.
  - split; fields; try assumption; try lia. rewrite length_insert. exact W2.
  - lia.
  - intros k Hk. rewrite Z.add_0_l, Z.mod_small by lia.
    unfold slot, times, count. fields. cbn [List.filter].
    destruct (Z.eqb_spec first (first + k)) as [E|E].
    + replace k with 0 by lia. cbn [length].
      rewrite list_lookup_total_insert_eq by (rewrite length_replicate; lia). lia.
    + cbn [length]. rewrite list_lookup_total_insert_ne by lia.
      rewrite lookup_total_replicate_2 by lia. lia.
  - intros x Hx. unfold times, count. cbn [List.filter].
    destruct (Z.eqb_spec first x); [lia|reflexivity].
  - rewrite Z.sub_diag. reflexivity.
  - rewrite Z.sub_diag. reflexivity.
Qed.

Lemma same_window_tail_sn b1 b2 :
  same_window b1 b2 → m_tail_sn b1 = m_tail_sn b2.
Proof. intros H. apply (f_equal m_tail_sn) in H. exact H. Qed.

Lemma run_mirrors len a evs :
  0 < len < 2 ^ 31 →
  orderly (new_buffer len) (a_sn <$> a :: evs) = true →
  ∃ c b, run (start len) (a :: evs) = Some c ∧ same_window (rb c) b
         ∧ mirrors (times (a_sn <$> a :: evs)) (a_sn a) b.
Proof.
  intros Hlen Ho.
  cbn [fmap list_fmap orderly] in Ho. apply andb_true_iff in Ho as [Ho1 Ho2].
  change (window_step (received (new_buffer len) (a_sn a)) (a_sn a))
    with (Some (store 0 1 (set_head_idx 0 (set_tail_sn (a_sn a)
                 (received (new_buffer len) (a_sn a)))), 0)) in Ho2.
  cbv iota beta in Ho2.
  unfold orderly_step in Ho1.
  apply andb_true_iff in Ho1 as [Ho1 _].
  apply andb_true_iff in Ho1 as [H0 H1]. apply Z.ltb_lt in H0, H1.
  destruct (window_run_mirrors (a_sn a) (a_sn <$> evs) [a_sn a] _
              (first_mirrors len (a_sn a) Hlen ltac:(lia)) Ho2)
    as (b' & Hr & M).
  pose proof (run_window_run (a :: evs) (start len) (new_buffer len)
                ltac:(reflexivity)) as H.
  cbn [fmap list_fmap window_run] in H.
  change (window_step (received (new_buffer len) (a_sn a)) (a_sn a))
    with (Some (store 0 1 (set_head_idx 0 (set_tail_sn (a_sn a)
                 (received (new_buffer len) (a_sn a)))), 0)) in H.
  cbv iota beta in H. rewrite Hr in H. destruct H as (c & Hc & Hw).
  exists c, b'. split; [exact Hc|]. split; [exact Hw|exact M].
Qed.

(** X7. Let every arrival be positive and below 2^63, every one after
    the first be not below the tail at the time of its call, and either
    inside the window on a counter below 255, or beyond
    [highest_possible_sn] by a distance that is less than 2^31 and either
    the capacity or more, or no more than the occupancy.  Then the run
    does not abort, [drops()] is the number of sequence numbers between
    the first arrival and the tail that never arrived, and
    [duplicates()] counts, modulo 2^64, the copies after the first of
    those that did. *)
Theorem counters_count_what_left len a evs :
  0 < len < 2 ^ 31 →
  orderly (new_buffer len) (a_sn <$> a :: evs) = true →
  ∃ c, run (start len) (a :: evs) = Some c
       ∧ a_sn a ≤ m_tail_sn (rb c)
       ∧ drops (rb c)
         = absent (times (a_sn <$> a :: evs)) (a_sn a)
             (Z.to_nat (m_tail_sn (rb c) - a_sn a))
       ∧ dups (rb c)
         = u64 (copies (times (a_sn <$> a :: evs)) (a_sn a)
                  (Z.to_nat (m_tail_sn (rb c) - a_sn a))).
Proof.
  intros Hlen Ho.
  destruct (run_mirrors len a evs Hlen Ho) as (c & b & Hc & Hw & M).
  exists c. split; [exact Hc|].
  destruct (same_window_fields _ _ Hw) as (_ & _ & _ & Ed & Eu).
  unfold drops, dups.
  rewrite (same_window_tail_sn _ _ Hw), Ed, Eu.
  split; [apply (mir_tail _ _ _ M)|].
  split; [apply (mir_drops _ _ _ M)|apply (mir_dups _ _ _ M)].
Qed.

Lemma counters_count_what_left_witness :
  ∃ c, run (start 8) (mkArrival 2 2 0 :: arrivals 0 [4; 4; 3; 7; 12; 13; 40; 41; 41; 43; 51]) = Some c
       ∧ 2 ≤ m_tail_sn (rb c)
       ∧ drops (rb c)
         = absent (times (a_sn <$> mkArrival 2 2 0 :: arrivals 0 [4; 4; 3; 7; 12; 13; 40; 41; 41; 43; 51])) 2
             (Z.to_nat (m_tail_sn (rb c) - 2))
       ∧ dups (rb c)
         = u64 (copies (times (a_sn <$> mkArrival 2 2 0 :: arrivals 0 [4; 4; 3; 7; 12; 13; 40; 41; 41; 43; 51])) 2
                  (Z.to_nat (m_tail_sn (rb c) - 2))).
Proof.
  apply (counters_count_what_left 8 (mkArrival 2 2 0)
           (arrivals 0 [4; 4; 3; 7; 12; 13; 40; 41; 41; 43; 51])).
  - lia.
  - vm_compute. reflexivity.
Defined.

(** ** A stream that arrives in order *)

(** An arrival no more than one beyond the window, on a window whose
    tail slot is marked, ends no burst. *)
Lemma window_step_next b sn b' r :
  wf b → 0 < m_tail_sn b < 2 ^ 63 →
  sn ≤ m_tail_sn b + m_buffer_len b → slot b (m_tail_idx b) ≠ 0 →
  window_step b sn = Some (b', r) → r = 0.
Proof.
  intros Hwf Ht Hsn Hslot.
  pose proof (wf_len b Hwf) as HL.
  pose proof (highest_possible_sn_eq b HL ltac:(lia)) as Hh.
  destruct (occupancy_value b Hwf) as [_ Ho]. specialize (Ho ltac:(lia)).
  destruct Ho as [Ho _].
  unfold window_step.
  destruct (m_tail_sn b =? 0); [congruence|].
  destruct (sn <? lowest_possible_sn b); [congruence|].
  rewrite Hh.
  destruct (Z.leb_spec sn (m_tail_sn b + m_buffer_len b - 1)).
  { destruct (_ && _); congruence. }
  rewrite spill_unfold. cbv zeta. rewrite Hh.
  replace (sn - (m_tail_sn b + m_buffer_len b - 1)) with 1 by lia.
  change (s32 (u64 1)) with 1. change (1 <=? 0) with false. cbv iota.
  change (1 - 1) with 0. change (negb (0 =? 0)) with false. cbv iota.
  destruct (Z.geb_spec 1 (m_buffer_len b)).
  - replace (Z.to_nat (m_buffer_len b)) with 1%nat by lia.
    cbn [spill_loop].
    pose proof (spill_step_good_slot
                  (set_drops (u64 (m_drops b + u64 0)) b) 0 0 Hslot) as G.
    destruct (spill_step _) as [[b1 lb1] cb1]. destruct G as (-> & -> & _).
    cbn [fst snd]. intros [= <- <-]. reflexivity.
  - rewrite Z.min_r by lia. change (Z.to_nat 1) with 1%nat.
    cbn [spill_loop].
    pose proof (spill_step_good_slot b 0 0 Hslot) as G.
    destruct (spill_step _) as [[b1 lb1] cb1]. destruct G as (-> & -> & _).
    cbn [fst snd]. intros [= <- <-]. reflexivity.
Qed.

Lemma in_order_step R first last b :
  mirrors R first b →
  (∀ x, R x = if (first <=? x) && (x <=? last) then 1 else 0) →
  m_tail_sn b ≤ last < m_tail_sn b + m_buffer_len b → last + 1 < 2 ^ 63 →
  ∃ b' R',
    window_step b (last + 1) = Some (b', 0)
    ∧ mirrors R' first b'
    ∧ (∀ x, R' x = if (first <=? x) && (x <=? last + 1) then 1 else 0)
    ∧ m_tail_sn b' ≤ last + 1 < m_tail_sn b' + m_buffer_len b'
    ∧ m_drops b' = 0 ∧ m_dups b' = 0.
Proof.
  intros M HR Hlast Hbound.
  pose proof (mir_wf _ _ _ M) as Hwf. pose proof (mir_tail _ _ _ M) as Ht.
  pose proof (wf_len b Hwf) as HL. pose proof (wf_tail b Hwf) as Hti.
  pose proof (highest_possible_sn_eq b HL ltac:(lia)) as Hh.
  destruct (occupancy_value b Hwf) as [_ Ho]. specialize (Ho ltac:(lia)).
  destruct Ho as [Ho _].
  assert (Hord : orderly_step b (last + 1) = true).
  { unfold orderly_step. rewrite Hh.
    replace (0 <? last + 1) with true by (symmetry; apply Z.ltb_lt; lia).
    replace (last + 1 <? 2 ^ 63) with true by (symmetry; apply Z.ltb_lt; lia).
    replace (m_tail_sn b <=? last + 1) with true by (symmetry; apply Z.leb_le; lia).
    cbn [andb]. apply orb_true_iff. right. cbn [andb].
    destruct (Z.leb_spec (last + 1) (m_tail_sn b + m_buffer_len b - 1)).
    - apply Z.ltb_lt.
      rewrite (idx_for_eq b (last + 1) Hwf ltac:(lia) ltac:(lia)).
      destruct (mir_slots _ _ _ M (last + 1 - m_tail_sn b) ltac:(lia)) as [-> _].
      rewrite HR.
      replace (m_tail_sn b + (last + 1 - m_tail_sn b) <=? last)
        with false by (symmetry; apply Z.leb_gt; lia).
      rewrite andb_false_r. lia.
    - cbv zeta. apply andb_true_iff. split; [apply Z.ltb_lt; lia|].
      apply orb_true_iff. right. apply Z.leb_le. lia. }
  set (R' := λ x, if x =? last + 1 then R x + 1 else R x).
  destruct (window_step_mirrors R R' first b (last + 1) M Hord ltac:(reflexivity))
    as (b' & r & Hs & M' & L' & T' & H').
  assert (Hr : r = 0).
  { apply (window_step_next b (last + 1) b' r Hwf ltac:(lia) ltac:(lia)); [|exact Hs].
    destruct (mir_slots _ _ _ M 0 ltac:(lia)) as [S0 _].
    rewrite Z.add_0_r, Z.mod_small in S0 by lia. rewrite S0, Z.add_0_r, HR.
    replace (first <=? m_tail_sn b) with true by (symmetry; apply Z.leb_le; lia).
    replace (m_tail_sn b <=? last) with true by (symmetry; apply Z.leb_le; lia).
    discriminate. }
  subst r.
  assert (HR' : ∀ x, R' x = if (first <=? x) && (x <=? last + 1) then 1 else 0).
  { intros x. unfold R'. rewrite HR.
    destruct (Z.eqb_spec x (last + 1)), (Z.leb_spec first x),
             (Z.leb_spec x last), (Z.leb_spec x (last + 1)); cbn; lia. }
  destruct (absent_all R' (Z.to_nat (m_tail_sn b' - first)) first) as [A C].
  { intros x Hx. rewrite HR'.
    replace (first <=? x) with true by (symmetry; apply Z.leb_le; lia).
    replace (x <=? last + 1) with true by (symmetry; apply Z.leb_le; lia).
    reflexivity. }
  exists b', R'. split; [exact Hs|]. split; [exact M'|]. split; [exact HR'|].
  split; [lia|]. rewrite (mir_drops _ _ _ M'), (mir_dups _ _ _ M'), A, C.
  split; reflexivity.
Qed.

Lemma window_trace_in_order port n : ∀ R first last b,
  mirrors R first b →
  (∀ x, R x = if (first <=? x) && (x <=? last) then 1 else 0) →
  m_tail_sn b ≤ last < m_tail_sn b + m_buffer_len b →
  last + Z.of_nat n < 2 ^ 63 →
  window_trace b (a_sn <$> in_order port (last + 1) 1 n)
  = Some (replicate n (mkObservation 0 0 0)).
Proof.
  induction n as [|n IH]; intros R first last b M HR Hlast Hn; [reflexivity|].
  cbn [in_order fmap list_fmap window_trace a_sn replicate].
  assert (M' : mirrors R first (received b (last + 1))).
  { apply (mirrors_same_fields _ _ _ _ M); try reflexivity.
    destruct (mir_wf _ _ _ M); split; assumption. }
  destruct (in_order_step R first last _ M' HR Hlast ltac:(lia))
    as (b' & R' & Hs & M1 & HR1 & Hl1 & D1 & U1).
  rewrite Hs.
  change (list_fmap Arrival Z a_sn (in_order port (last + 1 + 1) 1 n))
    with (a_sn <$> in_order port (last + 1 + 1) 1 n).
  rewrite (IH R' first (last + 1) b' M1 HR1 Hl1 ltac:(lia)).
  unfold drops, dups. rewrite D1, U1. reflexivity.
Qed.

(** X8. A stream that arrives in order and without loss is clean at any
    capacity: every call returns 0, and [drops()] and [duplicates()] are
    0 after every call. *)
Theorem in_order_stream_is_clean len port first n :
  0 < len < 2 ^ 31 → 0 < first → first + Z.of_nat n ≤ 2 ^ 63 →
  trace (start len) (in_order port first 1 n)
  = Some (replicate n (mkObservation 0 0 0)).
Proof.
  intros Hlen Hf Hn. destruct n as [|n]; [reflexivity|].
  rewrite (trace_window_trace _ (start len) (new_buffer len)) by reflexivity.
  cbn [in_order fmap list_fmap window_trace a_sn replicate].
  change (window_step (received (new_buffer len) first) first)
    with (Some (store 0 1 (set_head_idx 0 (set_tail_sn first
                 (received (new_buffer len) first))), 0)).
  cbv iota beta.
  change (list_fmap Arrival Z a_sn (in_order port (first + 1) 1 n))
    with (a_sn <$> in_order port (first + 1) 1 n).
  rewrite (window_trace_in_order port n (times [first]) first first _
             (first_mirrors len first Hlen ltac:(lia))).
  - reflexivity.
  - intros x. unfold times, count. cbn [List.filter].
    destruct (Z.eqb_spec first x), (Z.leb_spec first x), (Z.leb_spec x first);
      cbn; lia.
  - fields. unfold new_buffer. fields. lia.
  - lia.
Qed.

Lemma in_order_stream_is_clean_witness :
  trace (start 3) (in_order 7 5 1 10)
  = Some (replicate 10 (mkObservation 0 0 0)).
Proof. apply (in_order_stream_is_clean 3 7 5 10); lia. Defined.

(** * A gap in a steady stream *)

Lemma mark_head b sn :
  m_head_idx (mark b sn)
  = if sn >? largest_sn b then idx_for b sn else m_head_idx b.
Proof.
  unfold mark, largest_sn. cbv zeta. destruct (sn >? _); reflexivity.
Qed.

(** The occupancy of a window whose head is the slot of [last]. *)
Lemma occupancy_fronted b last :
  wf b → m_tail_sn b ≠ 0 →
  0 ≤ last - m_tail_sn b < m_buffer_len b →
  m_head_idx b = (m_tail_idx b + (last - m_tail_sn b)) mod m_buffer_len b →
  last - m_tail_sn b ≤ occupancy b ≤ last - m_tail_sn b + 1
  ∧ 1 ≤ occupancy b ≤ m_buffer_len b.
Proof.
  intros Hwf Ht Hk Hh.
  pose proof (wf_tail b Hwf) as Hti.
  destruct (occupancy_value b Hwf) as [_ Ho]. destruct (Ho Ht) as [Hb He].
  split; [|exact Hb]. rewrite He, Hh.
  rewrite (mod_wrap _ _ _ Hti) by lia.
  destruct (Z.ltb_spec (m_tail_idx b + (last - m_tail_sn b)) (m_buffer_len b)).
  - replace (m_tail_idx b + (last - m_tail_sn b) - m_tail_idx b)
      with (last - m_tail_sn b) by lia.
    rewrite Z.mod_small by lia.
    destruct (Z.ltb_spec (m_tail_idx b + (last - m_tail_sn b)) (m_tail_idx b)); lia.
  - replace (m_tail_idx b + (last - m_tail_sn b) - m_buffer_len b - m_tail_idx b)
      with (last - m_tail_sn b + (-1) * m_buffer_len b) by lia.
    rewrite Z.mod_add, Z.mod_small by lia.
    destruct (Z.ltb_spec (m_tail_idx b + (last - m_tail_sn b) - m_buffer_len b)
                (m_tail_idx b)); lia.
Qed.

(** An arrival above every earlier one, on a window whose head is the
    slot of the newest arrival [last]: the window takes it in, moves its
    tail just far enough, and makes the slot of the arrival its head. *)
Lemma append_step R R' first last b sn :
  mirrors R first b → (∀ x, last < x → R x = 0) →
  m_tail_sn b ≤ last < m_tail_sn b + m_buffer_len b →
  m_head_idx b = (m_tail_idx b + (last - m_tail_sn b)) mod m_buffer_len b →
  last < sn < 2 ^ 63 →
  sn - (m_tail_sn b + m_buffer_len b - 1) < 2 ^ 31 →
  (sn - (m_tail_sn b + m_buffer_len b - 1) < m_buffer_len b →
   sn - (m_tail_sn b + m_buffer_len b - 1) ≤ Z.max 1 (last - m_tail_sn b)) →
  (∀ x, R' x = if x =? sn then R x + 1 else R x) →
  ∃ b' r,
    window_step b sn = Some (b', r)
    ∧ mirrors R' first b'
    ∧ m_buffer_len b' = m_buffer_len b
    ∧ m_tail_sn b'
      = (if sn - (m_tail_sn b + m_buffer_len b - 1) >=? m_buffer_len b then sn
         else Z.max (m_tail_sn b) (sn - m_buffer_len b + 1))
    ∧ m_head_idx b' = (m_tail_idx b' + (sn - m_tail_sn b')) mod m_buffer_len b'.
Proof.
  intros M Hz Hlast Hhead Hsn Hfar Hnear HR.
  pose proof (mir_wf _ _ _ M) as Hwf. pose proof (mir_tail _ _ _ M) as Ht.
  pose proof (wf_len b Hwf) as HL. pose proof (wf_tail b Hwf) as Hti.
  pose proof (highest_possible_sn_eq b HL ltac:(lia)) as Hh.
  pose proof (lowest_possible_sn_le b ltac:(lia)) as Hl.
  pose proof (idx_for_range b sn HL) as Hir.
  pose proof (idx_for_eq b sn Hwf ltac:(lia) ltac:(lia)) as Hi.
  destruct (occupancy_fronted b last Hwf ltac:(lia) ltac:(lia) Hhead) as [Ho Ho'].
  assert (Hord : orderly_step b sn = true).
  { unfold orderly_step. rewrite Hh.
    replace (0 <? sn) with true by (symmetry; apply Z.ltb_lt; lia).
    replace (sn <? 2 ^ 63) with true by (symmetry; apply Z.ltb_lt; lia).
    replace (m_tail_sn b <=? sn) with true by (symmetry; apply Z.leb_le; lia).
    cbn [andb]. apply orb_true_iff. right. cbn [andb].
    destruct (Z.leb_spec sn (m_tail_sn b + m_buffer_len b - 1)).
    - apply Z.ltb_lt. rewrite Hi.
      destruct (mir_slots _ _ _ M (sn - m_tail_sn b) ltac:(lia)) as [-> _].
      rewrite Hz by lia. lia.
    - cbv zeta. apply andb_true_iff. split; [apply Z.ltb_lt; lia|].
      apply orb_true_iff.
      destruct (Z.le_gt_cases (m_buffer_len b)
                  (sn - (m_tail_sn b + m_buffer_len b - 1))).
      + left. apply Z.leb_le. lia.
      + right. apply Z.leb_le. lia. }
  destruct (window_step_mirrors R R' first b sn M Hord HR)
    as (b' & r & Hs & M' & L' & T' & H').
  exists b', r. split; [exact Hs|]. split; [exact M'|]. split; [exact L'|].
  pose proof (mir_wf _ _ _ M') as Hwf'.
  revert Hs. unfold window_step.
  destruct (Z.eqb_spec (m_tail_sn b) 0); [lia|].
  destruct (Z.ltb_spec sn (lowest_possible_sn b)); [lia|].
  rewrite Hh.
  destruct (Z.leb_spec sn (m_tail_sn b + m_buffer_len b - 1)) as [Hin|Hout].
  - (* inside the window *)
    replace (_ && _) with true by (symmetry; apply andb_true_iff; split; lia).
    intros [= <- <-].
    pose proof (mark_fields b sn) as F. cbv zeta in F.
    destruct F as (F1 & F2 & F3 & _).
    rewrite F1, F2, F3, mark_head.
    destruct (Z.geb_spec (sn - (m_tail_sn b + m_buffer_len b - 1)) (m_buffer_len b));
      [lia|].
    split; [lia|]. unfold largest_sn.
    rewrite (u64_small (occupancy b)), (u64_small (_ + _)), (u64_small (_ - 1))
      by lia.
    destruct (Z.gtb_spec sn (m_tail_sn b + occupancy b - 1)); [exact Hi|lia].
  - (* beyond the window *)
    rewrite spill_unfold. cbv zeta. rewrite Hh.
    rewrite (u64_small (sn - _)), (s32_small (sn - _)) by lia.
    destruct (Z.leb_spec (sn - (m_tail_sn b + m_buffer_len b - 1)) 0); [lia|].
    destruct (Z.geb_spec (sn - (m_tail_sn b + m_buffer_len b - 1)) (m_buffer_len b))
      as [Hjump|Hslide].
    + set (b0 := set_drops _ b).
      assert (Hwf0 : wf b0) by (destruct Hwf; split; assumption).
      pose proof (spill_loop_shape (Z.to_nat (m_buffer_len b)) b0 0 0 Hwf0
                    ltac:(subst b0; fields; lia) ltac:(subst b0; fields; lia)) as S.
      cbv zeta in S. destruct S as (W2 & L2 & _ & T2 & I2).
      change (m_tail_sn b0) with (m_tail_sn b) in T2.
      change (m_buffer_len b0) with (m_buffer_len b) in L2.
      set (st := spill_loop _ _) in *.
      pose proof (wf_tail _ W2) as Hti2.
      destruct (negb _) eqn:Hg; intros [= <- <-].
      * fields. split; [reflexivity|].
        rewrite Z.sub_diag, Z.add_0_r, Z.mod_small; lia.
      * apply negb_false_iff, Z.eqb_eq in Hg.
        pose proof (mark_fields st.1.1 sn) as F. cbv zeta in F.
        destruct F as (F1 & F2 & F3 & _).
        rewrite F3, T2. split; [lia|].
        pose proof (wf_head _ Hwf') as Hh'. pose proof (wf_len _ Hwf') as HL'.
        assert (m_buffer_len (mark st.1.1 sn) = 1) by lia.
        replace (m_buffer_len (mark st.1.1 sn)) with 1 in *.
        rewrite Z.mod_1_r. lia.
    + rewrite Z.min_r by lia.
      pose proof (spill_loop_shape
                    (Z.to_nat (sn - (m_tail_sn b + m_buffer_len b - 1))) b 0 0 Hwf
                    ltac:(lia) ltac:(lia)) as S.
      cbv zeta in S. destruct S as (W2 & L2 & _ & T2 & I2).
      set (st := spill_loop _ _) in *. rewrite Z2Nat.id in T2 by lia.
      intros [= <- <-].
      pose proof (mark_fields st.1.1 sn) as F. cbv zeta in F.
      destruct F as (F1 & F2 & F3 & _).
      rewrite F1, F2, F3, T2, L2, mark_head. split; [lia|].
      pose proof (wf_tail _ W2) as Hti2. pose proof (wf_head _ W2) as Hhd2.
      rewrite L2 in Hti2, Hhd2.
      pose proof (idx_for_eq st.1.1 sn W2 ltac:(lia) ltac:(lia)) as Hi2.
      rewrite T2, L2 in Hi2.
      destruct (sn >? largest_sn st.1.1) eqn:Hup; [exact Hi2|].
      rewrite Z.gtb_ltb in Hup. apply Z.ltb_ge in Hup. unfold largest_sn in Hup.
      destruct (occupancy_value st.1.1 W2) as [_ Ho2].
      destruct (Ho2 ltac:(lia)) as [Hb2 He2]. rewrite L2 in Hb2, He2.
      rewrite (u64_small (occupancy st.1.1)), (u64_small (_ + _)),
        (u64_small (_ - 1)) in Hup by lia.
      rewrite T2 in Hup.
      pose proof (Z.mod_pos_bound (m_head_idx st.1.1 - m_tail_idx st.1.1)
                    (m_buffer_len b) ltac:(lia)) as Hm.
      destruct (Z.ltb_spec (m_head_idx st.1.1) (m_tail_idx st.1.1)); [lia|].
      rewrite Z.mod_small in He2 by lia.
      replace (sn - (m_tail_sn b + (sn - (m_tail_sn b + m_buffer_len b - 1))))
        with (m_buffer_len b - 1) by lia.
      replace (m_tail_idx st.1.1) with 0 by lia.
      rewrite Z.mod_small; lia.
Qed.

Lemma window_run_app l1 : ∀ b l2,
  window_run b (l1 ++ l2) = window_run b l1 ≫= λ b1, window_run b1 l2.
Proof.
  induction l1 as [|sn l1 IH]; intros b l2; [reflexivity|].
  cbn [app window_run].
  destruct (window_step (received b sn) sn) as [[b1 r]|]; [apply IH|reflexivity].
Qed.

Lemma in_order_steps port n : ∀ R first A B last b,
  mirrors R first b → (∀ x, R x = with_gap first A B last x) →
  B ≤ last + 1 →
  m_tail_sn b ≤ last < m_tail_sn b + m_buffer_len b →
  m_head_idx b = (m_tail_idx b + (last - m_tail_sn b)) mod m_buffer_len b →
  last + Z.of_nat n < 2 ^ 63 →
  ∃ b' R',
    window_run b (a_sn <$> in_order port (last + 1) 1 n) = Some b'
    ∧ mirrors R' first b'
    ∧ (∀ x, R' x = with_gap first A B (last + Z.of_nat n) x)
    ∧ m_buffer_len b' = m_buffer_len b
    ∧ m_tail_sn b'
      = Z.max (m_tail_sn b) (last + Z.of_nat n - m_buffer_len b + 1)
    ∧ m_head_idx b'
      = (m_tail_idx b' + (last + Z.of_nat n - m_tail_sn b')) mod m_buffer_len b'.
Proof.
  induction n as [|n IH]; intros R first A B last b M HR HB Hlast Hhead Hn.
  - exists b, R. cbn [in_order fmap list_fmap window_run]. rewrite !Z.add_0_r.
    split; [reflexivity|]. split; [exact M|]. split; [exact HR|].
    split; [reflexivity|]. split; [lia|exact Hhead].
  - cbn [in_order fmap list_fmap window_run a_sn].
    pose proof (wf_len _ (mir_wf _ _ _ M)) as HL.
    assert (M' : mirrors R first (received b (last + 1))).
    { apply (mirrors_same_fields _ _ _ _ M); try reflexivity.
      destruct (mir_wf _ _ _ M); split; assumption. }
    assert (Hz : ∀ x, last < x → R x = 0).
    { intros x Hx. rewrite HR. unfold with_gap.
      replace (x <=? last) with false by (symmetry; apply Z.leb_gt; lia).
      rewrite andb_false_r. reflexivity. }
    destruct (append_step R (λ x, if x =? last + 1 then R x + 1 else R x)
                first last (received b (last + 1)) (last + 1) M' Hz Hlast Hhead
                ltac:(lia) ltac:(fields; lia) ltac:(fields; lia)
                ltac:(reflexivity))
      as (b1 & r & Hs & M1 & L1 & T1 & H1).
    fields.
    rewrite Hs.
    change (list_fmap Arrival Z a_sn (in_order port (last + 1 + 1) 1 n))
      with (a_sn <$> in_order port (last + 1 + 1) 1 n).
    assert (T1' : m_tail_sn b1 = Z.max (m_tail_sn b) (last + 1 - m_buffer_len b + 1)).
    { rewrite T1.
      destruct (Z.geb_spec (last + 1 - (m_tail_sn b + m_buffer_len b - 1))
                  (m_buffer_len b)); lia. }
    pose proof (mir_tail _ _ _ M) as Ht.
    destruct (IH _ first A B (last + 1) b1 M1) as (b2 & R2 & Hr & M2 & HR2 & L2 & T2 & H2);
      try lia; try assumption.
    { intros x. cbv beta. rewrite HR. unfold with_gap.
      destruct (Z.eqb_spec x (last + 1)), (Z.leb_spec first x),
               (Z.leb_spec x last), (Z.leb_spec x (last + 1)),
               (Z.ltb_spec A x), (Z.ltb_spec x B); cbn; lia. }
    exists b2, R2. split; [exact Hr|]. split; [exact M2|].
    replace (last + Z.of_nat (S n)) with (last + 1 + Z.of_nat n) by lia.
    split; [exact HR2|]. split; [lia|]. split; [lia|exact H2].
Qed.

Lemma absent_with_gap R first A B last tail :
  (∀ x, R x = with_gap first A B last x) →
  first ≤ A + 1 → A + 1 ≤ B → B ≤ tail → tail ≤ last + 1 →
  absent R first (Z.to_nat (tail - first)) = B - A - 1
  ∧ copies R first (Z.to_nat (tail - first)) = 0.
Proof.
  intros HR H1 H2 H3 H4.
  replace (Z.to_nat (tail - first))
    with (Z.to_nat (A + 1 - first)
          + (Z.to_nat (B - A - 1) + Z.to_nat (tail - B)))%nat by lia.
  rewrite !absent_app, !copies_app.
  rewrite !Z2Nat.id by lia.
  replace (first + (A + 1 - first)) with (A + 1) by lia.
  replace (A + 1 + (B - A - 1)) with B by lia.
  destruct (absent_all R (Z.to_nat (A + 1 - first)) first) as [-> ->].
  { intros x Hx. rewrite HR. unfold with_gap.
    destruct (Z.leb_spec first x), (Z.leb_spec x last), (Z.ltb_spec A x),
             (Z.ltb_spec x B); cbn; lia. }
  destruct (absent_none R (Z.to_nat (B - A - 1)) (A + 1)) as [-> ->].
  { intros x Hx. rewrite HR. unfold with_gap.
    destruct (Z.leb_spec first x), (Z.leb_spec x last), (Z.ltb_spec A x),
             (Z.ltb_spec x B); cbn; lia. }
  destruct (absent_all R (Z.to_nat (tail - B)) B) as [-> ->].
  { intros x Hx. rewrite HR. unfold with_gap.
    destruct (Z.leb_spec first x), (Z.leb_spec x last), (Z.ltb_spec A x),
             (Z.ltb_spec x B); cbn; lia. }
  lia.
Qed.

Lemma gap_window_run len port first (N M : nat) g :
  0 < len < 2 ^ 31 → 0 < first →
  len ≤ Z.of_nat N → len ≤ Z.of_nat M → 0 ≤ g < 2 ^ 31 - 1 →
  first + Z.of_nat N + g + Z.of_nat M ≤ 2 ^ 63 →
  ∃ b, window_run (new_buffer len)
         (a_sn <$> in_order port first 1 N
                   ++ in_order port (first + Z.of_nat N + g) 1 M) = Some b
       ∧ m_drops b = g ∧ m_dups b = 0.
Proof.
  intros Hlen Hf HN HM Hg Hb.
  destruct N as [|N]; [lia|]. destruct M as [|M]; [lia|].
  rewrite fmap_app, window_run_app.
  cbn [in_order fmap list_fmap window_run a_sn].
  change (window_step (received (new_buffer len) first) first)
    with (Some (store 0 1 (set_head_idx 0 (set_tail_sn first
                 (received (new_buffer len) first))), 0)).
  cbv iota beta.
  change (list_fmap Arrival Z a_sn (in_order port (first + 1) 1 N))
    with (a_sn <$> in_order port (first + 1) 1 N).
  pose proof (first_mirrors len first Hlen ltac:(lia)) as M0.
  set (b0 := store 0 1 _) in *.
  (* the stream up to the gap *)
  destruct (in_order_steps port N (times [first]) first (first - 1) first first
              b0 M0) as (b1 & R1 & Hr1 & M1 & HR1 & L1 & T1 & H1).
  { intros x. unfold times, count, with_gap. cbn [List.filter].
    destruct (Z.eqb_spec first x), (Z.leb_spec first x), (Z.leb_spec x first),
             (Z.ltb_spec (first - 1) x), (Z.ltb_spec x first); cbn; lia. }
  { lia. }
  { subst b0. fields. unfold new_buffer. fields. lia. }
  { subst b0. fields. unfold new_buffer. fields.
    rewrite Z.sub_diag, Z.add_0_l, Z.mod_0_l; lia. }
  { lia. }
  rewrite Hr1. cbn [mbind option_bind].
  assert (Hl0 : m_buffer_len b0 = len) by reflexivity.
  assert (Ht0 : m_tail_sn b0 = first) by reflexivity.
  rewrite Hl0 in L1, T1. rewrite Ht0 in T1.
  rewrite Z.max_r in T1 by lia.
  (* the arrival after the gap *)
  set (sn := first + Z.of_nat (S N) + g).
  assert (M1' : mirrors R1 first (received b1 sn)).
  { apply (mirrors_same_fields _ _ _ _ M1); try reflexivity.
    destruct (mir_wf _ _ _ M1); split; assumption. }
  assert (Hz1 : ∀ x, first + Z.of_nat N < x → R1 x = 0).
  { intros x Hx. rewrite HR1. unfold with_gap.
    replace (x <=? first + Z.of_nat N) with false by (symmetry; apply Z.leb_gt; lia).
    rewrite andb_false_r. reflexivity. }
  destruct (append_step R1 (λ x, if x =? sn then R1 x + 1 else R1 x)
              first (first + Z.of_nat N) (received b1 sn) sn M1' Hz1
              ltac:(fields; rewrite L1, T1; lia)
              ltac:(fields; rewrite H1, L1, T1; reflexivity)
              ltac:(lia) ltac:(fields; rewrite L1, T1; lia)
              ltac:(fields; rewrite L1, T1; lia) ltac:(reflexivity))
    as (b2 & r2 & Hs2 & M2 & L2 & T2 & H2).
  fields.
  rewrite Hs2. rewrite L1, T1 in T2. rewrite L1 in L2.
  assert (T2' : m_tail_sn b2 = Z.max (sn - len + 1) (if g + 1 >=? len then sn else 0)).
  { rewrite T2.
    destruct (Z.geb_spec (sn - (first + Z.of_nat N - len + 1 + len - 1)) len),
             (Z.geb_spec (g + 1) len); lia. }
  (* the stream after the gap *)
  change (list_fmap Arrival Z a_sn (in_order port (sn + 1) 1 M))
    with (a_sn <$> in_order port (sn + 1) 1 M).
  destruct (in_order_steps port M _ first (first + Z.of_nat N) sn sn b2 M2)
    as (b3 & R3 & Hr3 & M3 & HR3 & L3 & T3 & H3); rewrite ?L2; try lia.
  { intros x. cbv beta. rewrite HR1. unfold with_gap.
    destruct (Z.eqb_spec x sn), (Z.leb_spec first x),
             (Z.leb_spec x (first + Z.of_nat N)), (Z.leb_spec x sn),
             (Z.ltb_spec (first - 1) x), (Z.ltb_spec x first),
             (Z.ltb_spec (first + Z.of_nat N) x), (Z.ltb_spec x sn); cbn; lia. }
  { destruct (g + 1 >=? len); lia. }
  { rewrite <- L2. exact H2. }
  assert (Hb3 : sn ≤ m_tail_sn b3 ≤ sn + Z.of_nat M + 1)
    by (rewrite T3, L2, T2'; destruct (g + 1 >=? len); lia).
  exists b3. split; [exact Hr3|].
  rewrite (mir_drops _ _ _ M3), (mir_dups _ _ _ M3).
  destruct (absent_with_gap R3 first (first + Z.of_nat N) sn (sn + Z.of_nat M)
              (m_tail_sn b3) HR3 ltac:(lia) ltac:(lia) ltac:(lia) ltac:(lia))
    as [-> ->].
  split; [lia|reflexivity].
Qed.

(** X9. A gap in a steady stream is counted exactly.  When at least as
    many packets as the capacity arrive in order, then [g] numbers are
    missing, and then at least as many packets as the capacity arrive
    in order again, [drops()] is [g] and [duplicates()] is 0. *)
Theorem gap_in_steady_stream len port first (N M : nat) g :
  0 < len < 2 ^ 31 → 0 < first →
  len ≤ Z.of_nat N → len ≤ Z.of_nat M → 0 ≤ g < 2 ^ 31 - 1 →
  first + Z.of_nat N + g + Z.of_nat M ≤ 2 ^ 63 →
  ∃ c, run (start len)
         (in_order port first 1 N
          ++ in_order port (first + Z.of_nat N + g) 1 M) = Some c
       ∧ drops (rb c) = g ∧ dups (rb c) = 0.
Proof.
  intros Hlen Hf HN HM Hg Hb.
  destruct (gap_window_run len port first N M g Hlen Hf HN HM Hg Hb)
    as (b & Hr & Hd & Hu).
  pose proof (run_window_run
                (in_order port first 1 N
                 ++ in_order port (first + Z.of_nat N + g) 1 M)
                (start len) (new_buffer len) ltac:(reflexivity)) as H.
  rewrite Hr in H. destruct H as (c & Hc & Hw).
  exists c. split; [exact Hc|].
  destruct (same_window_fields _ _ Hw) as (_ & _ & _ & Ed & Eu).
  unfold drops, dups. rewrite Ed, Eu. split; assumption.
Qed.

Lemma gap_in_steady_stream_witness :
  ∃ c, run (start 8) (in_order 0 1 1 10 ++ in_order 0 (1 + Z.of_nat 10 + 5) 1 9)
       = Some c
       ∧ drops (rb c) = 5 ∧ dups (rb c) = 0.
Proof. apply (gap_in_steady_stream 8 0 1 10 9 5); lia. Defined.

(** * The counters never go back *)

Lemma window_step_monotone first b sn b' r :
  accounted first b → 0 ≤ sn < first + 2 ^ 31 →
  window_step (received b sn) sn = Some (b', r) →
  m_tail_sn b ≤ m_tail_sn b' ∧ m_drops b ≤ m_drops b'
  ∧ good_departures b ≤ good_departures b'.
Proof.
  intros [[HL Hbuf Hti Hhi] Hf Ht Hlg Hre Hsm [Hd Hg] Hsum] Hsn.
  pose proof (highest_possible_sn_eq b HL ltac:(lia)) as Hhsn.
  unfold window_step.
  change (m_tail_sn (received b sn)) with (m_tail_sn b).
  change (lowest_possible_sn (received b sn)) with (lowest_possible_sn b).
  change (highest_possible_sn (received b sn)) with (highest_possible_sn b).
  change (idx_for (received b sn) sn) with (idx_for b sn).
  change (m_buffer_len (received b sn)) with (m_buffer_len b).
  destruct (Z.eqb_spec (m_tail_sn b) 0) as [E|_]; [lia|].
  destruct (sn <? lowest_possible_sn b).
  { intros [= <- <-]. fields. lia. }
  destruct (Z.leb_spec sn (highest_possible_sn b)) as [Hin|Hbeyond].
  { destruct (_ && _); [|discriminate]. intros [= <- <-].
    destruct (mark_fields (received b sn) sn)
      as (_ & _ & F3 & F4 & _ & F6 & _).
    rewrite F3, F4, F6. fields. lia. }
  rewrite spill_unfold. cbv zeta.
  change (highest_possible_sn (received b sn)) with (highest_possible_sn b).
  change (m_buffer_len (received b sn)) with (m_buffer_len b).
  change (occupancy (received b sn)) with (occupancy b).
  change (m_drops (received b sn)) with (m_drops b).
  assert (Hdist : s32 (u64 (sn - highest_possible_sn b)) = sn - highest_possible_sn b).
  { rewrite u64_small by lia. apply s32_small. lia. }
  rewrite Hdist. set (distance := sn - highest_possible_sn b) in *.
  destruct (Z.leb_spec distance 0) as [|_]; [lia|].
  destruct (Z.geb_spec distance (m_buffer_len b)) as [Hfar|Hnear].
  - rewrite (u64_small (distance - 1)) by lia.
    rewrite (u64_small (m_drops b + _)) by lia.
    pose proof (spill_loop_account (Z.to_nat (m_buffer_len b))
                  (set_drops (m_drops b + (distance - 1)) (received b sn)) 0 0) as L1.
    rewrite Z2Nat.id in L1 by lia. cbv zeta in L1. fields.
    specialize (L1 ltac:(lia) Hti ltac:(lia) ltac:(lia) ltac:(lia) ltac:(lia)).
    set (st := spill_loop _ _) in *.
    destruct L1 as (I1 & I2 & I3 & I4 & I5 & I6 & I7 & I8 & I9 & I10).
    destruct (negb _); intros [= <- <-].
    + fields. lia.
    + destruct (mark_fields st.1.1 sn) as (_ & _ & F3 & F4 & _ & F6 & _).
      rewrite F3, F4, F6. lia.
  - set (n := Z.to_nat (Z.min (occupancy b) distance)).
    assert (Hn : 0 ≤ Z.of_nat n ≤ distance) by lia.
    pose proof (spill_loop_account n (received b sn) 0 0) as L1.
    cbv zeta in L1. fields.
    specialize (L1 ltac:(lia) Hti ltac:(lia) ltac:(lia) ltac:(lia) ltac:(lia)).
    set (st := spill_loop _ _) in *.
    destruct L1 as (I1 & I2 & I3 & I4 & I5 & I6 & I7 & I8 & I9 & I10).
    intros [= <- <-].
    destruct (mark_fields st.1.1 sn) as (_ & _ & F3 & F4 & _ & F6 & _).
    rewrite F3, F4, F6. lia.
Qed.

Lemma run_monotone first evs : ∀ c c',
  accounted first (rb c) →
  Forall (λ e, 0 ≤ a_sn e < first + 2 ^ 31) evs →
  run c evs = Some c' →
  m_tail_sn (rb c) ≤ m_tail_sn (rb c') ∧ m_drops (rb c) ≤ m_drops (rb c').
Proof.
  induction evs as [|a evs IH]; intros c c' Hacc Hall Hrun.
  - injection Hrun as <-. lia.
  - apply Forall_cons in Hall as [Ha Hall]. cbn [run] in Hrun.
    destruct (window_step_account first (rb c) (a_sn a) Hacc Ha)
      as (b1 & r & Hs & Hacc1 & _).
    pose proof (window_step_monotone first (rb c) (a_sn a) b1 r Hacc Ha Hs)
      as (M1 & M2 & _).
    pose proof (deliver_window c a) as Hd. rewrite Hs in Hd.
    destruct Hd as (c1 & m & Hd & Hrb). rewrite Hd in Hrun.
    assert (Hacc1' : accounted first (rb c1))
      by (rewrite Hrb; apply accounted_port_map; exact Hacc1).
    destruct (IH c1 c' Hacc1' Hall Hrun) as [N1 N2].
    rewrite Hrb in N1, N2. fields. lia.
Qed.

(** X10. In a run whose sequence numbers stay within 2^31 of the first,
    the counters do not go back: from any point of the run to any later
    one, [drops()] does not decrease and the tail of the window does not
    move to a smaller number. *)
Theorem drops_and_tail_never_go_back len a evs1 evs2 c1 c2 :
  0 < len < 2 ^ 31 → 0 < a_sn a < 2 ^ 63 →
  Forall (λ e, 0 ≤ a_sn e < a_sn a + 2 ^ 31) (evs1 ++ evs2) →
  run (start len) (a :: evs1) = Some c1 → run c1 evs2 = Some c2 →
  drops (rb c1) ≤ drops (rb c2) ∧ m_tail_sn (rb c1) ≤ m_tail_sn (rb c2).
Proof.
  intros Hlen Ha Hall H1 H2. apply Forall_app in Hall as [Hall1 Hall2].
  destruct (first_arrival_accounted len a Hlen Ha) as (c0 & Hd & Hacc).
  cbn [run] in H1. rewrite Hd in H1.
  destruct (run_accounted (a_sn a) evs1 c0 Hacc Hall1) as (c1' & Hr & Hacc1).
  rewrite Hr in H1. injection H1 as ->.
  destruct (run_monotone (a_sn a) evs2 c1 c2 Hacc1 Hall2 H2) as [M1 M2].
  unfold drops. lia.
Qed.

Lemma drops_and_tail_never_go_back_witness :
  drops (rb (default (start 8) (run (start 8) (arrivals 0 [2; 4; 6; 20]))))
  ≤ drops (rb (default (start 8) (run (start 8) (arrivals 0 [2; 4; 6; 20; 3; 40; 41]))))
  ∧ m_tail_sn (rb (default (start 8) (run (start 8) (arrivals 0 [2; 4; 6; 20]))))
    ≤ m_tail_sn (rb (default (start 8) (run (start 8) (arrivals 0 [2; 4; 6; 20; 3; 40; 41])))).
Proof.
  apply (drops_and_tail_never_go_back 8 (mkArrival 2 2 0)
           (arrivals 0 [4; 6; 20]) (arrivals 0 [3; 40; 41])).
  - lia.
  - cbn. lia.
  - repeat constructor; cbn; lia.
  - vm_compute. reflexivity.
  - vm_compute. reflexivity.
Defined.

(** * The length that a call returns *)

Lemma spill_step_locals b cb :
  0 ≤ cb < 2 ^ 31 - 1 → 0 ≤ m_drops b → m_drops b + 1 < 2 ^ 64 →
  (spill_step (b, 0, cb)).1.2 = 0
  ∧ 0 ≤ (spill_step (b, 0, cb)).2 ≤ cb + 1
  ∧ m_drops b ≤ m_drops (spill_step (b, 0, cb)).1.1 ≤ m_drops b + 1
  ∧ (spill_step (b, 0, cb)).2 - cb
    ≤ m_drops (spill_step (b, 0, cb)).1.1 - m_drops b.
Proof.
  intros Hcb Hd Hd'. unfold spill_step. cbv zeta.
  destruct (slot b (m_tail_idx b) =? 0); cbn [negb fst snd]; fields.
  - rewrite (u64_small (m_drops b + 1)) by lia.
    destruct (_ >? _); [rewrite s32_small by lia|]; lia.
  - cbn. lia.
Qed.

Lemma spill_loop_locals n : ∀ b cb,
  0 ≤ cb → cb + Z.of_nat n < 2 ^ 31 →
  0 ≤ m_drops b → m_drops b + Z.of_nat n < 2 ^ 64 →
  (spill_loop n (b, 0, cb)).1.2 = 0
  ∧ 0 ≤ (spill_loop n (b, 0, cb)).2 ≤ cb + Z.of_nat n
  ∧ (spill_loop n (b, 0, cb)).2 - cb
    ≤ m_drops (spill_loop n (b, 0, cb)).1.1 - m_drops b.
Proof.
  induction n as [|n IH]; intros b cb Hcb Hcn Hd Hdn.
  - cbn [spill_loop fst snd]. lia.
  - rewrite spill_loop_S.
    destruct (spill_step_locals b cb ltac:(lia) Hd ltac:(lia)) as (S1 & S2 & S3 & S4).
    destruct (spill_step (b, 0, cb)) as [[b1 lb1] cb1]. cbn [fst snd] in *.
    subst lb1.
    destruct (IH b1 cb1 ltac:(lia) ltac:(lia) ltac:(lia) ltac:(lia))
      as (I1 & I2 & I3).
    split; [exact I1|]. split; lia.
Qed.

Lemma window_step_returns first b sn b' r :
  accounted first b → 0 ≤ sn < first + 2 ^ 31 →
  window_step (received b sn) sn = Some (b', r) →
  0 ≤ r ≤ m_drops b' - m_drops b.
Proof.
  intros [[HL Hbuf Hti Hhi] Hf Ht Hlg Hre Hsm [Hd Hg] Hsum] Hsn.
  pose proof (highest_possible_sn_eq b HL ltac:(lia)) as Hhsn.
  unfold window_step.
  change (m_tail_sn (received b sn)) with (m_tail_sn b).
  change (lowest_possible_sn (received b sn)) with (lowest_possible_sn b).
  change (highest_possible_sn (received b sn)) with (highest_possible_sn b).
  change (idx_for (received b sn) sn) with (idx_for b sn).
  change (m_buffer_len (received b sn)) with (m_buffer_len b).
  destruct (Z.eqb_spec (m_tail_sn b) 0) as [E|_]; [lia|].
  destruct (sn <? lowest_possible_sn b).
  { intros [= <- <-]. fields. lia. }
  destruct (Z.leb_spec sn (highest_possible_sn b)) as [Hin|Hbeyond].
  { destruct (_ && _); [|discriminate]. intros [= <- <-].
    destruct (mark_fields (received b sn) sn) as (_ & _ & _ & F4 & _).
    rewrite F4. fields. lia. }
  rewrite spill_unfold. cbv zeta.
  change (highest_possible_sn (received b sn)) with (highest_possible_sn b).
  change (m_buffer_len (received b sn)) with (m_buffer_len b).
  change (occupancy (received b sn)) with (occupancy b).
  change (m_drops (received b sn)) with (m_drops b).
  assert (Hdist : s32 (u64 (sn - highest_possible_sn b)) = sn - highest_possible_sn b).
  { rewrite u64_small by lia. apply s32_small. lia. }
  rewrite Hdist. set (distance := sn - highest_possible_sn b) in *.
  destruct (Z.leb_spec distance 0) as [|_]; [lia|].
  destruct (Z.geb_spec distance (m_buffer_len b)) as [Hfar|Hnear].
  - rewrite (u64_small (distance - 1)) by lia.
    rewrite (u64_small (m_drops b + _)) by lia.
    pose proof (spill_loop_locals (Z.to_nat (m_buffer_len b))
                  (set_drops (m_drops b + (distance - 1)) (received b sn)) 0
                  ltac:(lia) ltac:(lia) ltac:(fields; lia) ltac:(fields; lia))
      as (S1 & S2 & S3).
    set (st := spill_loop _ _) in *. fields.
    rewrite S1. rewrite Z2Nat.id in S2 by lia.
    assert (Hr : 0 ≤ Z.max 0 (if negb (st.2 =? 0)
                              then Z.max 0 (s32 (st.2 + (distance - 1)))
                              else Z.max 0 (distance - 1))
                 ≤ m_drops st.1.1 - m_drops b).
    { destruct (Z.eqb_spec st.2 0); cbn [negb];
        [|rewrite s32_small by lia]; lia. }
    destruct (negb (distance - 1 =? 0)); intros [= <- <-].
    + fields. exact Hr.
    + destruct (mark_fields st.1.1 sn) as (_ & _ & _ & F4 & _).
      rewrite F4. exact Hr.
  - set (n := Z.to_nat (Z.min (occupancy b) distance)).
    assert (Hn : 0 ≤ Z.of_nat n ≤ distance) by lia.
    pose proof (spill_loop_locals n (received b sn) 0
                  ltac:(lia) ltac:(lia) ltac:(fields; lia) ltac:(fields; lia))
      as (S1 & S2 & S3).
    set (st := spill_loop _ _) in *. fields.
    rewrite S1. intros [= <- <-].
    destruct (mark_fields st.1.1 sn) as (_ & _ & _ & F4 & _).
    rewrite F4.
    destruct (Z.eqb_spec st.2 0); cbn [negb];
      [|rewrite Z.add_0_r, s32_small by lia]; lia.
Qed.

(** X11. The length that a call returns is never negative and never more
    than the drops that the call itself counted: a call that leaves
    [drops()] as it was returns 0. *)
Theorem returned_length_is_counted len a evs c e c' r :
  0 < len < 2 ^ 31 → 0 < a_sn a < 2 ^ 63 →
  Forall (λ e, 0 ≤ a_sn e < a_sn a + 2 ^ 31) (evs ++ [e]) →
  run (start len) (a :: evs) = Some c → deliver c e = Some (c', r) →
  0 ≤ r ≤ drops (rb c') - drops (rb c).
Proof.
  intros Hlen Ha Hall Hrun Hdel. apply Forall_app in Hall as [Hall He].
  apply Forall_cons in He as [He _].
  destruct (first_arrival_accounted len a Hlen Ha) as (c0 & Hd & Hacc).
  cbn [run] in Hrun. rewrite Hd in Hrun.
  destruct (run_accounted (a_sn a) evs c0 Hacc Hall) as (c1 & Hr & Hacc1).
  rewrite Hr in Hrun. injection Hrun as ->.
  pose proof (deliver_window c e) as Hw.
  destruct (window_step (received (rb c) (a_sn e)) (a_sn e)) as [[b2 r2]|] eqn:Hs;
    [|congruence].
  destruct Hw as (c2 & m & Hd2 & Hrb). rewrite Hdel in Hd2.
  injection Hd2 as <- <-.
  pose proof (window_step_returns (a_sn a) (rb c) (a_sn e) b2 r Hacc1 He Hs) as H.
  unfold drops. rewrite Hrb. fields. exact H.
Qed.

Lemma returned_length_is_counted_witness :
  0 ≤ 8 ≤ drops (rb (default (start 8) (run (start 8) (arrivals 0 [1; 2; 3; 4; 5; 6; 7; 8; 17]))))
          - drops (rb (default (start 8) (run (start 8) (arrivals 0 [1; 2; 3; 4; 5; 6; 7; 8])))).
Proof.
  apply (returned_length_is_counted 8 (mkArrival 1 1 0)
           (arrivals 0 [2; 3; 4; 5; 6; 7; 8])
           (default (start 8) (run (start 8) (arrivals 0 [1; 2; 3; 4; 5; 6; 7; 8])))
           (mkArrival 17 17 0)
           (default (start 8) (run (start 8) (arrivals 0 [1; 2; 3; 4; 5; 6; 7; 8; 17])))
           8).
  - lia.
  - cbn. lia.
  - repeat constructor; cbn; lia.
  - vm_compute. reflexivity.
  - vm_compute. reflexivity.
Defined.

(** * More on the continuity tracker *)

Lemma longest_gap_snoc ds d :
  longest_gap (ds ++ [d]) = Z.max (longest_gap ds) (if d >? 1 then d else 0).
Proof.
  unfold longest_gap. rewrite List.filter_app, foldr_app. cbn [List.filter].
  assert (E : ∀ l a, foldr Z.max a l = Z.max (foldr Z.max 0 l) a ∨ True) by auto.
  assert (F : ∀ (l : list Z) a, 0 ≤ a → foldr Z.max a l = Z.max (foldr Z.max 0 l) a).
  { induction l as [|x l IH]; intros a Ha; cbn [foldr]; [lia|].
    rewrite (IH a Ha). lia. }
  destruct (Z.gtb_spec d 1); cbn [foldr]; rewrite F; lia.
Qed.

Lemma longest_gap_nonneg ds : 0 ≤ longest_gap ds.
Proof.
  unfold longest_gap. induction (List.filter _ ds) as [|x l IH]; cbn [foldr]; lia.
Qed.

Lemma record_of_first f : record_of [f] = mkErrorInterval f 0 0 0 0 0.
Proof. reflexivity. Qed.

Lemma record_of_update fl f :
  fl ≠ [] → Z.of_nat (length fl) < 2 ^ 31 →
  updated_interval (record_of fl) f = record_of (fl ++ [f]).
Proof.
  intros Hne Hlen.
  destruct (last fl) as [l|] eqn:Hlast; [|apply last_None in Hlast; contradiction].
  unfold record_of, updated_interval. cbv zeta.
  rewrite (discontinuities_snoc _ _ _ Hlast), last_snoc, Hlast.
  change (default 0 (Some l)) with l. change (default 0 (Some f)) with f.
  cbn [last_known_sn burst_count reverses duplicates longest_burst seq_breaks].
  fold (discontinuity l f). set (d := discontinuity l f).
  set (ds := discontinuities fl).
  pose proof (discontinuities_length fl) as Hdl. fold ds in Hdl.
  pose proof (count_bounds (λ d, d >? 1) ds) as B1.
  pose proof (count_bounds (λ d, d <? -1) ds) as B2.
  pose proof (count_bounds (λ d, d =? -1) ds) as B3.
  pose proof (count_bounds (λ d, s64 (Z.abs d) >? 2) ds) as B4.
  pose proof (longest_gap_nonneg ds) as B5.
  rewrite !count_snoc, longest_gap_snoc. cbv beta. f_equal.
  - destruct (d >? 1); [rewrite s32_small|]; lia.
  - destruct (d <? -1); [rewrite s64_small|]; lia.
  - destruct (d =? -1); [rewrite s64_small|]; lia.
  - destruct (Z.gtb_spec d 1); cbn [andb]; [|lia].
    destruct (Z.gtb_spec d (longest_gap ds)); lia.
  - destruct (s64 (Z.abs d) >? 2); [rewrite s64_small|]; lia.
Qed.

(** After a run of fewer than 2^31 arrivals, the record of every port
    that received one is [record_of] its flow numbers; the other ports
    have no record. *)
Lemma run_record_of len evs : ∀ c,
  run (start len) evs = Some c →
  Z.of_nat (length evs) < 2 ^ 31 →
  ∀ port,
    m_port_seq_map (rb c) !! port
    = if decide (flow_on port evs = []) then None
      else Some (record_of (flow_on port evs)).
Proof.
  induction evs as [|a evs IH] using rev_ind; intros c Hrun Hlen port.
  - injection Hrun as <-. reflexivity.
  - apply run_snoc in Hrun as (c1 & r & Hrun & Hd).
    rewrite length_app in Hlen. cbn [length] in Hlen.
    specialize (IH c1 Hrun ltac:(lia)).
    rewrite (deliver_port_map _ _ _ _ Hd), flow_on_snoc.
    pose proof (flow_on_length port evs) as Hfl.
    destruct (decide (a_port a = port)) as [->|Hne].
    + rewrite lookup_insert_eq, (IH port).
      destruct (decide (flow_on port evs = [])) as [E|E].
      * rewrite E. cbn [app]. rewrite decide_False by discriminate. reflexivity.
      * rewrite decide_False by (intros H; apply app_eq_nil in H as [_ H]; discriminate).
        f_equal. apply record_of_update; [exact E|lia].
    + rewrite lookup_insert_ne by exact Hne. rewrite app_nil_r. apply IH.
Qed.

(** X12. The record of a port is a function of the flow numbers that
    arrived on that port alone: it holds the last of them and the counts
    of their discontinuities by class, and it is the zero record when
    there were none. *)
Theorem flowInterval_record_of len evs c port :
  run (start len) evs = Some c →
  Z.of_nat (length evs) < 2 ^ 31 →
  flowInterval (rb c) port = record_of (flow_on port evs).
Proof.
  intros Hrun Hlen. unfold flowInterval.
  rewrite (run_record_of len evs c Hrun Hlen port).
  destruct (decide _) as [->|]; reflexivity.
Qed.

Lemma flowInterval_record_of_witness :
  flowInterval (rb (default (start 8) (run (start 8) C6_run))) 0
  = record_of (flow_on 0 C6_run).
Proof.
  apply (flowInterval_record_of 8 C6_run).
  - vm_compute. reflexivity.
  - vm_compute. reflexivity.
Defined.

Lemma count_zero p l : count p l = 0 ↔ Forall (λ d, p d = false) l.
Proof.
  unfold count. induction l as [|x l IH]; cbn [List.filter length].
  - split; [constructor|reflexivity].
  - destruct (p x) eqn:E; cbn [length].
    + split; [lia|]. intros H. apply Forall_cons in H as [H _]. congruence.
    + rewrite IH. split; [intros H; constructor; assumption|].
      intros H. apply Forall_cons in H as [_ H]. exact H.
Qed.

Lemma longest_gap_zero ds :
  Forall (λ d, (d >? 1) = false) ds → longest_gap ds = 0.
Proof.
  unfold longest_gap. induction 1 as [|d ds Hd _ IH]; [reflexivity|].
  cbn [List.filter]. rewrite Hd. exact IH.
Qed.

(** X13. The record of a port shows no error exactly when every arrival
    on the port carried the flow number after its predecessor's, or the
    one after that: a single missing flow number between two arrivals
    changes no counter. *)
Theorem clean_record_iff len evs c port :
  run (start len) evs = Some c →
  Z.of_nat (length evs) < 2 ^ 31 →
  (burst_count (flowInterval (rb c) port) = 0
   ∧ reverses (flowInterval (rb c) port) = 0
   ∧ duplicates (flowInterval (rb c) port) = 0
   ∧ longest_burst (flowInterval (rb c) port) = 0
   ∧ seq_breaks (flowInterval (rb c) port) = 0)
  ↔ Forall (λ d, d = 0 ∨ d = 1) (observed port evs).
Proof.
  intros Hrun Hlen. unfold flowInterval.
  rewrite (run_record_of len evs c Hrun Hlen port).
  assert (R : match (if decide (flow_on port evs = []) then None
                     else Some (record_of (flow_on port evs))) with
              | Some iv => iv
              | None => mkErrorInterval 0 0 0 0 0 0
              end = record_of (flow_on port evs)).
  { destruct (decide _) as [->|]; reflexivity. }
  rewrite R. clear R. unfold record_of, observed. cbv zeta.
  cbn [burst_count reverses duplicates longest_burst seq_breaks].
  set (ds := discontinuities (flow_on port evs)).
  rewrite !count_zero. split.
  - intros (H1 & H2 & H3 & _). rewrite Forall_forall in *. intros d Hd.
    specialize (H1 d Hd). specialize (H2 d Hd). specialize (H3 d Hd).
    cbv beta in *. lia.
  - intros H.
    assert (G : Forall (λ d, (d >? 1) = false) ds)
      by (eapply Forall_impl; [exact H|]; cbv beta; intros d [->| ->]; reflexivity).
    split; [exact G|].
    split; [eapply Forall_impl; [exact H|]; cbv beta; intros d [->| ->]; reflexivity|].
    split; [eapply Forall_impl; [exact H|]; cbv beta; intros d [->| ->]; reflexivity|].
    split; [apply longest_gap_zero; exact G|].
    eapply Forall_impl; [exact H|]. cbv beta. intros d [->| ->]; reflexivity.
Qed.

Lemma clean_record_iff_witness :
  (burst_count (flowInterval (rb (default (start 8) (run (start 8) [mkArrival 1 1 0; mkArrival 2 3 0; mkArrival 3 4 0]))) 0) = 0
   ∧ reverses (flowInterval (rb (default (start 8) (run (start 8) [mkArrival 1 1 0; mkArrival 2 3 0; mkArrival 3 4 0]))) 0) = 0
   ∧ duplicates (flowInterval (rb (default (start 8) (run (start 8) [mkArrival 1 1 0; mkArrival 2 3 0; mkArrival 3 4 0]))) 0) = 0
   ∧ longest_burst (flowInterval (rb (default (start 8) (run (start 8) [mkArrival 1 1 0; mkArrival 2 3 0; mkArrival 3 4 0]))) 0) = 0
   ∧ seq_breaks (flowInterval (rb (default (start 8) (run (start 8) [mkArrival 1 1 0; mkArrival 2 3 0; mkArrival 3 4 0]))) 0) = 0)
  ↔ Forall (λ d, d = 0 ∨ d = 1) (observed 0 [mkArrival 1 1 0; mkArrival 2 3 0; mkArrival 3 4 0]).
Proof.
  apply (clean_record_iff 8 [mkArrival 1 1 0; mkArrival 2 3 0; mkArrival 3 4 0]).
  - vm_compute. reflexivity.
  - vm_compute. reflexivity.
Defined.

(** * The receiver *)

(** A call of [addPacket], part by part: the window step, the record of
    the port, and the out-parameters. *)
Lemma addPacket_parts b sn flow_sn port fbl fbc :
  let iv := match m_port_seq_map b !! port with
            | None => mkErrorInterval flow_sn 0 0 0 0 0
            | Some iv => updated_interval iv flow_sn
            end in
  addPacket b sn flow_sn port fbl fbc
  = (λ x,
       (set_port_seq_map (<[port := iv]> (m_port_seq_map b)) x.1,
        mkAddResult x.2
          (if m_tail_sn b =? 0 then fbl
           else (λ _, match forward_gap b flow_sn port with
                      | Some d => s32 d
                      | None => 0
                      end) <$> fbl)
          (match forward_gap b flow_sn port with
           | Some _ => (λ _, burst_count iv) <$> fbc
           | None => fbc
           end)))
    <$> window_step (received b sn) sn.
Proof.
  cbv zeta.
  rewrite (addPacket_unfold b sn flow_sn port fbl fbc).
  pose proof (check_for_burst_error_frame (received b sn) flow_sn port fbc) as [m Hm].
  pose proof (check_for_burst_error_map (received b sn) flow_sn port fbc) as Hmap.
  pose proof (check_for_burst_error_out (received b sn) flow_sn port fbc) as Hout.
  destruct (check_for_burst_error (received b sn) flow_sn port fbc)
    as [[b1 len] fbc'].
  cbn [fst snd] in Hm, Hmap. subst b1.
  change (m_port_seq_map (set_port_seq_map m (received b sn))) with m in Hmap.
  change (m_port_seq_map (received b sn)) with (m_port_seq_map b) in Hmap.
  change (forward_gap (received b sn) flow_sn port)
    with (forward_gap b flow_sn port) in Hout.
  unfold flowInterval in Hout.
  change (m_port_seq_map (set_port_seq_map m (received b sn))) with m in Hout.
  subst m. rewrite lookup_insert_eq in Hout.
  rewrite window_step_port_map.
  change (m_tail_sn (set_port_seq_map _ (received b sn))) with (m_tail_sn b).
  destruct (window_step (received b sn) sn) as [[b2 r]|]; [|reflexivity].
  cbn [fmap option_fmap option_map fst snd].
  destruct (forward_gap b flow_sn port); destruct Hout as [-> ->]; reflexivity.
Qed.

(** * Reads that are not packets of the stream *)

(** X14. A datagram that does not open with the marker, or comes with a
    buffer of length 0, never reaches the reorder buffer and queues
    nothing; its buffer goes back to the storage, and when bytes were
    read it is counted as a received packet all the same. *)
Theorem on_read_without_marker rx b n mem len now :
  word0 mem ≠ MARKER ∨ len = 0 →
  on_read rx b n (Some (mkBuf (Some mem) len)) now
  = Some (mkUDPReceiver (m_port rx) (m_packet_storage rx ++ [address mem])
            (if n >? 0 then u64 (m_received_packets rx + 1)
             else m_received_packets rx)
            (if n >? 0 then u64 (m_received_bytes rx + n)
             else m_received_bytes rx),
          b, []).
Proof.
  intros H. unfold on_read. cbn [buf_base buf_len].
  assert (E : (if negb (n =? 0)
               then if len =? 0 then Some (b, 0, 0, 0)
                    else if negb (word0 mem =? MARKER) then Some (b, 0, 0, 0)
                    else match addPacket b (word1 mem) (word2 mem) (m_port rx)
                                 (Some 0) (Some 0) with
                         | None => None
                         | Some (b, r) =>
                             Some (b, default 0 (flow_burst_len r),
                                   default 0 (flow_burst_count r),
                                   stream_burst_len r)
                         end
               else Some (b, 0, 0, 0)) = Some (b, 0, 0, 0)).
  { destruct (n =? 0); [reflexivity|]. cbn [negb].
    destruct (Z.eqb_spec len 0); [reflexivity|].
    destruct (Z.eqb_spec (word0 mem) MARKER); [|reflexivity].
    destruct H; contradiction. }
  rewrite E. destruct (n >? 0); reflexivity.
Qed.

Lemma on_read_without_marker_witness :
  on_read (mkUDPReceiver 5678 [] 3 300) (new_buffer 8) 100
    (Some (mkBuf (Some (mkMemory 64 7 1 1)) PACKET_SIZE)) 0
  = Some (mkUDPReceiver 5678 [64] 4 400, new_buffer 8, []).
Proof.
  apply (on_read_without_marker (mkUDPReceiver 5678 [] 3 300) (new_buffer 8)
           100 (mkMemory 64 7 1 1) PACKET_SIZE 0).
  left. discriminate.
Defined.

(** X15. A read that reports an error ([nread] below 0) with a marked
    buffer still adds the packet found in the buffer to the reorder
    buffer; the receiver counts nothing and queues nothing, whatever the
    call detected. *)
Theorem on_read_error_still_adds rx b n addr sn flow_sn len now :
  n < 0 → len ≠ 0 →
  on_read rx b n (Some (mkBuf (Some (mkMemory addr MARKER sn flow_sn)) len)) now
  = match addPacket b sn flow_sn (m_port rx) (Some 0) (Some 0) with
    | None => None
    | Some (b', _) =>
        Some (mkUDPReceiver (m_port rx) (m_packet_storage rx ++ [addr])
                (m_received_packets rx) (m_received_bytes rx), b', [])
    end.
Proof.
  intros Hn Hlen. unfold on_read.
  cbn [buf_base buf_len word0 word1 word2 address].
  replace (n =? 0) with false by (symmetry; apply Z.eqb_neq; lia).
  replace (n >? 0) with false by (symmetry; rewrite Z.gtb_ltb; apply Z.ltb_ge; lia).
  replace (len =? 0) with false by (symmetry; apply Z.eqb_neq; lia).
  change (MARKER =? MARKER) with true. cbn [negb].
  destruct (addPacket _ _ _ _ _ _) as [[b' r]|]; reflexivity.
Qed.

Lemma on_read_error_still_adds_witness :
  on_read (mkUDPReceiver 5678 [] 3 300)
    (default (new_buffer 8) (window_run (new_buffer 8) [1; 2])) (-4)
    (Some (mkBuf (Some (mkMemory 64 MARKER 50 9)) PACKET_SIZE)) 0
  = match addPacket (default (new_buffer 8) (window_run (new_buffer 8) [1; 2]))
            50 9 5678 (Some 0) (Some 0) with
    | None => None
    | Some (b', _) => Some (mkUDPReceiver 5678 [64] 3 300, b', [])
    end.
Proof.
  apply (on_read_error_still_adds (mkUDPReceiver 5678 [] 3 300)
           (default (new_buffer 8) (window_run (new_buffer 8) [1; 2]))
           (-4) 64 50 9 PACKET_SIZE 0).
  - lia.
  - discriminate.
Defined.

(** X16. The storage of receive buffers rotates: whatever is read, the
    buffer that [my_alloc_cb] hands out comes back at the end of the
    storage when [on_read] returns, so that the storage loses no buffer
    and grows only when it was empty. *)
Theorem packet_storage_rotates rx b fresh n w0 w1 w2 now rx' b' q :
  on_read (my_alloc_cb rx fresh).1 b n
    (Some (mkBuf (Some (mkMemory (my_alloc_cb rx fresh).2.1 w0 w1 w2))
             (my_alloc_cb rx fresh).2.2)) now
  = Some (rx', b', q) →
  m_packet_storage rx'
  = match m_packet_storage rx with
    | [] => [fresh]
    | p :: rest => rest ++ [p]
    end
  ∧ m_port rx' = m_port rx.
Proof.
  unfold my_alloc_cb, getPacket, on_read.
  destruct (m_packet_storage rx) as [|p rest] eqn:Hst;
    cbn [fst snd buf_base buf_len address word0 word1 word2];
    (destruct (if negb (n =? 0) then _ else _) as [[[[b1 bl] bc] sl]|];
     [|discriminate]);
    unfold freePacket; cbn [m_port m_packet_storage];
    destruct (n >? 0); intros [= <- _ _]; cbn [m_port m_packet_storage];
    rewrite ?Hst; split; reflexivity.
Qed.

Lemma packet_storage_rotates_witness :
  m_packet_storage (mkUDPReceiver 5678 [80; 64] 1 100)
  = match m_packet_storage (mkUDPReceiver 5678 [64; 80] 0 0) with
    | [] => [7]
    | p :: rest => rest ++ [p]
    end
  ∧ m_port (mkUDPReceiver 5678 [80; 64] 1 100)
    = m_port (mkUDPReceiver 5678 [64; 80] 0 0).
Proof.
  apply (packet_storage_rotates (mkUDPReceiver 5678 [64; 80] 0 0)
           (new_buffer 8) 7 100 7 1 1 0
           (mkUDPReceiver 5678 [80; 64] 1 100) (new_buffer 8) []).
  vm_compute. reflexivity.
Defined.

(** * The receiving process and the runs of the buffer *)

Lemma addPacket_buffer_any_out b sn flow_sn port fbl fbc fbl' fbc' :
  (λ x, (x.1, stream_burst_len x.2)) <$> addPacket b sn flow_sn port fbl fbc
  = (λ x, (x.1, stream_burst_len x.2)) <$> addPacket b sn flow_sn port fbl' fbc'.
Proof.
  pose proof (addPacket_parts b sn flow_sn port fbl fbc) as E1.
  pose proof (addPacket_parts b sn flow_sn port fbl' fbc') as E2.
  cbv zeta in E1, E2. rewrite E1, E2.
  destruct (window_step (received b sn) sn) as [[b1 r]|]; reflexivity.
Qed.

(** A read, seen from the reorder buffer: a call by a caller of the
    tests on the arrival that the read feeds, or nothing. *)
Lemma on_read_deliver rx b n buf now c :
  rb c = b →
  match feeds (m_port rx) n buf with
  | Some a =>
      match deliver c a with
      | Some (c', r) =>
          ∃ rx' q, on_read rx b n buf now = Some (rx', rb c', q)
                   ∧ m_port rx' = m_port rx
      | None => on_read rx b n buf now = None
      end
  | None =>
      ∃ rx', on_read rx b n buf now = Some (rx', b, [])
             ∧ m_port rx' = m_port rx
  end.
Proof.
  intros <-. unfold feeds, on_read.
  destruct buf as [buf|]; [|eexists; split; reflexivity].
  destruct (buf_base buf) as [mem|]; [|eexists; split; reflexivity].
  destruct (n =? 0); cbn [negb andb];
    [destruct (n >? 0); eexists; split; reflexivity|].
  destruct (buf_len buf =? 0); cbn [negb andb];
    [destruct (n >? 0); eexists; split; reflexivity|].
  destruct (word0 mem =? MARKER); cbn [negb andb];
    [|destruct (n >? 0); eexists; split; reflexivity].
  unfold deliver. cbn [a_sn a_flow_sn a_port].
  pose proof (addPacket_buffer_any_out (rb c) (word1 mem) (word2 mem) (m_port rx)
                (Some 0) (Some 0) (Some (var_flow_burst_len c))
                (Some (var_flow_burst_count c))) as E.
  destruct (addPacket (rb c) (word1 mem) (word2 mem) (m_port rx) (Some 0) (Some 0))
    as [[b1 r1]|],
    (addPacket (rb c) (word1 mem) (word2 mem) (m_port rx)
       (Some (var_flow_burst_len c)) (Some (var_flow_burst_count c)))
    as [[b2 r2]|]; cbn in E; try discriminate; [|reflexivity].
  injection E as -> _. cbn [rb].
  destruct (n >? 0); eexists _, _; split; reflexivity.
Qed.

(** X17. The reorder buffer of the receiving process is the buffer of a
    run of [addPacket]: reading [es] leaves the buffer that a caller of
    the tests gets from the arrivals found in the marked datagrams that
    were read with a length other than 0, each on the port of its
    receiver; and the process fails an assertion exactly when that run
    does. *)
Theorem site_run_is_run es : ∀ s c,
  rb c = reorderBuffer s →
  Forall (λ e, (rd_handle e < length (receivers s))%nat) es →
  match run c (fed (m_port <$> receivers s) es) with
  | Some c' => ∃ s', site_run s es = Some s' ∧ reorderBuffer s' = rb c'
  | None => site_run s es = None
  end.
Proof.
  induction es as [|e es IH]; intros s c Hc Hall.
  - exists s. split; [reflexivity|congruence].
  - apply Forall_cons in Hall as [He Hall].
    destruct (lookup_lt_is_Some_2 _ _ He) as [rx Hrx].
    unfold fed. cbn [omap list_omap site_run]. unfold site_step.
    rewrite list_lookup_fmap, Hrx. cbn [fmap option_fmap option_map mbind option_bind].
    pose proof (on_read_deliver rx (reorderBuffer s) (rd_nread e) (rd_buf e)
                  (rd_time e) c Hc) as H.
    assert (Hports : ∀ rx', m_port rx' = m_port rx →
              m_port <$> <[rd_handle e := rx']> (receivers s)
              = m_port <$> receivers s).
    { intros rx' Hp. rewrite list_fmap_insert, Hp.
      apply list_insert_id. rewrite list_lookup_fmap, Hrx. reflexivity. }
    destruct (feeds (m_port rx) (rd_nread e) (rd_buf e)) as [a|].
    + cbn [run]. destruct (deliver c a) as [[c1 r]|].
      * destruct H as (rx' & q & -> & Hp).
        specialize (IH (mkSite (<[rd_handle e := rx']> (receivers s)) (rb c1)
                          (queued s ++ q)) c1 eq_refl).
        cbn [receivers reorderBuffer] in IH.
        rewrite (Hports rx' Hp), length_insert in IH.
        exact (IH Hall).
      * rewrite H. reflexivity.
    + destruct H as (rx' & -> & Hp).
      specialize (IH (mkSite (<[rd_handle e := rx']> (receivers s))
                        (reorderBuffer s) (queued s ++ [])) c Hc).
      cbn [receivers reorderBuffer] in IH.
      rewrite (Hports rx' Hp), length_insert in IH.
      exact (IH Hall).
Qed.

Lemma site_run_is_run_witness :
  match run (start 1024)
          (fed (m_port <$> receivers (site_start 5678 2 (λ _, [])))
             [mkRead 0 100 (Some (mkBuf (Some (mkMemory 64 MARKER 1 1)) PACKET_SIZE)) 0;
              mkRead 1 100 (Some (mkBuf (Some (mkMemory 64 7 2 1)) PACKET_SIZE)) 0;
              mkRead 1 (-1) (Some (mkBuf (Some (mkMemory 64 MARKER 3 2)) PACKET_SIZE)) 0]) with
  | Some c' =>
      ∃ s', site_run (site_start 5678 2 (λ _, []))
              [mkRead 0 100 (Some (mkBuf (Some (mkMemory 64 MARKER 1 1)) PACKET_SIZE)) 0;
               mkRead 1 100 (Some (mkBuf (Some (mkMemory 64 7 2 1)) PACKET_SIZE)) 0;
               mkRead 1 (-1) (Some (mkBuf (Some (mkMemory 64 MARKER 3 2)) PACKET_SIZE)) 0]
            = Some s'
            ∧ reorderBuffer s' = rb c'
  | None =>
      site_run (site_start 5678 2 (λ _, []))
        [mkRead 0 100 (Some (mkBuf (Some (mkMemory 64 MARKER 1 1)) PACKET_SIZE)) 0;
         mkRead 1 100 (Some (mkBuf (Some (mkMemory 64 7 2 1)) PACKET_SIZE)) 0;
         mkRead 1 (-1) (Some (mkBuf (Some (mkMemory 64 MARKER 3 2)) PACKET_SIZE)) 0]
      = None
  end.
Proof.
  apply (site_run_is_run _ (site_start 5678 2 (λ _, [])) (start 1024)).
  - reflexivity.
  - repeat constructor.
Defined.

(** X18. The rows of the flows timer after a run: one row for each port
    of the range whose latest arrival carried a flow number other than
    0, in the order of the ports, with the counts of the discontinuities
    among the flow numbers that arrived on the port. *)
Theorem flows_rows_after_run len evs c starting_port flow_count clock :
  run (start len) evs = Some c →
  Z.of_nat (length evs) < 2 ^ 31 →
  flows_timer_cb (rb c) starting_port flow_count clock
  = flat_map
      (λ i : nat,
         let port := s32 (starting_port + Z.of_nat i) in
         let ds := observed port evs in
         if negb (default 0 (last (flow_on port evs)) =? 0) then
           [FlowsWork (mkDBReportFlowStats port
              (count (λ d, d >? 1) ds) (count (λ d, d <? -1) ds)
              (count (λ d, d =? -1) ds) (longest_gap ds)
              (count (λ d, s64 (Z.abs d) >? 2) ds) (clock (Z.of_nat i)))]
         else [])
      (seq 0 (Z.to_nat flow_count)).
Proof.
  intros Hrun Hlen. unfold flows_timer_cb. apply flat_map_ext. intros i.
  cbv zeta. unfold flowInterval.
  rewrite (run_record_of len evs c Hrun Hlen).
  destruct (decide _) as [->|]; reflexivity.
Qed.

Lemma flows_rows_after_run_witness :
  flows_timer_cb (rb (default (start 8) (run (start 8) C6_run))) 0 2 (λ i, i)
  = flat_map
      (λ i : nat,
         let port := s32 (0 + Z.of_nat i) in
         let ds := observed port C6_run in
         if negb (default 0 (last (flow_on port C6_run)) =? 0) then
           [FlowsWork (mkDBReportFlowStats port
              (count (λ d, d >? 1) ds) (count (λ d, d <? -1) ds)
              (count (λ d, d =? -1) ds) (longest_gap ds)
              (count (λ d, s64 (Z.abs d) >? 2) ds) ((λ i, i) (Z.of_nat i)))]
         else [])
      (seq 0 (Z.to_nat 2)).
Proof.
  apply (flows_rows_after_run 8 C6_run).
  - vm_compute. reflexivity.
  - vm_compute. reflexivity.
Defined.

(** * The sender *)

Lemma div_mod_succ K i :
  0 < K → 0 ≤ i →
  (i mod K + 1 = K → (i + 1) mod K = 0 ∧ (i + 1) / K = i / K + 1)
  ∧ (i mod K + 1 < K → (i + 1) mod K = i mod K + 1 ∧ (i + 1) / K = i / K).
Proof.
  intros HK Hi.
  pose proof (Z.div_mod i K ltac:(lia)) as E.
  pose proof (Z.mod_pos_bound i K HK) as B.
  split; intros H.
  - split; symmetry.
    + apply (Z.mod_unique _ _ (i / K + 1)); lia.
    + apply (Z.div_unique _ _ _ 0); lia.
  - split; symmetry.
    + apply (Z.mod_unique _ _ (i / K)); lia.
    + apply (Z.div_unique _ _ _ (i mod K + 1)); lia.
Qed.

Lemma sending_expected K : ∀ inputs i s,
  0 < K < 2 ^ 31 → 0 ≤ i → i + Z.of_nat (length inputs) < 2 ^ 63 →
  fd_idx s = i mod K → sequence_number s = i + 1 → flow_sn s = 1 + i / K →
  ∃ s', sending K s inputs = Some (s', expected K i inputs)
        ∧ fd_idx s' = (i + Z.of_nat (length inputs)) mod K
        ∧ sequence_number s' = i + Z.of_nat (length inputs) + 1
        ∧ flow_sn s' = 1 + (i + Z.of_nat (length inputs)) / K.
Proof.
  induction inputs as [|[now len] inputs IH]; intros i s HK Hi Hn Hf Hs Hfl.
  - exists s. cbn [length sending expected]. rewrite Z.add_0_r. auto.
  - cbn [length] in Hn. cbn [sending expected]. unfold send_iteration.
    pose proof (Z.mod_pos_bound i K ltac:(lia)) as B.
    pose proof (Z.div_pos i K Hi ltac:(lia)) as Q.
    assert (Q' : i / K ≤ i) by (apply Z.div_le_upper_bound; nia).
    destruct (div_mod_succ K i ltac:(lia) Hi) as [D1 D2].
    rewrite Hf.
    replace ((0 <=? i mod K) && (i mod K <? K)) with true
      by (symmetry; apply andb_true_iff; split; [apply Z.leb_le|apply Z.ltb_lt]; lia).
    rewrite (s32_small (i mod K + 1)) by lia.
    rewrite Hs, Hfl, (u64_small (i + 1 + 1)) by lia.
    destruct (Z.geb_spec (i mod K + 1) K) as [Hlast|Hmore].
    + destruct (D1 ltac:(lia)) as [M1 M2].
      rewrite (u64_small (1 + i / K + 1)) by lia.
      edestruct (IH (i + 1) (mkSender 0 (i + 1 + 1) (1 + i / K + 1)
                    (u64 (s_bytes_sent s + len))) HK)
        as (s' & -> & F1 & F2 & F3); cbn [fd_idx sequence_number flow_sn];
        try lia.
      exists s'. rewrite M2. replace (1 + i / K + 1) with (1 + (i / K + 1)) by lia.
      split; [reflexivity|].
      cbn [length].
      replace (i + Z.of_nat (S (length inputs)))
        with (i + 1 + Z.of_nat (length inputs)) by lia. auto.
    + destruct (D2 ltac:(lia)) as [M1 M2].
      edestruct (IH (i + 1) (mkSender (i mod K + 1) (i + 1 + 1) (1 + i / K)
                    (u64 (s_bytes_sent s + len))) HK)
        as (s' & -> & F1 & F2 & F3); cbn [fd_idx sequence_number flow_sn];
        try lia.
      exists s'. rewrite M2. split; [reflexivity|].
      cbn [length].
      replace (i + Z.of_nat (S (length inputs)))
        with (i + 1 + Z.of_nat (length inputs)) by lia. auto.
Qed.

(** X19. The sender spreads the stream over its sockets in turn: packet
    [k] (from 0) carries the marker and stream number [k + 1], goes to
    socket [k mod flowlets], and carries flow number
    [1 + (k + 1) / flowlets], the flow number being advanced before the
    packet of the last socket is written. *)
Theorem sender_packets flowlets inputs :
  0 < flowlets < 2 ^ 31 → Z.of_nat (length inputs) < 2 ^ 63 →
  ∃ s, sending flowlets sender_start inputs
       = Some (s, expected flowlets 0 inputs)
       ∧ sequence_number s = Z.of_nat (length inputs) + 1.
Proof.
  intros HK Hn.
  destruct (sending_expected flowlets inputs 0 sender_start HK ltac:(lia)
              ltac:(lia))
    as (s & E & _ & F & _); try reflexivity.
  exists s. split; [exact E|]. rewrite F. lia.
Qed.

Lemma sender_packets_witness :
  ∃ s, sending 3 sender_start [(10, 8100); (20, 8100); (30, -1); (40, 8100)]
       = Some (s, expected 3 0 [(10, 8100); (20, 8100); (30, -1); (40, 8100)])
       ∧ sequence_number s = Z.of_nat (length [(10, 8100); (20, 8100); (30, -1); (40, 8100)]) + 1.
Proof. apply (sender_packets 3); cbn; lia. Defined.

(** * Sender and receiver together *)

(** A read of a marked datagram is a call of [addPacket]. *)
Lemma on_read_marked rx b n addr sn flow_sn now :
  0 < n →
  on_read rx b n
    (Some (mkBuf (Some (mkMemory addr MARKER sn flow_sn)) PACKET_SIZE)) now
  = match addPacket b sn flow_sn (m_port rx) (Some 0) (Some 0) with
    | None => None
    | Some (b', r) =>
        Some (mkUDPReceiver (m_port rx) (m_packet_storage rx ++ [addr])
                (u64 (m_received_packets rx + 1))
                (u64 (m_received_bytes rx + n)),
              b',
              (if negb (default 0 (flow_burst_len r) =? 0)
               then [BurstWork (mkDBReportBurst (m_port rx)
                       (u64 (m_received_packets rx + 1))
                       (u64 (m_received_bytes rx + n))
                       (u64 (default 0 (flow_burst_count r)))
                       (default 0 (flow_burst_len r)))]
               else [])
              ++ (if stream_burst_len r >? 1
                  then [StreamBurstWork
                          (mkDBReportStreamBurst (stream_burst_len r) now)]
                  else []))
    end.
Proof.
  intros Hn. unfold on_read. cbn [buf_base buf_len word0 word1 word2 address].
  replace (n =? 0) with false by (symmetry; apply Z.eqb_neq; lia).
  replace (n >? 0) with true by (symmetry; apply Z.gtb_lt; lia).
  change (PACKET_SIZE =? 0) with false. change (MARKER =? MARKER) with true.
  cbn [negb].
  destruct (addPacket _ _ _ _ _ _) as [[b' r]|]; reflexivity.
Qed.

(** A read that continues a stream in order, on a port whose record it
    continues as well, queues nothing. *)
Lemma site_step_quiet s n addr j sn flow_sn now rx b' :
  0 < n →
  receivers s !! j = Some rx →
  window_step (received (reorderBuffer s) sn) sn = Some (b', 0) →
  forward_gap (reorderBuffer s) flow_sn (m_port rx) = None →
  site_step s
    (mkRead j n
       (Some (mkBuf (Some (mkMemory addr MARKER sn flow_sn)) PACKET_SIZE)) now)
  = Some (mkSite
            (<[j := mkUDPReceiver (m_port rx) (m_packet_storage rx ++ [addr])
                      (u64 (m_received_packets rx + 1))
                      (u64 (m_received_bytes rx + n))]> (receivers s))
            (set_port_seq_map
               (<[m_port rx :=
                    match m_port_seq_map (reorderBuffer s) !! m_port rx with
                    | None => mkErrorInterval flow_sn 0 0 0 0 0
                    | Some iv => updated_interval iv flow_sn
                    end]> (m_port_seq_map (reorderBuffer s))) b')
            (queued s)).
Proof.
  intros Hn Hrx Hw Hg. unfold site_step. cbn [rd_handle rd_nread rd_buf rd_time].
  rewrite Hrx, (on_read_marked _ _ _ _ _ _ _ Hn).
  pose proof (addPacket_parts (reorderBuffer s) sn flow_sn (m_port rx)
                (Some 0) (Some 0)) as E.
  cbv zeta in E. rewrite E, Hw, Hg.
  cbn [fmap option_fmap option_map fst snd stream_burst_len flow_burst_len
       flow_burst_count].
  destruct (m_tail_sn (reorderBuffer s) =? 0);
    cbn [default from_option id negb Z.eqb Z.gtb Z.compare app];
    rewrite app_nil_r; reflexivity.
Qed.

Lemma mod_apart K i k :
  0 < K → k < i → i - K < k → k mod K ≠ i mod K.
Proof.
  intros HK H1 H2 E.
  pose proof (Z.div_mod i K ltac:(lia)) as Ei.
  pose proof (Z.div_mod k K ltac:(lia)) as Ek.
  assert (D : i - k = K * (i / K - k / K)) by lia.
  destruct (Z.le_gt_cases (i / K - k / K) 0); nia.
Qed.

Lemma continues_record K i :
  0 < K → K ≤ i → i + 1 < 2 ^ 63 →
  updated_interval (mkErrorInterval (1 + (i - K + 1) / K) 0 0 0 0 0)
    (1 + (i + 1) / K)
  = mkErrorInterval (1 + (i + 1) / K) 0 0 0 0 0
  ∧ s64 (u64 (1 + (i + 1) / K - u64 (1 + (i - K + 1) / K + 1))) = 0.
Proof.
  intros HK Hi Hb.
  assert (E : (i - K + 1) / K = (i + 1) / K - 1).
  { replace (i - K + 1) with (i + 1 + (-1) * K) by lia.
    rewrite Z.div_add by lia. lia. }
  assert (Q : 0 ≤ (i + 1) / K ≤ i + 1).
  { split; [apply Z.div_pos; lia|apply Z.div_le_upper_bound; nia]. }
  assert (D : s64 (u64 (1 + (i + 1) / K - u64 (1 + (i - K + 1) / K + 1))) = 0).
  { rewrite E, (u64_small (1 + _ + 1)) by lia.
    replace (1 + (i + 1) / K - (1 + ((i + 1) / K - 1) + 1)) with 0 by lia.
    reflexivity. }
  split; [|exact D].
  unfold updated_interval. cbv zeta.
  cbn [last_known_sn burst_count reverses duplicates longest_burst seq_breaks].
  rewrite D. reflexivity.
Qed.

Lemma quiet_step port K i R s n addr now :
  quiet port K i R s → 0 < K → 1 ≤ i → i + 1 < 2 ^ 63 → 0 < n →
  ∃ s' R',
    site_step s
      (delivered n addr
         (mkSent (i mod K) MARKER (i + 1) (1 + (i + 1) / K) now)) = Some s'
    ∧ quiet port K (i + 1) R' s'.
Proof.
  intros [Qr Qq Qm Qa Qw [Qd Qu] Qs Qn Qz] HK Hi Hb Hn.
  pose proof (Z.mod_pos_bound i K HK) as Hj.
  destruct (Qr (Z.to_nat (i mod K)) ltac:(lia)) as (rx & Hrx & Hport).
  rewrite Z2Nat.id in Hport by lia.
  set (b := reorderBuffer s) in *.
  assert (M' : mirrors R 1 (received b (i + 1))).
  { apply (mirrors_same_fields _ _ _ _ Qm); try reflexivity.
    destruct (mir_wf _ _ _ Qm); split; assumption. }
  destruct (in_order_step R 1 i _ M' Qa Qw Hb)
    as (b' & R' & Hs & M1 & HR1 & Hl1 & D1 & U1).
  assert (Hrec : match m_port_seq_map b !! (port + i mod K) with
                 | None => mkErrorInterval (1 + (i + 1) / K) 0 0 0 0 0
                 | Some iv => updated_interval iv (1 + (i + 1) / K)
                 end = mkErrorInterval (1 + (i + 1) / K) 0 0 0 0 0
                 ∧ forward_gap b (1 + (i + 1) / K) (port + i mod K) = None).
  { unfold forward_gap.
    destruct (Z.le_gt_cases K i) as [Hge|Hlt].
    - pose proof (Qs (i - K) ltac:(lia) ltac:(lia)) as E.
      replace ((i - K) mod K) with (i mod K) in E.
      2:{ replace (i - K) with (i + (-1) * K) by lia.
          now rewrite Z.mod_add by lia. }
      rewrite E. destruct (continues_record K i HK Hge Hb) as [C1 C2].
      cbv zeta. cbn [last_known_sn]. rewrite C1, C2. split; reflexivity.
    - rewrite Z.mod_small by lia. rewrite (Qn i ltac:(lia)). split; reflexivity. }
  destruct Hrec as [Hrec Hgap].
  unfold delivered. cbn [sent_idx sent_marker sent_sn sent_flow_sn sent_time].
  rewrite (site_step_quiet s n addr _ _ _ now rx b' Hn Hrx Hs)
    by (rewrite Hport; exact Hgap).
  rewrite Hport. fold b. rewrite Hrec.
  eexists _, R'. split; [reflexivity|].
  split; cbn [receivers reorderBuffer queued]; fields.
  - intros j Hjk. destruct (decide (j = Z.to_nat (i mod K))) as [->|Hne].
    + eexists. rewrite list_lookup_insert_eq by (eapply lookup_lt_Some; exact Hrx).
      split; [reflexivity|]. cbn [m_port]. rewrite Z2Nat.id by lia. reflexivity.
    + rewrite list_lookup_insert_ne by congruence. apply Qr. exact Hjk.
  - exact Qq.
  - apply (mirrors_same_fields _ _ _ _ M1); try reflexivity.
    destruct (mir_wf _ _ _ M1); split; assumption.
  - exact HR1.
  - exact Hl1.
  - split; assumption.
  - intros k Hk Hk'. destruct (decide (k = i)) as [->|Hne].
    + rewrite lookup_insert_eq. reflexivity.
    + rewrite lookup_insert_ne.
      * apply Qs; lia.
      * pose proof (mod_apart K i k HK ltac:(lia) ltac:(lia)). lia.
  - intros j Hjk. rewrite lookup_insert_ne.
    + apply Qn. lia.
    + rewrite Z.mod_small; lia.
  - intros p iv. destruct (decide (p = port + i mod K)) as [->|Hne].
    + rewrite lookup_insert_eq. intros [= <-]. reflexivity.
    + rewrite lookup_insert_ne by congruence. apply Qz.
Qed.

Lemma site_start_receivers port K pool (j : nat) :
  0 ≤ port → port + K ≤ 2 ^ 31 → Z.of_nat j < K →
  receivers (site_start port K pool) !! j
  = Some (mkUDPReceiver (port + Z.of_nat j) (pool j) 0 0).
Proof.
  intros Hp Hk Hj. unfold site_start. cbn [receivers].
  rewrite list_lookup_fmap, lookup_seq_lt by lia. cbn [fmap option_fmap option_map].
  rewrite s32_small by lia. reflexivity.
Qed.

Lemma quiet_first port K n addr now pool :
  0 < K → 0 ≤ port → port + K ≤ 2 ^ 31 → 0 < n →
  ∃ s' R',
    site_step (site_start port K pool)
      (delivered n addr (mkSent (0 mod K) MARKER (0 + 1) (1 + (0 + 1) / K) now))
    = Some s'
    ∧ quiet port K 1 R' s'.
Proof.
  intros HK Hp Hk Hn.
  pose proof (site_start_receivers port K pool 0 Hp Hk ltac:(lia)) as Hrx.
  unfold delivered. cbn [sent_idx sent_marker sent_sn sent_flow_sn sent_time].
  change (Z.to_nat (0 mod K)) with 0%nat. change (0 + 1) with 1.
  rewrite (site_step_quiet _ n addr 0%nat 1 _ now _
             (store 0 1 (set_head_idx 0 (set_tail_sn 1
                (received (new_buffer 1024) 1)))) Hn Hrx);
    [|reflexivity|reflexivity].
  cbn [m_port]. change (port + Z.of_nat 0) with (port + 0).
  change (m_port_seq_map (reorderBuffer (site_start port K pool)))
    with (∅ : gmap Z ErrorInterval).
  rewrite lookup_empty.
  pose proof (first_mirrors 1024 1 ltac:(lia) ltac:(lia)) as M.
  eexists _, (times [1]). split; [reflexivity|].
  split; cbn [receivers reorderBuffer queued]; fields.
  - intros j Hj. destruct j as [|j].
    + eexists. rewrite list_lookup_insert_eq
        by (eapply lookup_lt_Some; exact Hrx).
      split; reflexivity.
    + rewrite list_lookup_insert_ne by discriminate.
      rewrite (site_start_receivers port K pool (S j) Hp Hk Hj).
      eexists. split; reflexivity.
  - reflexivity.
  - apply (mirrors_same_fields _ _ _ _ M); try reflexivity.
    destruct (mir_wf _ _ _ M); split; assumption.
  - intros x. unfold times, count. cbn [List.filter].
    destruct (Z.eqb_spec 1 x), (Z.leb_spec 1 x), (Z.leb_spec x 1); cbn; lia.
  - cbn. lia.
  - split; reflexivity.
  - intros k Hk0 Hk1. replace k with 0 by lia.
    change (0 mod K) with 0. rewrite lookup_insert_eq. reflexivity.
  - intros j Hj. rewrite lookup_insert_ne by lia. apply lookup_empty.
  - intros p iv. destruct (decide (p = port + 0)) as [->|Hne].
    + rewrite lookup_insert_eq. intros [= <-]. reflexivity.
    + rewrite lookup_insert_ne by congruence. rewrite lookup_empty. discriminate.
Qed.

Lemma quiet_run port K n addr : ∀ inputs i R s,
  quiet port K i R s → 0 < K → 1 ≤ i →
  i + Z.of_nat (length inputs) < 2 ^ 63 → 0 < n →
  ∃ s' R',
    site_run s (delivered n addr <$> expected K i inputs) = Some s'
    ∧ quiet port K (i + Z.of_nat (length inputs)) R' s'.
Proof.
  induction inputs as [|[now len] inputs IH]; intros i R s Q HK Hi Hb Hn.
  - exists s, R. cbn [length]. rewrite Z.add_0_r. split; [reflexivity|exact Q].
  - cbn [length] in Hb. cbn [expected fmap list_fmap site_run].
    destruct (quiet_step port K i R s n addr now Q HK Hi ltac:(lia) Hn)
      as (s1 & R1 & -> & Q1).
    destruct (IH (i + 1) R1 s1 Q1 HK ltac:(lia) ltac:(lia) Hn)
      as (s2 & R2 & E & Q2).
    exists s2, R2. split; [exact E|]. cbn [length].
    replace (i + Z.of_nat (S (length inputs)))
      with (i + 1 + Z.of_nat (length inputs)) by lia. exact Q2.
Qed.

(** X20. Sender and receiver agree.  When every packet of the sender is
    read once and in the order of sending, by the receiver of its
    socket, the receiving process stays silent: no burst row is queued,
    [drops()] and [duplicates()] are 0, and every row that the flows
    timer queues afterwards carries no error. *)
Theorem in_order_delivery_is_silent port flowlets inputs n addr pool clock :
  0 < flowlets → 0 ≤ port → port + flowlets < 2 ^ 31 →
  Z.of_nat (length inputs) < 2 ^ 63 → 0 < n →
  ∃ s ts site,
    sending flowlets sender_start inputs = Some (s, ts)
    ∧ site_run (site_start port flowlets pool) (delivered n addr <$> ts)
      = Some site
    ∧ queued site = []
    ∧ drops (reorderBuffer site) = 0 ∧ dups (reorderBuffer site) = 0
    ∧ Forall (λ w, ∃ p t, w = FlowsWork (mkDBReportFlowStats p 0 0 0 0 0 t))
        (flows_timer_cb (reorderBuffer site) port flowlets clock).
Proof.
  intros HK Hp Hk Hlen Hn.
  destruct (sending_expected flowlets inputs 0 sender_start ltac:(lia)
              ltac:(lia) ltac:(lia))
    as (s & E & _); try reflexivity.
  exists s, (expected flowlets 0 inputs). rewrite E.
  destruct inputs as [|[now len] inputs].
  - exists (site_start port flowlets pool).
    split; [reflexivity|]. split; [reflexivity|]. split; [reflexivity|].
    split; [reflexivity|]. split; [reflexivity|].
    unfold flows_timer_cb. apply Forall_flat_map, Forall_forall. intros i _.
    cbv zeta. unfold flowInterval. cbn [reorderBuffer site_start new_buffer m_port_seq_map].
    rewrite lookup_empty. cbn. constructor.
  - cbn [expected fmap list_fmap site_run]. cbn [length] in Hlen.
    destruct (quiet_first port flowlets n addr now pool HK Hp ltac:(lia) Hn)
      as (s1 & R1 & -> & Q1).
    destruct (quiet_run port flowlets n addr inputs (0 + 1) R1 s1 Q1 HK
                ltac:(lia) ltac:(lia) Hn) as (s2 & R2 & E2 & Q2).
    exists s2. split; [reflexivity|]. split; [exact E2|].
    split; [apply (q_queued _ _ _ _ _ Q2)|].
    split; [apply (q_clean _ _ _ _ _ Q2)|].
    split; [apply (q_clean _ _ _ _ _ Q2)|].
    unfold flows_timer_cb. apply Forall_flat_map, Forall_forall. intros i _.
    cbv zeta. unfold flowInterval.
    destruct (m_port_seq_map (reorderBuffer s2) !! s32 (port + Z.of_nat i))
      as [iv|] eqn:L.
    + rewrite (q_zero _ _ _ _ _ Q2 _ _ L).
      cbn [last_known_sn burst_count reverses duplicates longest_burst seq_breaks].
      destruct (negb _); constructor; [|constructor].
      eexists _, _. reflexivity.
    + cbn. constructor.
Qed.

Lemma in_order_delivery_is_silent_witness :
  ∃ s ts site,
    sending 3 sender_start [(10, 8100); (20, 8100); (30, 8100); (40, 8100); (50, 8100)] = Some (s, ts)
    ∧ site_run (site_start 5678 3 (λ _, [])) (delivered 8100 0 <$> ts)
      = Some site
    ∧ queued site = []
    ∧ drops (reorderBuffer site) = 0 ∧ dups (reorderBuffer site) = 0
    ∧ Forall (λ w, ∃ p t, w = FlowsWork (mkDBReportFlowStats p 0 0 0 0 0 t))
        (flows_timer_cb (reorderBuffer site) 5678 3 (λ i, i)).
Proof.
  apply (in_order_delivery_is_silent 5678 3
           [(10, 8100); (20, 8100); (30, 8100); (40, 8100); (50, 8100)]
           8100 0 (λ _, []) (λ i, i)); cbn; lia.
Defined.
